(** * Replyke node API: comment tree and counter maintenance

    A shallow embedding of the Express routers of the repository over a
    model of the two Mongoose collections: routers/comments.ts with its
    [/comments] routes and with its [/replyke-comments] routes, and
    routers/articles.ts in its two forms. The embedding is followed by the
    properties of the comment tree, the like toggles and the pagination. *)

From Stdlib Require Import List String ZArith QArith Bool Arith Lia.
From Stdlib Require Import Permutation Sorted.
From Stdlib Require Qcanon.
Import ListNotations.

Close Scope Q_scope.
Open Scope string_scope.
Open Scope list_scope.
Open Scope Z_scope.

Set Implicit Arguments.

(** ** Documents (interfaces/IComment.ts, interfaces/IArticle.ts) *)

Module Author.
Record t := mk { _id : string; name : string; img : option string }.
End Author.

Module IComment.
Record t := mk {
  _id : string;
  article_id : string;
  body : string;
  parent : option string;
  likes : list string;
  likes_count : Z;
  replies_count : Z;
  created_at : Z;          (* the Date, as its time value *)
  author : Author.t
}.
End IComment.

Module IArticle.
Record t := mk {
  _id : string;
  article_id : string;
  likes : list string;
  likes_count : Z;
  comments_count : Z;
  replies_count : Z
}.
End IArticle.

(** JavaScript truthiness of a string and of an optional string: the
    routers test [if (parent)], [!comment_id], [comment.parent ? .. : ..]. *)
Definition truthy_str (s : string) : bool := negb (s =? EmptyString)%string.

Definition truthy (v : option string) : bool :=
  match v with
  | Some s => truthy_str s
  | None => false
  end.

(** [likes.includes(user_id)] *)
Definition includes (l : list string) (u : string) : bool :=
  existsb (String.eqb u) l.

(** ** JavaScript numbers, as far as the pagination code uses them

    A finite double is a rational; [<], [%] and [!=] are exact on doubles,
    [-] and [*] are exact as long as the operands and the result are
    integers below 2^53, which is the range the listing theorems speak of. *)
Inductive number :=
| NaN
| Infinity (negative : bool)
| Finite (q : Q).

Definition isNaN (n : number) : bool :=
  match n with NaN => true | _ => false end.

Definition Qltb (a b : Q) : bool := if Qlt_le_dec a b then true else false.
Definition Qeqb (a b : Q) : bool := Qeq_bool a b.

(** [a < b] *)
Definition num_lt (a b : number) : bool :=
  match a, b with
  | NaN, _ | _, NaN => false
  | Infinity true, Infinity true => false
  | Infinity true, _ => true
  | _, Infinity true => false
  | Infinity false, _ => false
  | Finite _, Infinity false => true
  | Finite x, Finite y => Qltb x y
  end.

(** truncation towards zero *)
Definition Qtrunc (q : Q) : Z := Z.quot (Qnum q) (Zpos (Qden q)).

(** [a % b]: the remainder has the sign of the dividend *)
Definition num_rem (a b : number) : number :=
  match a, b with
  | NaN, _ | _, NaN => NaN
  | Infinity _, _ => NaN
  | Finite x, Infinity _ => Finite x
  | Finite x, Finite y =>
      if Qeqb y 0%Q then NaN
      else Finite (Qred (Qminus x (Qmult y (inject_Z (Qtrunc (Qdiv x y))))))
  end.

(** [a != b] *)
Definition num_neq (a b : number) : bool :=
  match a, b with
  | NaN, _ | _, NaN => true
  | Infinity s, Infinity s' => negb (Bool.eqb s s')
  | Finite x, Finite y => negb (Qeqb x y)
  | _, _ => true
  end.

(** [a - b] *)
Definition num_sub (a b : number) : number :=
  match a, b with
  | NaN, _ | _, NaN => NaN
  | Infinity s, Infinity s' => if Bool.eqb s s' then NaN else Infinity s
  | Infinity s, Finite _ => Infinity s
  | Finite _, Infinity s => Infinity (negb s)
  | Finite x, Finite y => Finite (Qred (Qminus x y))
  end.

Definition Qsign_neg (q : Q) : bool := Qltb q 0%Q.

(** [a * b] *)
Definition num_mul (a b : number) : number :=
  match a, b with
  | NaN, _ | _, NaN => NaN
  | Infinity s, Infinity s' => Infinity (xorb s s')
  | Infinity s, Finite y | Finite y, Infinity s =>
      if Qeqb y 0%Q then NaN else Infinity (xorb s (Qsign_neg y))
  | Finite x, Finite y => Finite (Qred (Qmult x y))
  end.

Definition of_Z (z : Z) : number := Finite (inject_Z z).

(** The value a store cursor takes as a count: a non-negative integer. *)
Definition as_count (n : number) : option nat :=
  match n with
  | Finite q =>
      if Qeqb (inject_Z (Qtrunc q)) q && (0 <=? Qtrunc q)
      then Some (Z.to_nat (Qtrunc q)) else None
  | _ => None
  end.

(** ** The store: two collections and the calls made on them *)

Inductive Collection := CommentsColl | ArticlesColl.

Inductive StoreCall :=
| Query (c : Collection)
| Insert (c : Collection)
| Update (c : Collection)
| Delete (c : Collection).

Record DB := mkDB {
  comments : list IComment.t;
  articles : list IArticle.t;
  calls : list StoreCall
}.

(** ** Handlers run in a state monad over the store; an exception keeps the
    store as it is at the throw (nothing is rolled back). *)

Inductive res (A : Type) :=
| Ok (a : A)
| Throw (msg : string)
| OutOfFuel.
Arguments Ok {A} a.
Arguments Throw {A} msg.
Arguments OutOfFuel {A}.

Definition M (A : Type) := DB -> DB * res A.

Definition ret {A} (a : A) : M A := fun db => (db, Ok a).

Definition throw {A} (msg : string) : M A := fun db => (db, Throw msg).

Definition bind {A B} (m : M A) (k : A -> M B) : M B :=
  fun db =>
    match m db with
    | (db', Ok a) => k a db'
    | (db', Throw msg) => (db', Throw msg)
    | (db', OutOfFuel) => (db', OutOfFuel)
    end.

Notation "x <- m ;; k" := (bind m (fun x => k))
  (at level 61, m at next level, right associativity).
Notation "m ;;; k" := (bind m (fun _ => k))
  (at level 61, right associativity).

(** [try { .. } catch (err) { return handler(err.message) }] *)
Definition try_catch {A} (m : M A) (handler : string -> A) : M A :=
  fun db =>
    match m db with
    | (db', Throw msg) => (db', Ok (handler msg))
    | r => r
    end.

(** ** Update documents: [{ $inc: {..}, $push: {..}, $pull: {..}, body: .. }] *)

Inductive Field :=
  likes | likes_count | comments_count | replies_count | body | created_at.

Inductive UpdateOp :=
| Inc (f : Field) (d : Z)
| Push (f : Field) (v : string)
| Pull (f : Field) (v : string)
| SetStr (f : Field) (v : string).

Definition pull (v : string) (l : list string) : list string :=
  filter (fun x => negb (String.eqb x v)) l.

Definition update_comment (op : UpdateOp) (c : IComment.t) : IComment.t :=
  let '(IComment.mk i a b p l lc rc t au) := c in
  match op with
  | Inc likes_count d => IComment.mk i a b p l (lc + d) rc t au
  | Inc replies_count d => IComment.mk i a b p l lc (rc + d) t au
  | Push likes v => IComment.mk i a b p (l ++ [v]) lc rc t au
  | Pull likes v => IComment.mk i a b p (pull v l) lc rc t au
  | SetStr body v => IComment.mk i a v p l lc rc t au
  | _ => c
  end.

Definition update_article (op : UpdateOp) (x : IArticle.t) : IArticle.t :=
  let '(IArticle.mk i a l lc cc rc) := x in
  match op with
  | Inc likes_count d => IArticle.mk i a l (lc + d) cc rc
  | Inc comments_count d => IArticle.mk i a l lc (cc + d) rc
  | Inc replies_count d => IArticle.mk i a l lc cc (rc + d)
  | Push likes v => IArticle.mk i a (l ++ [v]) lc cc rc
  | Pull likes v => IArticle.mk i a (pull v l) lc cc rc
  | _ => x
  end.

Definition apply_ops {A} (upd : UpdateOp -> A -> A) (ops : list UpdateOp) (x : A) : A :=
  fold_left (fun acc op => upd op acc) ops x.

(** ** Collections as lists of documents, in store order *)

Section Collections.
Context {A : Type}.

(** the first document the predicate selects, replaced *)
Fixpoint update_first (p : A -> bool) (f : A -> A) (l : list A) : list A :=
  match l with
  | [] => []
  | x :: l' => if p x then f x :: l' else x :: update_first p f l'
  end.

(** the first document the predicate selects, removed *)
Fixpoint remove_first (p : A -> bool) (l : list A) : list A :=
  match l with
  | [] => []
  | x :: l' => if p x then l' else x :: remove_first p l'
  end.
End Collections.

Definition log (c : StoreCall) (db : DB) : DB :=
  mkDB (comments db) (articles db) (calls db ++ [c]).

Definition set_comments (cs : list IComment.t) (db : DB) : DB :=
  mkDB cs (articles db) (calls db).

Definition set_articles (xs : list IArticle.t) (db : DB) : DB :=
  mkDB (comments db) xs (calls db).

(** ** Sorting and cursors ([.sort(..)], [.skip(..)], [.limit(..)])

    The store sorts first, then skips, then limits, in whatever order the
    three were chained. A sort document is a list of keys with [1] or [-1]. *)

Definition SortOrder := Z.

Definition sort_key (f : Field) (c : IComment.t) : Z :=
  match f with
  | likes_count => IComment.likes_count c
  | replies_count => IComment.replies_count c
  | created_at => IComment.created_at c
  | _ => 0
  end.

Fixpoint sort_le (sort : list (Field * SortOrder)) (a b : IComment.t) : bool :=
  match sort with
  | [] => true
  | (f, o) :: rest =>
      if sort_key f a =? sort_key f b then sort_le rest a b
      else if 0 <=? o then sort_key f a <? sort_key f b
           else sort_key f b <? sort_key f a
  end.

Fixpoint insert_sorted (sort : list (Field * SortOrder)) (x : IComment.t)
    (l : list IComment.t) : list IComment.t :=
  match l with
  | [] => [x]
  | y :: l' => if sort_le sort x y then x :: l else y :: insert_sorted sort x l'
  end.

Definition sort_docs (sort : list (Field * SortOrder)) (l : list IComment.t)
    : list IComment.t :=
  fold_right (insert_sorted sort) [] l.

(** [limit(0)] is no limit. *)
Definition take_limit {A} (n : nat) (l : list A) : list A :=
  match n with
  | O => l
  | _ => firstn n l
  end.

(** A query filter [{ key: value }] where the value may be [undefined]:
    with the driver's [ignoreUndefined] the key is dropped, without it the
    value is sent as null and selects the documents that lack the field. *)
Definition match_key (ignoreUndefined : bool) (q : option string)
    (v : option string) : bool :=
  match q, v with
  | None, None => true
  | None, Some _ => ignoreUndefined
  | Some s, Some s' => String.eqb s' s
  | Some _, None => false
  end.

(** ** The Mongoose models *)

Module Comment.
Definition has_id (id : string) (c : IComment.t) : bool :=
  String.eqb (IComment._id c) id.

Definition has_parent (id : string) (c : IComment.t) : bool :=
  match IComment.parent c with
  | Some p => String.eqb p id
  | None => false
  end.

Definition findById (id : string) : M (option IComment.t) :=
  fun db => (log (Query CommentsColl) db, Ok (List.find (has_id id) (comments db))).

(** resolves to the deleted document, or to null *)
Definition findByIdAndDelete (id : string) : M (option IComment.t) :=
  fun db =>
    (log (Delete CommentsColl)
         (set_comments (remove_first (has_id id) (comments db)) db),
     Ok (List.find (has_id id) (comments db))).

(** resolves to the document before the update, or after it with
    [{ new: true }], or to null when no document has the id *)
Definition findByIdAndUpdate (id : string) (ops : list UpdateOp)
    (new : bool) : M (option IComment.t) :=
  fun db =>
    (log (Update CommentsColl)
         (set_comments
            (update_first (has_id id) (apply_ops update_comment ops) (comments db))
            db),
     Ok (option_map
           (fun c => if new then apply_ops update_comment ops c else c)
           (List.find (has_id id) (comments db)))).

(** [Comment.find({ parent: id })] *)
Definition find_children (id : string) : M (list IComment.t) :=
  fun db => (log (Query CommentsColl) db, Ok (filter (has_parent id) (comments db))).

(** [Comment.find({ article_id, parent }).limit(l).skip(k).sort(s)].
    What the driver does with a limit or skip that is not a non-negative
    integer is outside this model, which lets such a query fail. *)
Definition find_page (ignoreUndefined : bool)
    (article_id parent : option string)
    (limit skip : number) (sort : list (Field * SortOrder))
    : M (list IComment.t) :=
  fun db =>
    (log (Query CommentsColl) db,
     match as_count limit, as_count skip with
     | Some l, Some k =>
         Ok (take_limit l (skipn k (sort_docs sort
               (filter (fun c =>
                          match_key ignoreUndefined article_id
                                    (Some (IComment.article_id c))
                          && match_key ignoreUndefined parent (IComment.parent c))
                       (comments db)))))
     | _, _ => Throw "Failed to parse: limit or skip"
     end).

Definition save (c : IComment.t) : M unit :=
  fun db => (log (Insert CommentsColl) (set_comments (comments db ++ [c]) db), Ok tt).
End Comment.

Module Article.
Definition has_article_id (id : string) (a : IArticle.t) : bool :=
  String.eqb (IArticle.article_id a) id.

Definition findOne (article_id : string) : M (option IArticle.t) :=
  fun db =>
    (log (Query ArticlesColl) db,
     Ok (List.find (has_article_id article_id) (articles db))).

Definition findOneAndUpdate (article_id : string) (ops : list UpdateOp)
    (new : bool) : M (option IArticle.t) :=
  fun db =>
    (log (Update ArticlesColl)
         (set_articles
            (update_first (has_article_id article_id)
                          (apply_ops update_article ops) (articles db))
            db),
     Ok (option_map
           (fun a => if new then apply_ops update_article ops a else a)
           (List.find (has_article_id article_id) (articles db)))).

Definition save (a : IArticle.t) : M unit :=
  fun db => (log (Insert ArticlesColl) (set_articles (articles db ++ [a]) db), Ok tt).
End Article.

(** ** Responses *)

Inductive Body :=
| Empty
| Null
| Text (s : string)
| ErrorMessage (msg : string)
| ArticleDoc (a : IArticle.t)
| CommentDoc (c : IComment.t)
| CommentDocs (l : list IComment.t).

Record Response := send { status : nat; sent : Body }.

(** What the runtime supplies to a handler that creates a document: the
    ObjectId of the new document and the current time. *)
Record Env := mkEnv { comment_oid : string; article_oid : string; now : Z }.

Definition str_is (v : option string) (s : string) : bool :=
  match v with
  | Some x => String.eqb x s
  | None => false
  end.

Definition default (v : option number) (d : number) : number :=
  match v with
  | Some n => n
  | None => d
  end.

(** The two counters the delete handlers keep while they recurse. *)
Record Counters := mkCounters {
  firstLevelCommentsDeletedCount : Z;
  repliesDeletedCount : Z
}.

(** [for (const x of xs) { await f(x) }] where the body updates locals *)
Fixpoint for_of_acc {A B} (xs : list A) (f : A -> B -> M B) (acc : B) : M B :=
  match xs with
  | [] => ret acc
  | x :: xs' => acc' <- f x acc ;; for_of_acc xs' f acc'
  end.


(** ** routers/comments.ts with the [/comments] routes, and routers/articles.ts
    in the form that sends back a recomputed document *)

Module V1.

(** [router.get("/comments")]; [page] and [limit] are what [Number(..)]
    makes of the query values, absent when the query has none. *)
Definition get_comments_try (ignoreUndefined : bool)
    (article_id sort_by parent : option string)
    (page limit : option number) : M Response :=
    (let page := default page (of_Z 1) in
     let limit := default limit (of_Z 5) in
     let limitAsNumber := limit in
     if isNaN limitAsNumber
     then throw "Invalid request: limit must be a number" else
     let pageAsNumber := page in
     if isNaN pageAsNumber
     then throw "Invalid request: page must be a number" else
     if num_lt pageAsNumber (of_Z 1)
     then throw "Invalid request: page must be greater than 1" else
     if num_neq (num_rem pageAsNumber (of_Z 1)) (of_Z 0)
     then throw "Invalid request: page must be a whole number" else
     let sort : list (Field * SortOrder) := [] in
     let sort := if str_is sort_by "popular"
                 then [(likes_count, -1); (created_at, -1)] else sort in
     let sort := if str_is sort_by "newest" then [(created_at, -1)] else sort in
     let sort := if str_is sort_by "oldest" then [(created_at, 1)] else sort in
     let skipCount := num_mul (num_sub pageAsNumber (of_Z 1)) limitAsNumber in
     result <- Comment.find_page ignoreUndefined article_id parent
                 limitAsNumber skipCount sort ;;
     ret (send 200 (CommentDocs result))).

Definition get_comments (ignoreUndefined : bool)
    (article_id sort_by parent : option string)
    (page limit : option number) : M Response :=
  try_catch
    (get_comments_try ignoreUndefined article_id sort_by parent page limit)
    (fun msg => send 500 (ErrorMessage msg)).

(** [router.post("/comments")] *)
Definition post_comments (env : Env) (article_id comment_body : string)
    (parent : option string) (author : Author.t) : M Response :=
  try_catch
    (let comment :=
       IComment.mk (comment_oid env) article_id comment_body parent
                   [] 0 0 (now env) author in
     Comment.save comment ;;;
     (match parent with
      | Some p =>
          if truthy_str p
          then _ <- Comment.findByIdAndUpdate p [Inc replies_count 1] false ;;
               ret tt
          else ret tt
      | None => ret tt
      end) ;;;
     article <- Article.findOne article_id ;;
     (match article with
      | Some _ =>
          if truthy parent
          then _ <- Article.findOneAndUpdate article_id
                      [Inc replies_count 1] false ;; ret tt
          else _ <- Article.findOneAndUpdate article_id
                      [Inc comments_count 1] false ;; ret tt
      | None =>
          let newArticle :=
            IArticle.mk (article_oid env) article_id [] 0 1 0 in
          Article.save newArticle
      end) ;;;
     ret (send 200 (CommentDoc comment)))
    (fun msg => send 500 (ErrorMessage msg)).

(** the recursive function of the delete handler; [fuel] bounds the
    depth of the recursion *)
Fixpoint deleteCommentAndChildren (fuel : nat) (commentId : string)
    (cnt : Counters) {struct fuel} : M Counters :=
  match fuel with
  | O => fun db => (db, OutOfFuel)
  | S fuel' =>
      comment <- Comment.findByIdAndDelete commentId ;;
      match comment with
      | None => throw "Comment not found"
      | Some comment =>
          let cnt :=
            if truthy (IComment.parent comment)
            then mkCounters (firstLevelCommentsDeletedCount cnt)
                            (repliesDeletedCount cnt + 1)
            else mkCounters (firstLevelCommentsDeletedCount cnt + 1)
                            (repliesDeletedCount cnt) in
          childComments <- Comment.find_children (IComment._id comment) ;;
          for_of_acc childComments
            (fun childComment cnt =>
               deleteCommentAndChildren fuel' (IComment._id childComment) cnt)
            cnt
      end
  end.

(** [router.delete("/comments")] *)
Definition delete_comments_try (fuel : nat) (comment_id : string)
    : M Response :=
    (targetComment <- Comment.findById comment_id ;;
     match targetComment with
     | None => throw "Comment not found"
     | Some targetComment =>
         cnt <- deleteCommentAndChildren fuel comment_id (mkCounters 0 0) ;;
         (match IComment.parent targetComment with
          | Some p =>
              if truthy_str p
              then _ <- Comment.findByIdAndUpdate p
                          [Inc replies_count (-1)] false ;; ret tt
              else ret tt
          | None => ret tt
          end) ;;;
         article <- Article.findOneAndUpdate
                      (IComment.article_id targetComment)
                      [Inc comments_count (- firstLevelCommentsDeletedCount cnt);
                       Inc replies_count (- repliesDeletedCount cnt)]
                      false ;;
         match article with
         | None => throw "No article found"
         | Some article =>
             let updatedArticle :=
               IArticle.mk (IArticle._id article) (IArticle.article_id article)
                 (IArticle.likes article) (IArticle.likes_count article)
                 (IArticle.comments_count article
                  - firstLevelCommentsDeletedCount cnt)
                 (IArticle.replies_count article - repliesDeletedCount cnt) in
             ret (send 200 (ArticleDoc updatedArticle))
         end
     end).

Definition delete_comments (fuel : nat) (comment_id : string) : M Response :=
  try_catch (delete_comments_try fuel comment_id)
            (fun msg => send 500 (ErrorMessage msg)).

(** [router.patch("/comments")]: the result of the update is not looked at *)
Definition patch_comments (update comment_id : string) : M Response :=
  try_catch
    (_ <- Comment.findByIdAndUpdate comment_id [SetStr body update] false ;;
     ret (send 200 Empty))
    (fun msg => send 500 (ErrorMessage msg)).

(** [router.post("/comments/like")] *)
Definition post_comments_like (comment_id user_id : string) : M Response :=
  try_catch
    (comment <- Comment.findById comment_id ;;
     match comment with
     | None => ret (send 404 (Text "Comment not found"))
     | Some comment =>
         if includes (IComment.likes comment) user_id
         then ret (send 406 (Text "Can't like - user already liked comment"))
         else
           _ <- Comment.findByIdAndUpdate comment_id
                  [Inc likes_count 1; Push likes user_id] false ;;
           let newComment :=
             IComment.mk (IComment._id comment) (IComment.article_id comment)
               (IComment.body comment) (IComment.parent comment)
               (IComment.likes comment ++ [user_id])
               (IComment.likes_count comment + 1)
               (IComment.replies_count comment) (IComment.created_at comment)
               (IComment.author comment) in
           ret (send 200 (CommentDoc newComment))
     end)
    (fun msg => send 500 (ErrorMessage msg)).

(** [router.post("/comments/unlike")] *)
Definition post_comments_unlike (comment_id user_id : string) : M Response :=
  try_catch
    (comment <- Comment.findById comment_id ;;
     match comment with
     | None => ret (send 404 (Text "Comment not found"))
     | Some comment =>
         if negb (includes (IComment.likes comment) user_id)
         then ret (send 406 (Text "Can't unlike, as user didn't like comment"))
         else
           _ <- Comment.findByIdAndUpdate comment_id
                  [Inc likes_count (-1); Pull likes user_id] false ;;
           let newComment :=
             IComment.mk (IComment._id comment) (IComment.article_id comment)
               (IComment.body comment) (IComment.parent comment)
               (pull user_id (IComment.likes comment))
               (IComment.likes_count comment - 1)
               (IComment.replies_count comment) (IComment.created_at comment)
               (IComment.author comment) in
           ret (send 200 (CommentDoc newComment))
     end)
    (fun msg => send 500 (ErrorMessage msg)).

(** [router.post("/replyke-articles/like")], first form *)
Definition post_articles_like (env : Env) (article_id user_id : string)
    : M Response :=
  try_catch
    (article <- Article.findOne article_id ;;
     match article with
     | Some article =>
         if includes (IArticle.likes article) user_id
         then ret (send 406 (Text "User already liked article"))
         else
           _ <- Article.findOneAndUpdate article_id
                  [Inc likes_count 1; Push likes user_id] false ;;
           let newArticle :=
             IArticle.mk (IArticle._id article) (IArticle.article_id article)
               (IArticle.likes article ++ [user_id])
               (IArticle.likes_count article + 1)
               (IArticle.comments_count article)
               (IArticle.replies_count article) in
           ret (send 200 (ArticleDoc newArticle))
     | None =>
         let newArticle :=
           IArticle.mk (article_oid env) article_id [user_id] 1 0 0 in
         Article.save newArticle ;;;
         ret (send 200 (ArticleDoc newArticle))
     end)
    (fun msg => send 500 (ErrorMessage msg)).

(** [router.post("/replyke-articles/unlike")], first form *)
Definition post_articles_unlike (article_id user_id : string) : M Response :=
  try_catch
    (article <- Article.findOne article_id ;;
     match article with
     | None => ret (send 404 (Text "Article not found"))
     | Some article =>
         if negb (includes (IArticle.likes article) user_id)
         then ret (send 406 (Text "Can't unlike, as user didn't like article"))
         else
           _ <- Article.findOneAndUpdate article_id
                  [Inc likes_count (-1); Pull likes user_id] false ;;
           let newArticle :=
             IArticle.mk (IArticle._id article) (IArticle.article_id article)
               (pull user_id (IArticle.likes article))
               (IArticle.likes_count article - 1)
               (IArticle.comments_count article)
               (IArticle.replies_count article) in
           ret (send 200 (ArticleDoc newArticle))
     end)
    (fun msg => send 500 (ErrorMessage msg)).

End V1.

(** ** routers/comments.ts with the [/replyke-comments] routes, and
    routers/articles.ts in the form that validates the request body and
    sends back the stored document *)

Module V2.

Definition server_error (_ : string) : Response :=
  send 500 (ErrorMessage "Server error").

Definition comment_or_null (c : option IComment.t) : Body :=
  match c with
  | Some c => CommentDoc c
  | None => Null
  end.

Definition article_or_null (a : option IArticle.t) : Body :=
  match a with
  | Some a => ArticleDoc a
  | None => Null
  end.

(** [router.get("/replyke-comments")] *)
Definition get_comments_try (ignoreUndefined : bool)
    (article_id sort_by parent : option string)
    (page limit : option number) : M Response :=
    (let page := default page (of_Z 1) in
     let limit := default limit (of_Z 5) in
     let limitAsNumber := limit in
     if isNaN limitAsNumber
     then throw "Invalid request: limit must be a number" else
     let pageAsNumber := page in
     if isNaN pageAsNumber
     then throw "Invalid request: page must be a number" else
     if num_lt pageAsNumber (of_Z 1)
        || num_neq (num_rem pageAsNumber (of_Z 1)) (of_Z 0)
     then throw "Invalid request: 'page' must be a whole number greater than 0"
     else
     let sort : list (Field * SortOrder) := [] in
     let sort := if str_is sort_by "popular"
                 then [(likes_count, -1); (created_at, -1)] else sort in
     let sort := if str_is sort_by "newest" then [(created_at, -1)] else sort in
     let sort := if str_is sort_by "oldest" then [(created_at, 1)] else sort in
     let skipCount := num_mul (num_sub pageAsNumber (of_Z 1)) limitAsNumber in
     comments <- Comment.find_page ignoreUndefined article_id parent
                   limitAsNumber skipCount sort ;;
     ret (send 200 (CommentDocs comments))).

Definition get_comments (ignoreUndefined : bool)
    (article_id sort_by parent : option string)
    (page limit : option number) : M Response :=
  try_catch
    (get_comments_try ignoreUndefined article_id sort_by parent page limit)
    server_error.

(** [router.post("/replyke-comments")] *)
Definition post_comments (env : Env) (article_id comment_body : string)
    (parent : option string) (author : option Author.t) : M Response :=
  try_catch
    (match author with
     | None => ret (send 400 (Text "Missing required comment details"))
     | Some author =>
       if negb (truthy_str article_id) || negb (truthy_str comment_body)
       then ret (send 400 (Text "Missing required comment details"))
       else
         let comment :=
           IComment.mk (comment_oid env) article_id comment_body parent
                       [] 0 0 (now env) author in
         Comment.save comment ;;;
         (match parent with
          | Some p =>
              if truthy_str p
              then _ <- Comment.findByIdAndUpdate p [Inc replies_count 1] false ;;
                   ret tt
              else ret tt
          | None => ret tt
          end) ;;;
         article <- Article.findOne article_id ;;
         (match article with
          | Some _ =>
              let updateField :=
                if truthy parent then [Inc replies_count 1]
                else [Inc comments_count 1] in
              _ <- Article.findOneAndUpdate article_id updateField false ;;
              ret tt
          | None =>
              let newArticle :=
                IArticle.mk (article_oid env) article_id [] 0 1 0 in
              Article.save newArticle
          end) ;;;
         ret (send 200 (CommentDoc comment))
     end)
    server_error.

(** the recursive function of the delete handler *)
Fixpoint deleteCommentAndChildren (fuel : nat) (commentId : string)
    (cnt : Counters) {struct fuel} : M Counters :=
  match fuel with
  | O => fun db => (db, OutOfFuel)
  | S fuel' =>
      comment <- Comment.findByIdAndDelete commentId ;;
      match comment with
      | None => throw "Comment deletion failed"
      | Some comment =>
          let cnt :=
            if truthy (IComment.parent comment)
            then mkCounters (firstLevelCommentsDeletedCount cnt)
                            (repliesDeletedCount cnt + 1)
            else mkCounters (firstLevelCommentsDeletedCount cnt + 1)
                            (repliesDeletedCount cnt) in
          childComments <- Comment.find_children (IComment._id comment) ;;
          for_of_acc childComments
            (fun childComment cnt =>
               deleteCommentAndChildren fuel' (IComment._id childComment) cnt)
            cnt
      end
  end.

(** [router.delete("/replyke-comments")] *)
Definition delete_comments_try (fuel : nat) (comment_id : string)
    : M Response :=
    (if negb (truthy_str comment_id)
     then ret (send 400 (Text "Comment ID is required"))
     else
     targetComment <- Comment.findById comment_id ;;
     match targetComment with
     | None => ret (send 404 (Text "Comment not found"))
     | Some targetComment =>
         cnt <- deleteCommentAndChildren fuel comment_id (mkCounters 0 0) ;;
         (match IComment.parent targetComment with
          | Some p =>
              if truthy_str p
              then _ <- Comment.findByIdAndUpdate p
                          [Inc replies_count (-1)] false ;; ret tt
              else ret tt
          | None => ret tt
          end) ;;;
         article <- Article.findOneAndUpdate
                      (IComment.article_id targetComment)
                      [Inc comments_count (- firstLevelCommentsDeletedCount cnt);
                       Inc replies_count (- repliesDeletedCount cnt)]
                      true ;;
         match article with
         | None => throw "Article not found for updating comment counts"
         | Some article => ret (send 200 (ArticleDoc article))
         end
     end).

Definition delete_comments (fuel : nat) (comment_id : string) : M Response :=
  try_catch (delete_comments_try fuel comment_id) server_error.

(** [router.patch("/replyke-comments")] *)
Definition patch_comments (update comment_id : string) : M Response :=
  try_catch
    (if negb (truthy_str update) || negb (truthy_str comment_id)
     then ret (send 400 (Text "Update content and comment ID are required"))
     else
     updatedComment <- Comment.findByIdAndUpdate comment_id
                         [SetStr body update] true ;;
     match updatedComment with
     | None => ret (send 404 (Text "Comment not found or update failed"))
     | Some updatedComment => ret (send 200 (CommentDoc updatedComment))
     end)
    server_error.

(** [router.post("/replyke-comments/like")] *)
Definition post_comments_like (comment_id user_id : string) : M Response :=
  try_catch
    (if negb (truthy_str comment_id) || negb (truthy_str user_id)
     then ret (send 400 (Text "Comment ID and user ID are required"))
     else
     comment <- Comment.findById comment_id ;;
     match comment with
     | None => ret (send 404 (Text "Comment not found"))
     | Some comment =>
         if includes (IComment.likes comment) user_id
         then ret (send 409 (Text "User has already liked this comment"))
         else
           updatedComment <- Comment.findByIdAndUpdate comment_id
                               [Inc likes_count 1; Push likes user_id] true ;;
           ret (send 200 (comment_or_null updatedComment))
     end)
    server_error.

(** [router.post("/replyke-comments/unlike")] *)
Definition post_comments_unlike (comment_id user_id : string) : M Response :=
  try_catch
    (if negb (truthy_str comment_id) || negb (truthy_str user_id)
     then ret (send 400 (Text "Comment ID and user ID are required"))
     else
     comment <- Comment.findById comment_id ;;
     match comment with
     | None => ret (send 404 (Text "Comment not found"))
     | Some comment =>
         if negb (includes (IComment.likes comment) user_id)
         then ret (send 409 (Text "User hasn't liked this comment"))
         else
           updatedComment <- Comment.findByIdAndUpdate comment_id
                               [Inc likes_count (-1); Pull likes user_id] true ;;
           ret (send 200 (comment_or_null updatedComment))
     end)
    server_error.

(** [router.post("/replyke-articles/like")], second form *)
Definition post_articles_like (env : Env) (article_id user_id : string)
    : M Response :=
  try_catch
    (if negb (truthy_str article_id) || negb (truthy_str user_id)
     then ret (send 400 (Text "Missing article_id or user_id in request body"))
     else
     article <- Article.findOne article_id ;;
     match article with
     | Some article =>
         if includes (IArticle.likes article) user_id
         then ret (send 409 (Text "User already liked article"))
         else
           newArticle <- Article.findOneAndUpdate article_id
                           [Inc likes_count 1; Push likes user_id] true ;;
           ret (send 200 (article_or_null newArticle))
     | None =>
         let newArticle :=
           IArticle.mk (article_oid env) article_id [user_id] 1 0 0 in
         Article.save newArticle ;;;
         ret (send 200 (ArticleDoc newArticle))
     end)
    server_error.

(** [router.post("/replyke-articles/unlike")], second form *)
Definition post_articles_unlike (article_id user_id : string) : M Response :=
  try_catch
    (if negb (truthy_str article_id) || negb (truthy_str user_id)
     then ret (send 400 (Text "Missing article_id or user_id in request body"))
     else
     article <- Article.findOne article_id ;;
     match article with
     | None =>
         ret (send 409
                (Text "Can't unlike, as user didn't like article or article not found"))
     | Some article =>
         if negb (includes (IArticle.likes article) user_id)
         then ret (send 409
                (Text "Can't unlike, as user didn't like article or article not found"))
         else
           updatedArticle <- Article.findOneAndUpdate article_id
                               [Inc likes_count (-1); Pull likes user_id] true ;;
           ret (send 200 (article_or_null updatedArticle))
     end)
    server_error.

End V2.

(** * Properties *)

(** ** The comment forest *)

Definition ids (cs : list IComment.t) : list string := map IComment._id cs.

(** Ids are assigned by the store: no two documents share one and none is
    the empty string. *)
Definition wf_comments (cs : list IComment.t) : Prop :=
  NoDup (ids cs) /\ Forall (fun c => truthy_str (IComment._id c) = true) cs.

(** [descendant cs root i]: [i] is [root] or the id of a comment of [cs]
    that reaches [root] through [parent] links. *)
Inductive descendant (cs : list IComment.t) (root : string) : string -> Prop :=
| desc_root : descendant cs root root
| desc_child c p :
    descendant cs root p ->
    In c cs -> IComment.parent c = Some p ->
    descendant cs root (IComment._id c).

(** how the code tells a reply from a first level comment *)
Definition is_reply (c : IComment.t) : bool := truthy (IComment.parent c).
Definition is_first_level (c : IComment.t) : bool := negb (is_reply c).

Definition count (p : IComment.t -> bool) (l : list IComment.t) : Z :=
  Z.of_nat (List.length (filter p l)).

Definition add_counts (cnt : Counters) (D : list IComment.t) : Counters :=
  mkCounters (firstLevelCommentsDeletedCount cnt + count is_first_level D)
             (repliesDeletedCount cnt + count is_reply D).

Definition article_call (c : StoreCall) : bool :=
  match c with
  | Query ArticlesColl | Insert ArticlesColl
  | Update ArticlesColl | Delete ArticlesColl => true
  | _ => false
  end.

Definition article_calls (db : DB) : list StoreCall :=
  filter article_call (calls db).

Section ListFacts.
Context {A : Type}.
Variable p : A -> bool.

Lemma find_remove_first_perm (l : list A) (x : A) :
  find p l = Some x -> Permutation l (x :: remove_first p l).
Proof.
  induction l as [|y l IH]; simpl; [discriminate|].
  destruct (p y) eqn:E; intros H.
  - injection H as ->. reflexivity.
  - etransitivity; [apply perm_skip, IH, H | apply perm_swap].
Qed.


Lemma find_none_update_first (f : A -> A) (l : list A) :
  find p l = None -> update_first p f l = l.
Proof.
  induction l as [|y l IH]; simpl; [reflexivity|].
  destruct (p y); [discriminate|]. intros H. now rewrite IH.
Qed.


Lemma update_first_map {B} (g : A -> B) (f : A -> A) (l : list A) :
  (forall x, g (f x) = g x) -> map g (update_first p f l) = map g l.
Proof.
  intros Hg. induction l as [|y l IH]; simpl; [reflexivity|].
  destruct (p y); simpl; congruence.
Qed.


Lemma find_update_first (f : A -> A) (l : list A) (x : A) :
  find p l = Some x -> p (f x) = true ->
  find p (update_first p f l) = Some (f x).
Proof.
  induction l as [|y l IH]; simpl; [discriminate|].
  destruct (p y) eqn:E; intros H Hf.
  - injection H as ->. simpl. now rewrite Hf.
  - simpl. rewrite E. auto.
Qed.
End ListFacts.

Lemma ids_filter_NoDup (keep : IComment.t -> bool) (cs : list IComment.t) :
  NoDup (map IComment._id cs) -> NoDup (map IComment._id (filter keep cs)).
Proof.
  induction cs as [|c cs IH]; cbn; intros H; [constructor|].
  apply NoDup_cons_iff in H. destruct H as [Hfresh Hrest].
  destruct (keep c); cbn; auto.
  apply NoDup_cons; auto.
  contradict Hfresh. apply in_map_iff in Hfresh.
  destruct Hfresh as (y & E & Hy). apply filter_In, proj1 in Hy.
  rewrite <- E. now apply in_map.
Qed.

Lemma same_id_same_comment (cs : list IComment.t) (c c' : IComment.t) :
  NoDup (ids cs) -> In c cs -> In c' cs ->
  IComment._id c = IComment._id c' -> c = c'.
Proof.
  unfold ids. induction cs as [|x cs IH]; simpl; [tauto|].
  intros H Hc Hc' E. inversion H as [|? ? Hn Hd]; subst.
  destruct Hc as [->|Hc], Hc' as [->|Hc']; auto.
  - exfalso. apply Hn. rewrite E. now apply in_map.
  - exfalso. apply Hn. rewrite <- E. now apply in_map.
Qed.

Lemma find_by_id (cs : list IComment.t) (id : string) :
  In id (ids cs) ->
  exists n, find (Comment.has_id id) cs = Some n /\ IComment._id n = id /\ In n cs.
Proof.
  unfold ids. induction cs as [|x cs IH]; simpl; [tauto|].
  unfold Comment.has_id at 1.
  destruct (String.eqb_spec (IComment._id x) id) as [E|E].
  - intros _. exists x. auto.
  - intros [H|H]; [contradiction|].
    destruct (IH H) as (n & Hf & Hi & Hin). exists n. auto.
Qed.

Lemma find_by_id_inv (cs : list IComment.t) (id : string) (n : IComment.t) :
  find (Comment.has_id id) cs = Some n -> IComment._id n = id /\ In n cs.
Proof.
  intros H. apply find_some in H. destruct H as [Hin H].
  unfold Comment.has_id in H. apply String.eqb_eq in H. auto.
Qed.

Lemma has_parent_spec (id : string) (c : IComment.t) :
  Comment.has_parent id c = true <-> IComment.parent c = Some id.
Proof.
  unfold Comment.has_parent. destruct (IComment.parent c) as [q|].
  - rewrite String.eqb_eq. split; congruence.
  - split; discriminate.
Qed.

(** *** Facts on [descendant] *)

Lemma descendant_in_store cs root i :
  In root (ids cs) -> descendant cs root i -> In i (ids cs).
Proof.
  intros Hr H. induction H; auto. unfold ids. now apply in_map.
Qed.

Lemma descendant_mono cs cs' root i :
  incl cs cs' -> descendant cs root i -> descendant cs' root i.
Proof.
  intros Hi H. induction H; [constructor|].
  eapply desc_child; eauto.
Qed.

Lemma descendant_trans cs root r i :
  descendant cs root r -> descendant cs r i -> descendant cs root i.
Proof.
  intros Hr H. induction H; auto. eapply desc_child; eauto.
Qed.

Lemma descendant_inv cs root i :
  descendant cs root i ->
  i = root \/
  exists c p, In c cs /\ IComment._id c = i /\ IComment.parent c = Some p
              /\ descendant cs root p.
Proof.
  intros H. destruct H as [|c p Hp Hc Hpar]; [now left|].
  right. exists c, p. auto.
Qed.

Lemma NoDup_app_disjoint {A} (l1 l2 : list A) (a : A) :
  NoDup (l1 ++ l2) -> In a l1 -> In a l2 -> False.
Proof.
  induction l1 as [|x l1 IH]; simpl; [tauto|].
  intros H [->|H1] H2; inversion H; subst.
  - match goal with Hn : ~ In _ _ |- _ => apply Hn end.
    apply in_or_app. now right.
  - eauto.
Qed.

Lemma count_app p (l1 l2 : list IComment.t) :
  count p (l1 ++ l2) = count p l1 + count p l2.
Proof.
  unfold count. rewrite filter_app, length_app. lia.
Qed.

Lemma add_counts_app cnt D1 D2 :
  add_counts (add_counts cnt D1) D2 = add_counts cnt (D1 ++ D2).
Proof.
  unfold add_counts. simpl. rewrite !count_app. f_equal; lia.
Qed.

Lemma count_split (l : list IComment.t) :
  count is_first_level l + count is_reply l = Z.of_nat (List.length l).
Proof.
  unfold count, is_first_level.
  induction l as [|x l IH]; cbn [filter]; [reflexivity|].
  destruct (is_reply x); cbn [negb List.length];
    rewrite !Nat2Z.inj_succ; lia.
Qed.

(** ** The recursive deletion

    The two delete handlers share their recursive function up to the
    message of the exception; [delete_tree] is that function with the
    message as a parameter, and both are instances of it. *)

Section DeleteTree.
Variable msg : string.

Fixpoint delete_tree (fuel : nat) (commentId : string) (cnt : Counters)
    {struct fuel} : M Counters :=
  match fuel with
  | O => fun db => (db, OutOfFuel)
  | S fuel' =>
      comment <- Comment.findByIdAndDelete commentId ;;
      match comment with
      | None => throw msg
      | Some comment =>
          let cnt :=
            if truthy (IComment.parent comment)
            then mkCounters (firstLevelCommentsDeletedCount cnt)
                            (repliesDeletedCount cnt + 1)
            else mkCounters (firstLevelCommentsDeletedCount cnt + 1)
                            (repliesDeletedCount cnt) in
          childComments <- Comment.find_children (IComment._id comment) ;;
          for_of_acc childComments
            (fun childComment cnt =>
               delete_tree fuel' (IComment._id childComment) cnt)
            cnt
      end
  end.

(** What a run that deleted the documents [D] leaves behind. *)
Record removed (db : DB) (D : list IComment.t) (cnt : Counters)
    (db' : DB) (cnt' : Counters) : Prop := {
  rm_perm : Permutation (comments db) (D ++ comments db');
  rm_articles : articles db' = articles db;
  rm_calls : article_calls db' = article_calls db;
  rm_closed : forall c p, In c (comments db') ->
                IComment.parent c = Some p -> ~ In p (ids D);
  rm_counts : cnt' = add_counts cnt D
}.

Definition deletes_subtree (F : string -> Counters -> M Counters)
    (bound : nat) : Prop :=
  forall db id cnt,
    NoDup (ids (comments db)) ->
    In id (ids (comments db)) ->
    (List.length (comments db) <= bound)%nat ->
    exists db' cnt' n D,
      F id cnt db = (db', Ok cnt')
      /\ find (Comment.has_id id) (comments db) = Some n
      /\ removed db (n :: D) cnt db' cnt'
      /\ (forall c, In c D -> descendant (comments db) id (IComment._id c))
      /\ (forall c, In c D -> IComment._id c <> id).

Lemma removed_ids db D cnt db' cnt' :
  removed db D cnt db' cnt' ->
  Permutation (ids (comments db)) (ids D ++ ids (comments db')).
Proof.
  intros H. unfold ids. rewrite <- map_app.
  apply Permutation_map, (rm_perm H).
Qed.

Lemma removed_incl db D cnt db' cnt' :
  removed db D cnt db' cnt' -> incl (comments db') (comments db).
Proof.
  intros H c Hc. eapply Permutation_in; [symmetry; apply (rm_perm H)|].
  apply in_or_app. now right.
Qed.

Lemma children_loop F bound :
  deletes_subtree F bound ->
  forall L db cnt n,
    NoDup (ids (comments db)) ->
    NoDup (ids L) ->
    incl L (comments db) ->
    (forall c, In c L -> IComment.parent c = Some n) ->
    ~ In n (ids (comments db)) ->
    (List.length (comments db) <= bound)%nat ->
    exists db' cnt' D,
      for_of_acc L (fun c cnt => F (IComment._id c) cnt) cnt db = (db', Ok cnt')
      /\ removed db D cnt db' cnt'
      /\ incl L D
      /\ (forall c, In c D ->
            exists r, In r L
              /\ descendant (comments db) (IComment._id r) (IComment._id c)).
Proof.
  intros HF L. induction L as [|c1 L IH]; intros db cnt n Hnd HndL Hin Hpar Hn Hlen.
  - exists db, cnt, []. simpl. split; [reflexivity|]. split; [|split].
    + constructor; simpl; auto.
      unfold add_counts, count. simpl. destruct cnt; simpl. f_equal; lia.
    + intros c [].
    + intros c [].
  - simpl in HndL. inversion HndL as [|? ? Hc1 HndL']; subst.
    assert (Hc1in : In c1 (comments db)) by (apply Hin; now left).
    destruct (HF db (IComment._id c1) cnt Hnd (in_map _ _ _ Hc1in) Hlen)
      as (db1 & cnt1 & n1 & D1 & E1 & Hf1 & R1 & Hd1 & Hne1).
    apply find_by_id_inv in Hf1. destruct Hf1 as [Hid1 Hn1in].
    assert (n1 = c1)
      by exact (@same_id_same_comment (comments db) n1 c1 Hnd Hn1in Hc1in Hid1).
    subst n1.
    pose proof (removed_ids R1) as Pids.
    pose proof (removed_incl R1) as Hincl1.
    assert (Hnd1 : NoDup (ids (comments db1))).
    { eapply NoDup_app_remove_l, Permutation_NoDup; eauto. }
    assert (Hlen1 : (List.length (comments db1) <= bound)%nat).
    { pose proof (Permutation_length (rm_perm R1)) as Hl.
      rewrite length_app in Hl. lia. }
    assert (HL1 : incl L (comments db1)).
    { intros c Hc.
      assert (Hcin : In c (comments db)) by (apply Hin; now right).
      pose proof (Permutation_in _ (rm_perm R1) Hcin) as Hc'.
      apply in_app_or in Hc'. destruct Hc' as [Hc'|Hc']; auto.
      exfalso. destruct Hc' as [->|Hc'].
      - apply Hc1. now apply in_map.
      - pose proof (Hd1 c Hc') as Hdesc.
        apply descendant_inv in Hdesc. destruct Hdesc as [Heq|Hdesc].
        + apply Hc1. rewrite <- Heq. now apply in_map.
        + destruct Hdesc as (c' & p & Hc'in & Hid & Hp & Hdp).
          assert (c' = c)
            by exact (@same_id_same_comment (comments db) c' c Hnd Hc'in Hcin Hid).
          subst c'.
          rewrite (Hpar c (or_intror Hc)) in Hp. injection Hp as <-.
          apply Hn. eapply descendant_in_store; [|exact Hdp].
          now apply in_map. }
    assert (Hn1 : ~ In n (ids (comments db1))).
    { intros Hx. apply Hn. unfold ids in *. rewrite in_map_iff in *.
      destruct Hx as (y & Hy & Hyin). exists y. auto. }
    destruct (IH db1 cnt1 n Hnd1 HndL' HL1
                 (fun c Hc => Hpar c (or_intror Hc)) Hn1 Hlen1)
      as (db2 & cnt2 & D2 & E2 & R2 & HLD2 & Hd2).
    exists db2, cnt2, ((c1 :: D1) ++ D2). split; [|split; [|split]].
    + simpl. unfold bind at 1. rewrite E1. exact E2.
    + constructor.
      * rewrite <- app_assoc. etransitivity; [apply (rm_perm R1)|].
        apply Permutation_app_head, (rm_perm R2).
      * rewrite (rm_articles R2). apply (rm_articles R1).
      * rewrite (rm_calls R2). apply (rm_calls R1).
      * intros c p Hc Hp Hx. unfold ids in Hx. rewrite map_app in Hx.
        apply in_app_or in Hx. destruct Hx as [Hx|Hx].
        -- eapply (rm_closed R1); eauto. apply (removed_incl R2), Hc.
        -- eapply (rm_closed R2); eauto.
      * rewrite (rm_counts R2), (rm_counts R1). apply add_counts_app.
    + intros c [<-|Hc]; [now left|].
      apply in_or_app. right. now apply HLD2.
    + intros c Hc. apply in_app_or in Hc. destruct Hc as [[<-|Hc]|Hc].
      * exists c1. split; [now left|constructor].
      * exists c1. split; [now left|]. now apply Hd1.
      * destruct (Hd2 c Hc) as (r & Hr & Hdr). exists r. split; [now right|].
        eapply descendant_mono; eauto.
Qed.

Lemma add_counts_one cnt (n : IComment.t) :
  (if truthy (IComment.parent n)
   then mkCounters (firstLevelCommentsDeletedCount cnt)
                   (repliesDeletedCount cnt + 1)
   else mkCounters (firstLevelCommentsDeletedCount cnt + 1)
                   (repliesDeletedCount cnt))
  = add_counts cnt [n].
Proof.
  unfold add_counts, count, is_first_level, is_reply. cbn [filter].
  destruct (truthy (IComment.parent n)); simpl; f_equal; lia.
Qed.

(** With fuel for every document of the collection, the recursion
    started at the id of a stored comment ends without an exception. *)
Theorem delete_tree_ok (fuel : nat) :
  deletes_subtree (delete_tree fuel) fuel.
Proof.
  induction fuel as [|fuel IH]; intros db id cnt Hnd Hin Hlen.
  - destruct (comments db); simpl in *; [tauto | lia].
  - destruct (find_by_id _ _ Hin) as (n & Hf & Hid & Hnin).
    pose proof (find_remove_first_perm _ _ Hf) as P0.
    set (cs0 := remove_first (Comment.has_id id) (comments db)) in *.
    set (db0 := log (Query CommentsColl)
                  (log (Delete CommentsColl) (set_comments cs0 db))).
    assert (Hnd' : NoDup (id :: ids cs0)).
    { rewrite <- Hid. change (NoDup (ids (n :: cs0))).
      eapply Permutation_NoDup; [apply Permutation_map, P0 | exact Hnd]. }
    inversion Hnd' as [|? ? Hnot Hnd0]; subst.
    destruct (@children_loop (delete_tree fuel) fuel IH
                (filter (Comment.has_parent (IComment._id n)) cs0)
                db0 (add_counts cnt [n]) (IComment._id n))
      as (db' & cnt' & D & E & R & HLD & Hd); auto.
    + now apply ids_filter_NoDup.
    + intros c Hc. apply filter_In in Hc. apply Hc.
    + intros c Hc. apply filter_In in Hc. now apply has_parent_spec.
    + apply Permutation_length in P0. simpl in *. fold cs0 in P0. lia.
    + exists db', cnt', n, D. split; [|split; [|split; [|split]]].
      * cbn [delete_tree]. unfold bind at 1, Comment.findByIdAndDelete.
        rewrite Hf. unfold bind at 1, Comment.find_children.
        rewrite add_counts_one. exact E.
      * exact Hf.
      * constructor.
        -- etransitivity; [exact P0|]. apply perm_skip, (rm_perm R).
        -- apply (rm_articles R).
        -- rewrite (rm_calls R). unfold article_calls, db0. simpl.
           rewrite !filter_app. simpl. now rewrite !app_nil_r.
        -- intros c p Hc Hp [Hx|Hx].
           ++ subst p.
              assert (HcD : In c D).
              { apply HLD, filter_In. split.
                - apply (removed_incl R), Hc.
                - now apply has_parent_spec. }
              eapply (NoDup_app_disjoint (ids D) (ids (comments db'))).
              ** eapply Permutation_NoDup; [apply (removed_ids R)|exact Hnd0].
              ** apply in_map, HcD.
              ** apply in_map, Hc.
           ++ eapply (rm_closed R); eauto.
        -- rewrite (rm_counts R). apply (add_counts_app cnt [n] D).
      * intros c Hc. destruct (Hd c Hc) as (r & Hr & Hdr).
        apply filter_In in Hr. destruct Hr as [Hrin Hrp].
        apply has_parent_spec in Hrp.
        apply descendant_trans with (r := IComment._id r).
        -- eapply desc_child; [constructor| |exact Hrp].
           eapply Permutation_in; [symmetry; exact P0|]. now right.
        -- eapply descendant_mono; [|exact Hdr].
           intros x Hx. eapply Permutation_in; [symmetry; exact P0|]. now right.
      * intros c Hc Heq. apply Hnot. rewrite <- Heq.
        assert (In c (comments db0)).
        { eapply Permutation_in; [symmetry; apply (rm_perm R)|].
          apply in_or_app. now left. }
        now apply in_map.
Qed.
End DeleteTree.

Lemma V1_delete_tree :
  V1.deleteCommentAndChildren = delete_tree "Comment not found".
Proof. reflexivity. Qed.

Lemma V2_delete_tree :
  V2.deleteCommentAndChildren = delete_tree "Comment deletion failed".
Proof. reflexivity. Qed.

(** ** The delete handlers after their recursion *)

(** the update of the parent's direct-reply counter *)
Definition parent_fixed (target : IComment.t) (cs : list IComment.t)
    : list IComment.t :=
  if truthy (IComment.parent target)
  then match IComment.parent target with
       | Some p => update_first (Comment.has_id p)
                     (apply_ops update_comment [Inc replies_count (-1)]) cs
       | None => cs
       end
  else cs.

(** the combined update of the article *)
Definition counters_update (cnt : Counters) : list UpdateOp :=
  [Inc comments_count (- firstLevelCommentsDeletedCount cnt);
   Inc replies_count (- repliesDeletedCount cnt)].

Definition article_fixed (target : IComment.t) (cnt : Counters)
    (xs : list IArticle.t) : list IArticle.t :=
  update_first (Article.has_article_id (IComment.article_id target))
               (apply_ops update_article (counters_update cnt)) xs.

Definition decremented (cnt : Counters) (a : IArticle.t) : IArticle.t :=
  IArticle.mk (IArticle._id a) (IArticle.article_id a) (IArticle.likes a)
    (IArticle.likes_count a)
    (IArticle.comments_count a - firstLevelCommentsDeletedCount cnt)
    (IArticle.replies_count a - repliesDeletedCount cnt).

Lemma apply_counters_update cnt a :
  apply_ops update_article (counters_update cnt) a = decremented cnt a.
Proof.
  destruct a. unfold decremented. simpl. f_equal; lia.
Qed.

Definition parent_call (target : IComment.t) : list StoreCall :=
  if truthy (IComment.parent target) then [Update CommentsColl] else [].

(** The state a delete handler ends in when its recursion ended in [db1]
    with the counters [cnt]. *)
Definition finished (target : IComment.t) (cnt : Counters) (db1 : DB) : DB :=
  mkDB (parent_fixed target (comments db1))
       (article_fixed target cnt (articles db1))
       (calls db1 ++ parent_call target ++ [Update ArticlesColl]).

Record delete_run (try : M Response) (not_found : string)
    (sent_article : Counters -> IArticle.t -> IArticle.t)
    (db : DB) (cid : string) (target : IComment.t)
    (D : list IComment.t) (cnt : Counters) (db1 : DB) : Prop := {
  dr_removed : removed (log (Query CommentsColl) db) (target :: D)
                 (mkCounters 0 0) db1 cnt;
  dr_desc : forall c, In c D -> descendant (comments db) cid (IComment._id c);
  dr_other : forall c, In c D -> IComment._id c <> cid;
  dr_result :
    try db =
    (finished target cnt db1,
     match find (Article.has_article_id (IComment.article_id target))
                (articles db1) with
     | Some a => Ok (send 200 (ArticleDoc (sent_article cnt a)))
     | None => Throw not_found
     end)
}.

Lemma finished_eq target cnt db1 :
  match IComment.parent target with
  | Some p =>
      if truthy_str p
      then log (Update ArticlesColl)
             (set_articles (article_fixed target cnt (articles db1))
                (log (Update CommentsColl)
                   (set_comments
                      (update_first (Comment.has_id p)
                         (apply_ops update_comment [Inc replies_count (-1)])
                         (comments db1)) db1)))
      else log (Update ArticlesColl)
             (set_articles (article_fixed target cnt (articles db1)) db1)
  | None => log (Update ArticlesColl)
              (set_articles (article_fixed target cnt (articles db1)) db1)
  end = finished target cnt db1.
Proof.
  unfold finished, parent_fixed, parent_call, truthy, log, set_articles,
    set_comments.
  destruct (IComment.parent target) as [p|]; [destruct (truthy_str p)|];
    simpl; rewrite <- ?app_assoc; reflexivity.
Qed.

Lemma V1_delete_run fuel db cid target :
  NoDup (ids (comments db)) ->
  find (Comment.has_id cid) (comments db) = Some target ->
  (List.length (comments db) <= fuel)%nat ->
  exists D cnt db1,
    delete_run (V1.delete_comments_try fuel cid) "No article found"
               decremented db cid target D cnt db1.
Proof.
  intros Hnd Hf Hlen.
  destruct (find_by_id_inv _ _ Hf) as [Hid Hin].
  destruct (@delete_tree_ok "Comment not found" fuel
              (log (Query CommentsColl) db) cid (mkCounters 0 0))
    as (db1 & cnt & n & D & E & Hf' & R & Hd & Hne); auto.
  { now apply in_map_iff; exists target. }
  simpl in Hf'. rewrite Hf in Hf'. injection Hf' as <-.
  exists D, cnt, db1. constructor; auto.
  unfold V1.delete_comments_try. unfold bind at 1, Comment.findById.
  rewrite Hf. unfold bind at 1. rewrite V1_delete_tree, E.
  rewrite <- finished_eq.
  destruct (IComment.parent target) as [p|]; [destruct (truthy_str p)|];
    unfold bind, ret, throw, Comment.findByIdAndUpdate,
      Article.findOneAndUpdate; simpl;
    fold (article_fixed target cnt (articles db1));
    destruct (find _ (articles db1)); simpl; reflexivity.
Qed.

Lemma V2_delete_run fuel db cid target :
  NoDup (ids (comments db)) ->
  truthy_str cid = true ->
  find (Comment.has_id cid) (comments db) = Some target ->
  (List.length (comments db) <= fuel)%nat ->
  exists D cnt db1,
    delete_run (V2.delete_comments_try fuel cid)
               "Article not found for updating comment counts"
               decremented db cid target D cnt db1.
Proof.
  intros Hnd Hcid Hf Hlen.
  destruct (find_by_id_inv _ _ Hf) as [Hid Hin].
  destruct (@delete_tree_ok "Comment deletion failed" fuel
              (log (Query CommentsColl) db) cid (mkCounters 0 0))
    as (db1 & cnt & n & D & E & Hf' & R & Hd & Hne); auto.
  { now apply in_map_iff; exists target. }
  simpl in Hf'. rewrite Hf in Hf'. injection Hf' as <-.
  exists D, cnt, db1. constructor; auto.
  unfold V2.delete_comments_try. rewrite Hcid. cbn [negb].
  unfold bind at 1, Comment.findById.
  rewrite Hf. unfold bind at 1. rewrite V2_delete_tree, E.
  rewrite <- finished_eq.
  destruct (IComment.parent target) as [p|]; [destruct (truthy_str p)|];
    unfold bind, ret, throw, Comment.findByIdAndUpdate,
      Article.findOneAndUpdate; cbn [fst snd option_map log set_comments
        set_articles comments articles calls];
    fold (counters_update cnt);
    fold (article_fixed target cnt (articles db1));
    destruct (find _ (articles db1)); cbn [option_map];
    rewrite ?apply_counters_update; reflexivity.
Qed.

(** *** What is left of the collection *)

(** [cs'] is [cs] without the subtree of [cid]: the ids that stay are
    those outside the subtree, and no document that stays names a removed
    one as its parent. *)
Definition subtree_removed (cs : list IComment.t) (cid : string)
    (cs' : list IComment.t) : Prop :=
  (forall i, In i (ids cs') <-> In i (ids cs) /\ ~ descendant cs cid i)
  /\ (forall c p, In c cs' -> IComment.parent c = Some p ->
        ~ descendant cs cid p).

Definition links (cs : list IComment.t) : list (string * option string) :=
  map (fun c => (IComment._id c, IComment.parent c)) cs.

Lemma links_ids cs : map fst (links cs) = ids cs.
Proof. unfold links, ids. rewrite map_map. reflexivity. Qed.

Lemma links_parent_fixed target cs :
  links (parent_fixed target cs) = links cs.
Proof.
  unfold parent_fixed, links.
  destruct (truthy (IComment.parent target)); [|reflexivity].
  destruct (IComment.parent target); [|reflexivity].
  apply update_first_map. intros []; reflexivity.
Qed.

Lemma removed_covers_subtree db D cnt db' cnt' root :
  removed db D cnt db' cnt' ->
  In root (ids D) ->
  forall i, descendant (comments db) root i -> In i (ids D).
Proof.
  intros R Hroot i H. induction H as [|c p Hp IH Hc Hpar]; auto.
  pose proof (Permutation_in _ (rm_perm R) Hc) as Hc'.
  apply in_app_or in Hc'. destruct Hc' as [Hc'|Hc'].
  - now apply in_map.
  - exfalso. eapply (rm_closed R); eauto.
Qed.

Lemma removed_subtree db cid D cnt db' cnt' target :
  NoDup (ids (comments db)) ->
  IComment._id target = cid ->
  removed db (target :: D) cnt db' cnt' ->
  (forall c, In c D -> descendant (comments db) cid (IComment._id c)) ->
  subtree_removed (comments db) cid (parent_fixed target (comments db')).
Proof.
  intros Hnd Hid R Hd.
  pose proof (removed_ids R) as P.
  assert (Hnd' : NoDup (ids (target :: D) ++ ids (comments db')))
    by (eapply Permutation_NoDup; eauto).
  assert (Hcov : forall i, descendant (comments db) cid i ->
                           In i (ids (target :: D))).
  { apply (removed_covers_subtree R). simpl. now left. }
  assert (HD : forall i, In i (ids (target :: D)) ->
                         descendant (comments db) cid i).
  { intros i Hi. simpl in Hi. destruct Hi as [<-|Hi].
    - rewrite Hid. constructor.
    - unfold ids in Hi. apply in_map_iff in Hi.
      destruct Hi as (c & <- & Hc). now apply Hd. }
  split.
  - intros i. rewrite <- links_ids, links_parent_fixed, links_ids. split.
    + intros Hi. split.
      * eapply Permutation_in; [symmetry; exact P|].
        apply in_or_app. now right.
      * intros Hdesc. eapply NoDup_app_disjoint; eauto.
    + intros [Hi Hn]. pose proof (Permutation_in _ P Hi) as Hi'.
      apply in_app_or in Hi'. destruct Hi' as [Hi'|Hi']; auto.
      exfalso. auto.
  - intros c p Hc Hp Hdesc.
    assert (Hl : In (IComment._id c, IComment.parent c) (links (comments db'))).
    { rewrite <- (links_parent_fixed target). unfold links.
      apply in_map_iff. exists c. auto. }
    unfold links in Hl. apply in_map_iff in Hl.
    destruct Hl as (c0 & Heq & Hc0). injection Heq as Hid0 Hp0.
    eapply (rm_closed R); eauto. congruence.
Qed.

Lemma try_catch_fst {A} (m : M A) h db : fst (try_catch m h db) = fst (m db).
Proof.
  unfold try_catch. destruct (m db) as [db' [a|msg|]]; reflexivity.
Qed.

Lemma try_catch_snd {A} (m : M A) h db :
  snd (try_catch m h db) =
  match snd (m db) with
  | Throw msg => Ok (h msg)
  | r => r
  end.
Proof.
  unfold try_catch. destruct (m db) as [db' [a|msg|]]; reflexivity.
Qed.

Lemma wf_truthy_id cs c :
  wf_comments cs -> In c cs -> truthy_str (IComment._id c) = true.
Proof.
  intros [_ H] Hc. rewrite Forall_forall in H. auto.
Qed.

Lemma count_none p (l : list IComment.t) :
  (forall c, In c l -> p c = false) -> count p l = 0.
Proof.
  intros H. unfold count. induction l as [|x l IH]; [reflexivity|].
  cbn [filter]. rewrite (H x (or_introl eq_refl)).
  apply IH. intros c Hc. apply H. now right.
Qed.

(** Every proper descendant of a stored comment is a reply for the code:
    its [parent] is the id of a stored comment, and such an id is truthy. *)
Lemma descendant_is_reply cs cid c :
  wf_comments cs -> In cid (ids cs) -> In c cs ->
  descendant cs cid (IComment._id c) -> IComment._id c <> cid ->
  is_reply c = true.
Proof.
  intros Hwf Hcid Hc Hd Hne.
  apply descendant_inv in Hd. destruct Hd as [Heq|Hd]; [contradiction|].
  destruct Hd as (c' & p & Hc' & Hid & Hp & Hdp).
  assert (c' = c)
    by exact (@same_id_same_comment cs c' c (proj1 Hwf) Hc' Hc Hid).
  subst c'. unfold is_reply. rewrite Hp. simpl.
  pose proof (descendant_in_store Hcid Hdp) as Hpin.
  unfold ids in Hpin. apply in_map_iff in Hpin.
  destruct Hpin as (x & <- & Hx). eapply wf_truthy_id; eauto.
Qed.

(** The documents a recursion removed, and its two counters. *)
Lemma deleted_docs db cid target D cnt db1 :
  NoDup (ids (comments db)) ->
  find (Comment.has_id cid) (comments db) = Some target ->
  removed db (target :: D) (mkCounters 0 0) db1 cnt ->
  (forall c, In c D -> descendant (comments db) cid (IComment._id c)) ->
  NoDup (target :: D)
  /\ (forall c, In c (target :: D) <->
        In c (comments db) /\ descendant (comments db) cid (IComment._id c))
  /\ cnt = mkCounters (count is_first_level (target :: D))
                      (count is_reply (target :: D)).
Proof.
  intros Hnd Hf Rm Hdesc.
  destruct (find_by_id_inv _ _ Hf) as [Hid Hin].
  pose proof (removed_ids Rm) as P.
  assert (HndD : NoDup (ids (target :: D))).
  { eapply NoDup_app_remove_r, Permutation_NoDup; eauto. }
  assert (HinD : forall c, In c (target :: D) -> In c (comments db)).
  { intros c Hc. eapply Permutation_in; [symmetry; apply (rm_perm Rm)|].
    apply in_or_app. now left. }
  split; [|split].
  - eapply NoDup_map_inv. exact HndD.
  - intros c. split.
    + intros Hc. split; auto. destruct Hc as [<-|Hc].
      * rewrite Hid. constructor.
      * now apply Hdesc.
    + intros [Hc Hd].
      assert (Hi : In (IComment._id c) (ids (target :: D))).
      { eapply (removed_covers_subtree Rm); [|exact Hd]. simpl. now left. }
      unfold ids in Hi. apply in_map_iff in Hi. destruct Hi as (c' & Hid' & Hc').
      assert (c' = c)
        by exact (@same_id_same_comment (comments db) c' c Hnd (HinD _ Hc') Hc Hid').
      now subst c'.
  - rewrite (rm_counts Rm). unfold add_counts. simpl. f_equal; lia.
Qed.

Lemma first_level_only_target db cid target D cnt db1 :
  wf_comments (comments db) ->
  find (Comment.has_id cid) (comments db) = Some target ->
  removed db (target :: D) (mkCounters 0 0) db1 cnt ->
  (forall c, In c D -> descendant (comments db) cid (IComment._id c)) ->
  (forall c, In c D -> IComment._id c <> cid) ->
  forall c, In c D -> is_reply c = true.
Proof.
  intros Hwf Hf R Hdesc Hother c Hc.
  destruct (find_by_id_inv _ _ Hf) as [Hid Hin].
  destruct (deleted_docs (proj1 Hwf) Hf R Hdesc) as (_ & HD & _).
  apply (@descendant_is_reply (comments db) cid); auto.
  - rewrite <- Hid. now apply in_map.
  - apply HD. now right.
Qed.

Lemma first_level_count target D :
  (forall c, In c D -> is_reply c = true) ->
  count is_first_level (target :: D) = (if is_first_level target then 1 else 0)
  /\ count is_reply (target :: D)
     = Z.of_nat (List.length (target :: D))
       - (if is_first_level target then 1 else 0).
Proof.
  intros H.
  assert (E : count is_first_level (target :: D)
              = if is_first_level target then 1 else 0).
  { change (target :: D) with ([target] ++ D). rewrite count_app.
    rewrite (@count_none is_first_level D).
    - unfold count. cbn [filter]. destruct (is_first_level target); reflexivity.
    - intros c Hc. unfold is_first_level. now rewrite (H c Hc). }
  split; [exact E|].
  rewrite <- E. pose proof (count_split (target :: D)). lia.
Qed.

Lemma update_first_ext {A} (p : A -> bool) (f g : A -> A) (l : list A) :
  (forall x, f x = g x) -> update_first p f l = update_first p g l.
Proof.
  intros H. induction l as [|x l IH]; simpl; [reflexivity|].
  destruct (p x); congruence.
Qed.

Lemma article_fixed_decremented target cnt xs :
  article_fixed target cnt xs =
  update_first (Article.has_article_id (IComment.article_id target))
               (decremented cnt) xs.
Proof. apply update_first_ext, apply_counters_update. Qed.

Lemma finished_article_calls target cnt db db1 :
  article_calls db1 = article_calls (log (Query CommentsColl) db) ->
  article_calls (finished target cnt db1)
  = article_calls db ++ [Update ArticlesColl].
Proof.
  intros H. unfold article_calls in *. simpl in *.
  rewrite !filter_app, H, filter_app. simpl.
  unfold parent_call. destruct (truthy (IComment.parent target)); simpl;
    now rewrite !app_nil_r.
Qed.

Lemma delete_run_subtree try nf sa db cid target D cnt db1 :
  NoDup (ids (comments db)) ->
  IComment._id target = cid ->
  delete_run try nf sa db cid target D cnt db1 ->
  subtree_removed (comments db) cid (parent_fixed target (comments db1)).
Proof.
  intros Hnd Hid R.
  exact (@removed_subtree (log (Query CommentsColl) db) cid _ _ _ _ target
           Hnd Hid (dr_removed R) (dr_desc R)).
Qed.

(** ** The claims on deletion *)

(** C1. Deleting an existing comment removes it and all of its transitive
    descendants from the comment collection, and no comment that is left
    has the id of a removed comment as its parent. This holds for both
    delete handlers, whatever happens to the article afterwards. *)
Theorem delete_removes_subtree fuel db cid target :
  wf_comments (comments db) ->
  find (Comment.has_id cid) (comments db) = Some target ->
  (List.length (comments db) <= fuel)%nat ->
  (exists r, snd (V1.delete_comments fuel cid db) = Ok r)
  /\ subtree_removed (comments db) cid
       (comments (fst (V1.delete_comments fuel cid db)))
  /\ (exists r, snd (V2.delete_comments fuel cid db) = Ok r)
  /\ subtree_removed (comments db) cid
       (comments (fst (V2.delete_comments fuel cid db))).
Proof.
  intros Hwf Hf Hlen.
  destruct (find_by_id_inv _ _ Hf) as [Hid Hin].
  pose proof (@wf_truthy_id _ _ Hwf Hin) as Hcid. rewrite Hid in Hcid.
  destruct (@V1_delete_run _ _ _ _ (proj1 Hwf) Hf Hlen) as (D1 & cnt1 & db1 & R1).
  destruct (@V2_delete_run _ _ _ _ (proj1 Hwf) Hcid Hf Hlen) as (D2 & cnt2 & db2 & R2).
  unfold V1.delete_comments, V2.delete_comments.
  rewrite !try_catch_fst, !try_catch_snd, (dr_result R1), (dr_result R2).
  cbn [fst snd finished comments].
  split; [|split; [|split]].
  - destruct (find _ (articles db1)); eauto.
  - exact (delete_run_subtree (proj1 Hwf) Hid R1).
  - destruct (find _ (articles db2)); eauto.
  - exact (delete_run_subtree (proj1 Hwf) Hid R2).
Qed.

(** A sample store: a root comment with two direct replies and one
    grandchild, and a second root comment, all on one article. *)
Definition ann : Author.t := Author.mk "u1" "Ann" None.

Definition sample_comments : list IComment.t :=
  [ IComment.mk "c1" "a1" "root" None [] 0 2 100 ann;
    IComment.mk "c2" "a1" "first reply" (Some "c1") [] 0 1 200 ann;
    IComment.mk "c3" "a1" "second reply" (Some "c1") [] 0 0 300 ann;
    IComment.mk "c4" "a1" "reply to the reply" (Some "c2") ["u7"] 1 0 400 ann;
    IComment.mk "c5" "a1" "another root" None [] 0 0 500 ann ].

Definition sample_db : DB :=
  mkDB sample_comments [IArticle.mk "x1" "a1" ["u7"] 1 2 3] [].

Ltac wf_concrete :=
  split;
  [ repeat constructor; simpl; intuition discriminate
  | repeat constructor ].

Example sample_delete_root_V1 :
  let r := V1.delete_comments 5 "c1" sample_db in
  ids (comments (fst r)) = ["c5"]
  /\ articles (fst r) = [IArticle.mk "x1" "a1" ["u7"] 1 1 0]
  /\ snd r = Ok (send 200 (ArticleDoc (IArticle.mk "x1" "a1" ["u7"] 1 1 0))).
Proof. vm_compute. auto. Qed.

Example sample_delete_reply_V2 :
  let r := V2.delete_comments 5 "c2" sample_db in
  ids (comments (fst r)) = ["c1"; "c3"; "c5"]
  /\ map IComment.replies_count (comments (fst r)) = [1; 0; 0]
  /\ snd r = Ok (send 200 (ArticleDoc (IArticle.mk "x1" "a1" ["u7"] 1 2 1))).
Proof. vm_compute. auto. Qed.

Lemma delete_removes_subtree_witness :
  wf_comments (comments sample_db)
  /\ find (Comment.has_id "c1") (comments sample_db)
     = Some (IComment.mk "c1" "a1" "root" None [] 0 2 100 ann)
  /\ (List.length (comments sample_db) <= 5)%nat
  /\ ((exists r, snd (V1.delete_comments 5 "c1" sample_db) = Ok r)
      /\ subtree_removed (comments sample_db) "c1"
           (comments (fst (V1.delete_comments 5 "c1" sample_db)))
      /\ (exists r, snd (V2.delete_comments 5 "c1" sample_db) = Ok r)
      /\ subtree_removed (comments sample_db) "c1"
           (comments (fst (V2.delete_comments 5 "c1" sample_db)))).
Proof.
  assert (H1 : wf_comments (comments sample_db)) by wf_concrete.
  assert (H2 : find (Comment.has_id "c1") (comments sample_db)
               = Some (IComment.mk "c1" "a1" "root" None [] 0 2 100 ann))
    by reflexivity.
  assert (H3 : (List.length (comments sample_db) <= 5)%nat) by (simpl; lia).
  split; [exact H1|]. split; [exact H2|]. split; [exact H3|].
  exact (@delete_removes_subtree 5 sample_db "c1" _ H1 H2 H3).
Defined.

Lemma find_update_first_other {A} (p q : A -> bool) (f : A -> A) (l : list A) :
  (forall x, p x = true -> q x = false /\ q (f x) = false) ->
  find q (update_first p f l) = find q l.
Proof.
  intros H. induction l as [|x l IH]; simpl; [reflexivity|].
  destruct (p x) eqn:E; simpl.
  - destruct (H x E) as [-> ->]. reflexivity.
  - now rewrite IH.
Qed.

(** The first document that [p] selects is replaced in place, the documents
    before and after it stay as they are. *)
Lemma update_first_split {A} (p : A -> bool) (f : A -> A) (l : list A) (a : A) :
  find p l = Some a ->
  exists pre post,
    l = pre ++ a :: post
    /\ (forall x, In x pre -> p x = false)
    /\ update_first p f l = pre ++ f a :: post.
Proof.
  induction l as [|y l IH]; simpl; [discriminate|].
  destruct (p y) eqn:E; intros H.
  - injection H as ->. exists [], l. repeat split. intros x [].
  - destruct (IH H) as (pre & post & -> & Hpre & Hup).
    exists (y :: pre), post. rewrite Hup. repeat split.
    intros x [<-|Hx]; auto.
Qed.

(** The update that the delete handlers make on the article collection, as
    the store primitive computes it. *)
Lemma delete_article_update fuel db cid target :
  wf_comments (comments db) ->
  find (Comment.has_id cid) (comments db) = Some target ->
  (List.length (comments db) <= fuel)%nat ->
  exists D,
    NoDup D
    /\ (forall c, In c D <->
          In c (comments db) /\ descendant (comments db) cid (IComment._id c))
    /\ let cnt := mkCounters (count is_first_level D) (count is_reply D) in
       let owner := Article.has_article_id (IComment.article_id target) in
       let r1 := V1.delete_comments fuel cid db in
       let r2 := V2.delete_comments fuel cid db in
       articles (fst r1) = update_first owner (decremented cnt) (articles db)
       /\ articles (fst r2) = update_first owner (decremented cnt) (articles db)
       /\ article_calls (fst r1) = article_calls db ++ [Update ArticlesColl]
       /\ article_calls (fst r2) = article_calls db ++ [Update ArticlesColl]
       /\ match find owner (articles db) with
          | Some a =>
              snd r1 = Ok (send 200 (ArticleDoc (decremented cnt a)))
              /\ snd r2 = Ok (send 200 (ArticleDoc (decremented cnt a)))
          | None =>
              snd (V1.delete_comments_try fuel cid db) = Throw "No article found"
              /\ snd r1 = Ok (send 500 (ErrorMessage "No article found"))
              /\ snd (V2.delete_comments_try fuel cid db)
                 = Throw "Article not found for updating comment counts"
              /\ snd r2 = Ok (send 500 (ErrorMessage "Server error"))
          end.
Proof.
  intros Hwf Hf Hlen.
  destruct (find_by_id_inv _ _ Hf) as [Hid Hin].
  pose proof (@wf_truthy_id _ _ Hwf Hin) as Hcid. rewrite Hid in Hcid.
  destruct (@V1_delete_run _ _ _ _ (proj1 Hwf) Hf Hlen) as (D1 & cnt1 & db1 & R1).
  destruct (@V2_delete_run _ _ _ _ (proj1 Hwf) Hcid Hf Hlen) as (D2 & cnt2 & db2 & R2).
  destruct (@deleted_docs (log (Query CommentsColl) db) cid target D1 cnt1 db1
              (proj1 Hwf) Hf (dr_removed R1) (dr_desc R1)) as (N1 & M1 & C1).
  destruct (@deleted_docs (log (Query CommentsColl) db) cid target D2 cnt2 db2
              (proj1 Hwf) Hf (dr_removed R2) (dr_desc R2)) as (N2 & M2 & C2).
  pose proof (@first_level_only_target (log (Query CommentsColl) db) cid target
                D1 cnt1 db1 Hwf Hf (dr_removed R1) (dr_desc R1) (dr_other R1)) as F1.
  pose proof (@first_level_only_target (log (Query CommentsColl) db) cid target
                D2 cnt2 db2 Hwf Hf (dr_removed R2) (dr_desc R2) (dr_other R2)) as F2.
  assert (E : cnt2 = cnt1).
  { rewrite C1, C2.
    destruct (@first_level_count target D1 F1) as [-> ->].
    destruct (@first_level_count target D2 F2) as [-> ->].
    assert (P : Permutation (target :: D1) (target :: D2)).
    { apply NoDup_Permutation; auto. intros c. rewrite M1, M2. tauto. }
    apply Permutation_length in P. now rewrite P. }
  clear C2. subst cnt2.
  exists (target :: D1). split; [exact N1|]. split; [exact M1|].
  rewrite <- C1. cbv zeta.
  unfold V1.delete_comments, V2.delete_comments.
  rewrite !try_catch_fst, !try_catch_snd, (dr_result R1), (dr_result R2).
  cbn [fst snd finished articles].
  rewrite (rm_articles (dr_removed R1)), (rm_articles (dr_removed R2)).
  cbn [articles log].
  rewrite !article_fixed_decremented.
  rewrite (@finished_article_calls _ _ _ _ (rm_calls (dr_removed R1))).
  rewrite (@finished_article_calls _ _ _ _ (rm_calls (dr_removed R2))).
  repeat (split; [reflexivity|]).
  destruct (find _ (articles db)); repeat split; reflexivity.
Qed.

(** what a delete does to the article collection [xs] when the article of
    the deleted comment is [a]: [a] is the first document with its
    [article_id], that document is stored again with the two counters
    lowered by [cnt], and every other document is in its place, unchanged *)
Record article_lowered (aid : string) (cnt : Counters) (a : IArticle.t)
    (xs xs' : list IArticle.t) : Prop := {
  al_split : exists pre post,
      xs = pre ++ a :: post
      /\ (forall x, In x pre -> Article.has_article_id aid x = false)
      /\ xs' = pre ++ IArticle.mk (IArticle._id a) (IArticle.article_id a)
                        (IArticle.likes a) (IArticle.likes_count a)
                        (IArticle.comments_count a
                         - firstLevelCommentsDeletedCount cnt)
                        (IArticle.replies_count a - repliesDeletedCount cnt)
                      :: post;
  al_found :
    find (Article.has_article_id aid) xs'
    = Some (IArticle.mk (IArticle._id a) (IArticle.article_id a)
              (IArticle.likes a) (IArticle.likes_count a)
              (IArticle.comments_count a - firstLevelCommentsDeletedCount cnt)
              (IArticle.replies_count a - repliesDeletedCount cnt));
  al_others : forall other, other <> aid ->
    find (Article.has_article_id other) xs'
    = find (Article.has_article_id other) xs
}.

Lemma article_lowered_by_update aid cnt a xs :
  find (Article.has_article_id aid) xs = Some a ->
  article_lowered aid cnt a xs
    (update_first (Article.has_article_id aid) (decremented cnt) xs).
Proof.
  intros Hf. pose proof (proj2 (find_some _ _ Hf)) as Hp.
  constructor.
  - exact (update_first_split _ (decremented cnt) _ Hf).
  - fold (decremented cnt a). apply find_update_first; [exact Hf|].
    destruct a; exact Hp.
  - intros other Hne. apply find_update_first_other.
    intros x Hx. unfold Article.has_article_id in *.
    apply String.eqb_eq in Hx.
    assert (E : (IArticle.article_id x =? other)%string = false)
      by (apply String.eqb_neq; congruence).
    destruct x; auto.
Qed.

(** C2. When an existing comment is deleted and the article of that comment
    exists, one update of the article takes the number of deleted first
    level comments off [comments_count] and the number of deleted replies,
    counted over the whole subtree, off [replies_count]: the stored article
    is found with the lowered counters, every other article is unchanged,
    and the answer is that article. When the article is missing the article
    collection is left as it was and the handler throws its
    article-not-found error (the comments are gone all the same). [D] is the
    list of the deleted documents. *)
Theorem delete_decrements_article fuel db cid target :
  wf_comments (comments db) ->
  find (Comment.has_id cid) (comments db) = Some target ->
  (List.length (comments db) <= fuel)%nat ->
  exists D,
    NoDup D
    /\ (forall c, In c D <->
          In c (comments db) /\ descendant (comments db) cid (IComment._id c))
    /\ let cnt := mkCounters (count is_first_level D) (count is_reply D) in
       let aid := IComment.article_id target in
       let r1 := V1.delete_comments fuel cid db in
       let r2 := V2.delete_comments fuel cid db in
       article_calls (fst r1) = article_calls db ++ [Update ArticlesColl]
       /\ article_calls (fst r2) = article_calls db ++ [Update ArticlesColl]
       /\ match find (Article.has_article_id aid) (articles db) with
          | Some a =>
              article_lowered aid cnt a (articles db) (articles (fst r1))
              /\ article_lowered aid cnt a (articles db) (articles (fst r2))
              /\ snd r1 = Ok (send 200 (ArticleDoc (decremented cnt a)))
              /\ snd r2 = Ok (send 200 (ArticleDoc (decremented cnt a)))
          | None =>
              articles (fst r1) = articles db
              /\ articles (fst r2) = articles db
              /\ snd (V1.delete_comments_try fuel cid db) = Throw "No article found"
              /\ snd r1 = Ok (send 500 (ErrorMessage "No article found"))
              /\ snd (V2.delete_comments_try fuel cid db)
                 = Throw "Article not found for updating comment counts"
              /\ snd r2 = Ok (send 500 (ErrorMessage "Server error"))
          end.
Proof.
  intros Hwf Hf Hlen.
  destruct (@delete_article_update fuel db cid target Hwf Hf Hlen)
    as (D & N & HD & A1 & A2 & K1 & K2 & R).
  exists D. split; [exact N|]. split; [exact HD|].
  cbv zeta in *. split; [exact K1|]. split; [exact K2|].
  destruct (find (Article.has_article_id (IComment.article_id target))
                 (articles db)) as [a|] eqn:Ha.
  - destruct R as [S1 S2]. rewrite A1, A2.
    split; [now apply article_lowered_by_update|].
    split; [now apply article_lowered_by_update|].
    split; assumption.
  - rewrite A1, A2, find_none_update_first by exact Ha.
    split; [reflexivity|]. split; [reflexivity|]. exact R.
Qed.

Lemma delete_decrements_article_witness :
  wf_comments (comments sample_db)
  /\ find (Comment.has_id "c1") (comments sample_db)
     = Some (IComment.mk "c1" "a1" "root" None [] 0 2 100 ann)
  /\ (List.length (comments sample_db) <= 5)%nat
  /\ exists D,
       NoDup D
       /\ (forall c, In c D <->
             In c (comments sample_db)
             /\ descendant (comments sample_db) "c1" (IComment._id c))
       /\ article_lowered "a1"
            (mkCounters (count is_first_level D) (count is_reply D))
            (IArticle.mk "x1" "a1" ["u7"] 1 2 3)
            (articles sample_db)
            (articles (fst (V1.delete_comments 5 "c1" sample_db))).
Proof.
  assert (H1 : wf_comments (comments sample_db)) by wf_concrete.
  assert (H2 : find (Comment.has_id "c1") (comments sample_db)
               = Some (IComment.mk "c1" "a1" "root" None [] 0 2 100 ann))
    by reflexivity.
  assert (H3 : (List.length (comments sample_db) <= 5)%nat) by (simpl; lia).
  split; [exact H1|]. split; [exact H2|]. split; [exact H3|].
  destruct (@delete_decrements_article 5 sample_db "c1" _ H1 H2 H3)
    as (D & N & HD & _ & _ & Hr).
  exists D. split; [exact N|]. split; [exact HD|]. exact (proj1 Hr).
Defined.

(** The delete of the root [c1] of the sample store removes one first level
    comment and three replies: the article is stored with the counters 1
    and 0 where they were 2 and 3. *)
Example sample_article_after_delete :
  find (Article.has_article_id "a1")
       (articles (fst (V1.delete_comments 5 "c1" sample_db)))
  = Some (IArticle.mk "x1" "a1" ["u7"] 1 1 0)
  /\ find (Article.has_article_id "a1")
          (articles (fst (V2.delete_comments 5 "c1" sample_db)))
     = Some (IArticle.mk "x1" "a1" ["u7"] 1 1 0).
Proof. split; vm_compute; reflexivity. Qed.

Lemma for_of_acc_agree {A B} (f g : A -> B -> M B) (L : list A) :
  (forall x b db db' b', f x b db = (db', Ok b') -> g x b db = (db', Ok b')) ->
  forall b db db' b',
    for_of_acc L f b db = (db', Ok b') -> for_of_acc L g b db = (db', Ok b').
Proof.
  intros H. induction L as [|x L IH]; intros b db db' b'; simpl; auto.
  unfold bind.
  destruct (f x b db) as [dbx [bx|m|]] eqn:E; try discriminate.
  rewrite (H _ _ _ _ _ E). apply IH.
Qed.

(** The message of the exception plays no part in a run that ends well. *)
Lemma delete_tree_message m m' fuel :
  forall cid cnt db db' cnt',
    delete_tree m fuel cid cnt db = (db', Ok cnt') ->
    delete_tree m' fuel cid cnt db = (db', Ok cnt').
Proof.
  induction fuel as [|fuel IH]; intros cid cnt db db' cnt'; [discriminate|].
  cbn [delete_tree]. unfold bind at 1 3.
  destruct (Comment.findByIdAndDelete cid db) as [db0 [[c|]| |]];
    try discriminate.
  unfold bind.
  destruct (Comment.find_children (IComment._id c) db0) as [db1 [L| |]];
    try discriminate.
  apply for_of_acc_agree. intros x b dbx dbx' b'. apply IH.
Qed.

(** C10. In a run of the recursion of a delete handler on an existing
    comment, the only deleted document that can count as a first level
    comment is the target: [firstLevelCommentsDeletedCount] ends at 1 when
    the target has no parent (for the code: [comment.parent] is falsy) and
    at 0 otherwise, and [repliesDeletedCount] ends at the number of deleted
    documents minus that, every other deleted document having a parent.
    [D] is the list of the deleted documents. *)
Theorem first_level_counter fuel db cid target :
  wf_comments (comments db) ->
  find (Comment.has_id cid) (comments db) = Some target ->
  (List.length (comments db) <= fuel)%nat ->
  exists D cnt db',
    V1.deleteCommentAndChildren fuel cid (mkCounters 0 0) db = (db', Ok cnt)
    /\ V2.deleteCommentAndChildren fuel cid (mkCounters 0 0) db = (db', Ok cnt)
    /\ NoDup D
    /\ (forall c, In c D <->
          In c (comments db) /\ descendant (comments db) cid (IComment._id c))
    /\ (forall c, In c D -> is_first_level c = true -> c = target)
    /\ (forall c, In c D -> c <> target -> is_reply c = true)
    /\ firstLevelCommentsDeletedCount cnt
       = (if is_first_level target then 1 else 0)
    /\ repliesDeletedCount cnt
       = Z.of_nat (List.length D) - firstLevelCommentsDeletedCount cnt.
Proof.
  intros Hwf Hf Hlen.
  destruct (find_by_id_inv _ _ Hf) as [Hid Hin].
  assert (Hcid : In cid (ids (comments db)))
    by (rewrite <- Hid; now apply in_map).
  destruct (@delete_tree_ok "Comment not found" fuel db cid (mkCounters 0 0)
              (proj1 Hwf) Hcid Hlen)
    as (db1 & cnt1 & n1 & D1 & E1 & Hf1 & R1 & Hd1 & Hne1).
  rewrite Hf in Hf1. injection Hf1 as <-.
  destruct (deleted_docs (proj1 Hwf) Hf R1 Hd1) as (N1 & M1 & C1).
  pose proof (first_level_only_target Hwf Hf R1 Hd1 Hne1) as F1.
  destruct (@first_level_count target D1 F1) as [Efl Erp].
  exists (target :: D1), cnt1, db1.
  split; [rewrite V1_delete_tree; exact E1|].
  split.
  { rewrite V2_delete_tree.
    exact (@delete_tree_message _ "Comment deletion failed" _ _ _ _ _ _ E1). }
  split; [exact N1|]. split; [exact M1|].
  split; [|split; [|split]].
  - intros c [<-|Hc] Hfl; [reflexivity|].
    unfold is_first_level in Hfl. rewrite (F1 c Hc) in Hfl. discriminate.
  - intros c [<-|Hc] Hne; [contradiction|]. now apply F1.
  - rewrite C1. exact Efl.
  - rewrite C1. cbn [repliesDeletedCount firstLevelCommentsDeletedCount].
    rewrite Erp, Efl. reflexivity.
Qed.

Lemma first_level_counter_witness :
  wf_comments (comments sample_db)
  /\ find (Comment.has_id "c2") (comments sample_db)
     = Some (IComment.mk "c2" "a1" "first reply" (Some "c1") [] 0 1 200 ann)
  /\ (List.length (comments sample_db) <= 5)%nat
  /\ exists cnt db',
       V1.deleteCommentAndChildren 5 "c2" (mkCounters 0 0) sample_db
       = (db', Ok cnt)
       /\ firstLevelCommentsDeletedCount cnt = 0.
Proof.
  assert (H1 : wf_comments (comments sample_db)) by wf_concrete.
  assert (H2 : find (Comment.has_id "c2") (comments sample_db)
               = Some (IComment.mk "c2" "a1" "first reply" (Some "c1")
                         [] 0 1 200 ann))
    by reflexivity.
  assert (H3 : (List.length (comments sample_db) <= 5)%nat) by (simpl; lia).
  split; [exact H1|]. split; [exact H2|]. split; [exact H3|].
  destruct (@first_level_counter 5 sample_db "c2" _ H1 H2 H3)
    as (D & cnt & db' & E1 & _ & _ & _ & _ & _ & Hfl & _).
  exists cnt, db'. split; [exact E1|exact Hfl].
Defined.

Example sample_counters :
  snd (V1.deleteCommentAndChildren 5 "c1" (mkCounters 0 0) sample_db)
  = Ok (mkCounters 1 3).
Proof. reflexivity. Qed.

(** ** Likes *)

Definition liked (u : string) : IComment.t -> IComment.t :=
  apply_ops update_comment [Inc likes_count 1; Push likes u].

Definition unliked (u : string) : IComment.t -> IComment.t :=
  apply_ops update_comment [Inc likes_count (-1); Pull likes u].

Definition liked_article (u : string) : IArticle.t -> IArticle.t :=
  apply_ops update_article [Inc likes_count 1; Push likes u].

Definition unliked_article (u : string) : IArticle.t -> IArticle.t :=
  apply_ops update_article [Inc likes_count (-1); Pull likes u].

Lemma includes_last l u : includes (l ++ [u]) u = true.
Proof.
  unfold includes. rewrite existsb_app. simpl.
  rewrite String.eqb_refl. now rewrite orb_true_r.
Qed.

Lemma includes_single u : includes [u] u = true.
Proof. exact (includes_last [] u). Qed.

Lemma pull_absent l u : includes l u = false -> pull u l = l.
Proof.
  unfold includes, pull. induction l as [|x l IH]; simpl; [reflexivity|].
  intros H. apply orb_false_iff in H. destruct H as [Hx Hl].
  rewrite String.eqb_sym in Hx. rewrite Hx. simpl. now rewrite IH.
Qed.

Lemma pull_last l u : includes l u = false -> pull u (l ++ [u]) = l.
Proof.
  intros H. unfold pull. rewrite filter_app. simpl.
  rewrite String.eqb_refl. simpl. rewrite app_nil_r. now apply pull_absent.
Qed.

Lemma liked_fields u c :
  liked u c =
  IComment.mk (IComment._id c) (IComment.article_id c) (IComment.body c)
    (IComment.parent c) (IComment.likes c ++ [u]) (IComment.likes_count c + 1)
    (IComment.replies_count c) (IComment.created_at c) (IComment.author c).
Proof. destruct c; reflexivity. Qed.

Lemma unliked_fields u c :
  unliked u c =
  IComment.mk (IComment._id c) (IComment.article_id c) (IComment.body c)
    (IComment.parent c) (pull u (IComment.likes c)) (IComment.likes_count c - 1)
    (IComment.replies_count c) (IComment.created_at c) (IComment.author c).
Proof. destruct c; reflexivity. Qed.

Lemma liked_article_fields u a :
  liked_article u a =
  IArticle.mk (IArticle._id a) (IArticle.article_id a) (IArticle.likes a ++ [u])
    (IArticle.likes_count a + 1) (IArticle.comments_count a)
    (IArticle.replies_count a).
Proof. destruct a; reflexivity. Qed.

Lemma unliked_article_fields u a :
  unliked_article u a =
  IArticle.mk (IArticle._id a) (IArticle.article_id a) (pull u (IArticle.likes a))
    (IArticle.likes_count a - 1) (IArticle.comments_count a)
    (IArticle.replies_count a).
Proof. destruct a; reflexivity. Qed.

Lemma unliked_liked u c :
  includes (IComment.likes c) u = false -> unliked u (liked u c) = c.
Proof.
  intros H. rewrite unliked_fields, liked_fields. destruct c; simpl in *.
  rewrite (pull_last _ _ H). f_equal. lia.
Qed.

Lemma unliked_liked_article u a :
  includes (IArticle.likes a) u = false ->
  unliked_article u (liked_article u a) = a.
Proof.
  intros H. rewrite unliked_article_fields, liked_article_fields.
  destruct a; simpl in *. rewrite (pull_last _ _ H). f_equal. lia.
Qed.

Lemma update_first_back {A} (p : A -> bool) (f g : A -> A) (l : list A) (x : A) :
  find p l = Some x -> g (f x) = x -> p (f x) = true ->
  update_first p g (update_first p f l) = l.
Proof.
  induction l as [|y l IH]; simpl; [discriminate|].
  destruct (p y) eqn:E; intros H Hg Hp.
  - injection H as ->. simpl. rewrite Hp. now rewrite Hg.
  - simpl. rewrite E. f_equal. auto.
Qed.

Lemma find_app_new {A} (p : A -> bool) (l : list A) (x : A) :
  find p l = None -> find p (l ++ [x]) = if p x then Some x else None.
Proof.
  induction l as [|y l IH]; simpl; [reflexivity|].
  destruct (p y); [discriminate|auto].
Qed.

(** *** What each like and unlike handler does *)

Lemma V1_comment_like cid uid db :
  V1.post_comments_like cid uid db =
  match find (Comment.has_id cid) (comments db) with
  | None => (log (Query CommentsColl) db,
             Ok (send 404 (Text "Comment not found")))
  | Some c =>
      if includes (IComment.likes c) uid
      then (log (Query CommentsColl) db,
            Ok (send 406 (Text "Can't like - user already liked comment")))
      else (log (Update CommentsColl)
              (set_comments
                 (update_first (Comment.has_id cid) (liked uid) (comments db))
                 (log (Query CommentsColl) db)),
            Ok (send 200 (CommentDoc (liked uid c))))
  end.
Proof.
  unfold V1.post_comments_like, try_catch, bind, Comment.findById,
    Comment.findByIdAndUpdate, ret. cbn [fst snd comments log].
  destruct (find _ (comments db)) as [c|]; [|reflexivity].
  destruct (includes _ uid); [reflexivity|].
  rewrite liked_fields. reflexivity.
Qed.

Lemma V2_comment_like cid uid db :
  truthy_str cid = true -> truthy_str uid = true ->
  V2.post_comments_like cid uid db =
  match find (Comment.has_id cid) (comments db) with
  | None => (log (Query CommentsColl) db,
             Ok (send 404 (Text "Comment not found")))
  | Some c =>
      if includes (IComment.likes c) uid
      then (log (Query CommentsColl) db,
            Ok (send 409 (Text "User has already liked this comment")))
      else (log (Update CommentsColl)
              (set_comments
                 (update_first (Comment.has_id cid) (liked uid) (comments db))
                 (log (Query CommentsColl) db)),
            Ok (send 200 (CommentDoc (liked uid c))))
  end.
Proof.
  intros H1 H2.
  unfold V2.post_comments_like, try_catch, bind, Comment.findById,
    Comment.findByIdAndUpdate, ret. rewrite H1, H2.
  cbn [fst snd negb orb comments log].
  destruct (find _ (comments db)) as [c|] eqn:E; [|reflexivity].
  destruct (includes _ uid); [reflexivity|].
  cbn [comments log]. rewrite E. reflexivity.
Qed.

Lemma V2_comment_like_guard cid uid db :
  truthy_str cid && truthy_str uid = false ->
  V2.post_comments_like cid uid db =
  (db, Ok (send 400 (Text "Comment ID and user ID are required"))).
Proof.
  intros H. unfold V2.post_comments_like, try_catch, ret.
  destruct (truthy_str cid), (truthy_str uid); try discriminate; reflexivity.
Qed.

Lemma V1_comment_unlike cid uid db :
  V1.post_comments_unlike cid uid db =
  match find (Comment.has_id cid) (comments db) with
  | None => (log (Query CommentsColl) db,
             Ok (send 404 (Text "Comment not found")))
  | Some c =>
      if includes (IComment.likes c) uid
      then (log (Update CommentsColl)
              (set_comments
                 (update_first (Comment.has_id cid) (unliked uid) (comments db))
                 (log (Query CommentsColl) db)),
            Ok (send 200 (CommentDoc (unliked uid c))))
      else (log (Query CommentsColl) db,
            Ok (send 406 (Text "Can't unlike, as user didn't like comment")))
  end.
Proof.
  unfold V1.post_comments_unlike, try_catch, bind, Comment.findById,
    Comment.findByIdAndUpdate, ret. cbn [fst snd comments log].
  destruct (find _ (comments db)) as [c|]; [|reflexivity].
  destruct (includes _ uid); [|reflexivity]. cbn [negb].
  rewrite unliked_fields. reflexivity.
Qed.

Lemma V2_comment_unlike cid uid db :
  truthy_str cid = true -> truthy_str uid = true ->
  V2.post_comments_unlike cid uid db =
  match find (Comment.has_id cid) (comments db) with
  | None => (log (Query CommentsColl) db,
             Ok (send 404 (Text "Comment not found")))
  | Some c =>
      if includes (IComment.likes c) uid
      then (log (Update CommentsColl)
              (set_comments
                 (update_first (Comment.has_id cid) (unliked uid) (comments db))
                 (log (Query CommentsColl) db)),
            Ok (send 200 (CommentDoc (unliked uid c))))
      else (log (Query CommentsColl) db,
            Ok (send 409 (Text "User hasn't liked this comment")))
  end.
Proof.
  intros H1 H2.
  unfold V2.post_comments_unlike, try_catch, bind, Comment.findById,
    Comment.findByIdAndUpdate, ret. rewrite H1, H2.
  cbn [fst snd negb orb comments log].
  destruct (find _ (comments db)) as [c|] eqn:E; [|reflexivity].
  destruct (includes _ uid); cbn [negb]; [|reflexivity].
  cbn [comments log]. rewrite E. reflexivity.
Qed.

Lemma V2_comment_unlike_guard cid uid db :
  truthy_str cid && truthy_str uid = false ->
  V2.post_comments_unlike cid uid db =
  (db, Ok (send 400 (Text "Comment ID and user ID are required"))).
Proof.
  intros H. unfold V2.post_comments_unlike, try_catch, ret.
  destruct (truthy_str cid), (truthy_str uid); try discriminate; reflexivity.
Qed.

Definition first_like (env : Env) (aid uid : string) : IArticle.t :=
  IArticle.mk (article_oid env) aid [uid] 1 0 0.

Lemma V1_article_like env aid uid db :
  V1.post_articles_like env aid uid db =
  match find (Article.has_article_id aid) (articles db) with
  | Some a =>
      if includes (IArticle.likes a) uid
      then (log (Query ArticlesColl) db,
            Ok (send 406 (Text "User already liked article")))
      else (log (Update ArticlesColl)
              (set_articles
                 (update_first (Article.has_article_id aid)
                               (liked_article uid) (articles db))
                 (log (Query ArticlesColl) db)),
            Ok (send 200 (ArticleDoc (liked_article uid a))))
  | None =>
      (log (Insert ArticlesColl)
         (set_articles (articles db ++ [first_like env aid uid])
                       (log (Query ArticlesColl) db)),
       Ok (send 200 (ArticleDoc (first_like env aid uid))))
  end.
Proof.
  unfold V1.post_articles_like, try_catch, bind, Article.findOne,
    Article.findOneAndUpdate, Article.save, ret.
  cbn [fst snd articles log].
  destruct (find _ (articles db)) as [a|]; [|reflexivity].
  destruct (includes _ uid); [reflexivity|].
  rewrite liked_article_fields. reflexivity.
Qed.

Lemma V2_article_like env aid uid db :
  truthy_str aid = true -> truthy_str uid = true ->
  V2.post_articles_like env aid uid db =
  match find (Article.has_article_id aid) (articles db) with
  | Some a =>
      if includes (IArticle.likes a) uid
      then (log (Query ArticlesColl) db,
            Ok (send 409 (Text "User already liked article")))
      else (log (Update ArticlesColl)
              (set_articles
                 (update_first (Article.has_article_id aid)
                               (liked_article uid) (articles db))
                 (log (Query ArticlesColl) db)),
            Ok (send 200 (ArticleDoc (liked_article uid a))))
  | None =>
      (log (Insert ArticlesColl)
         (set_articles (articles db ++ [first_like env aid uid])
                       (log (Query ArticlesColl) db)),
       Ok (send 200 (ArticleDoc (first_like env aid uid))))
  end.
Proof.
  intros H1 H2.
  unfold V2.post_articles_like, try_catch, bind, Article.findOne,
    Article.findOneAndUpdate, Article.save, ret. rewrite H1, H2.
  cbn [fst snd negb orb articles log].
  destruct (find _ (articles db)) as [a|] eqn:E; [|reflexivity].
  destruct (includes _ uid); [reflexivity|].
  cbn [articles log]. rewrite E. reflexivity.
Qed.

Lemma V2_article_like_guard env aid uid db :
  truthy_str aid && truthy_str uid = false ->
  V2.post_articles_like env aid uid db =
  (db, Ok (send 400 (Text "Missing article_id or user_id in request body"))).
Proof.
  intros H. unfold V2.post_articles_like, try_catch, ret.
  destruct (truthy_str aid), (truthy_str uid); try discriminate; reflexivity.
Qed.

Lemma V1_article_unlike aid uid db :
  V1.post_articles_unlike aid uid db =
  match find (Article.has_article_id aid) (articles db) with
  | None => (log (Query ArticlesColl) db,
             Ok (send 404 (Text "Article not found")))
  | Some a =>
      if includes (IArticle.likes a) uid
      then (log (Update ArticlesColl)
              (set_articles
                 (update_first (Article.has_article_id aid)
                               (unliked_article uid) (articles db))
                 (log (Query ArticlesColl) db)),
            Ok (send 200 (ArticleDoc (unliked_article uid a))))
      else (log (Query ArticlesColl) db,
            Ok (send 406 (Text "Can't unlike, as user didn't like article")))
  end.
Proof.
  unfold V1.post_articles_unlike, try_catch, bind, Article.findOne,
    Article.findOneAndUpdate, ret. cbn [fst snd articles log].
  destruct (find _ (articles db)) as [a|]; [|reflexivity].
  destruct (includes _ uid); [|reflexivity]. cbn [negb].
  rewrite unliked_article_fields. reflexivity.
Qed.

Lemma V2_article_unlike aid uid db :
  truthy_str aid = true -> truthy_str uid = true ->
  V2.post_articles_unlike aid uid db =
  match find (Article.has_article_id aid) (articles db) with
  | None =>
      (log (Query ArticlesColl) db,
       Ok (send 409
             (Text "Can't unlike, as user didn't like article or article not found")))
  | Some a =>
      if includes (IArticle.likes a) uid
      then (log (Update ArticlesColl)
              (set_articles
                 (update_first (Article.has_article_id aid)
                               (unliked_article uid) (articles db))
                 (log (Query ArticlesColl) db)),
            Ok (send 200 (ArticleDoc (unliked_article uid a))))
      else
        (log (Query ArticlesColl) db,
         Ok (send 409
               (Text "Can't unlike, as user didn't like article or article not found")))
  end.
Proof.
  intros H1 H2.
  unfold V2.post_articles_unlike, try_catch, bind, Article.findOne,
    Article.findOneAndUpdate, ret. rewrite H1, H2.
  cbn [fst snd negb orb articles log].
  destruct (find _ (articles db)) as [a|] eqn:E; [|reflexivity].
  destruct (includes _ uid); cbn [negb]; [|reflexivity].
  cbn [articles log]. rewrite E. reflexivity.
Qed.

Lemma V2_article_unlike_guard aid uid db :
  truthy_str aid && truthy_str uid = false ->
  V2.post_articles_unlike aid uid db =
  (db, Ok (send 400 (Text "Missing article_id or user_id in request body"))).
Proof.
  intros H. unfold V2.post_articles_unlike, try_catch, ret.
  destruct (truthy_str aid), (truthy_str uid); try discriminate; reflexivity.
Qed.

Lemma has_id_liked cid u c :
  Comment.has_id cid c = true -> Comment.has_id cid (liked u c) = true.
Proof. destruct c; auto. Qed.

Lemma has_article_id_liked aid u a :
  Article.has_article_id aid a = true ->
  Article.has_article_id aid (liked_article u a) = true.
Proof. destruct a; auto. Qed.

Lemma likes_liked u c : IComment.likes (liked u c) = IComment.likes c ++ [u].
Proof. destruct c; reflexivity. Qed.

Lemma likes_liked_article u a :
  IArticle.likes (liked_article u a) = IArticle.likes a ++ [u].
Proof. destruct a; reflexivity. Qed.

Lemma find_liked cid u cs c :
  find (Comment.has_id cid) cs = Some c ->
  find (Comment.has_id cid) (update_first (Comment.has_id cid) (liked u) cs)
  = Some (liked u c).
Proof.
  intros H. apply find_update_first; auto.
  apply has_id_liked. now apply find_some in H.
Qed.

Lemma find_liked_article aid u xs a :
  find (Article.has_article_id aid) xs = Some a ->
  find (Article.has_article_id aid)
       (update_first (Article.has_article_id aid) (liked_article u) xs)
  = Some (liked_article u a).
Proof.
  intros H. apply find_update_first; auto.
  apply has_article_id_liked. now apply find_some in H.
Qed.

Lemma find_first_like env aid uid xs :
  find (Article.has_article_id aid) xs = None ->
  find (Article.has_article_id aid) (xs ++ [first_like env aid uid])
  = Some (first_like env aid uid).
Proof.
  intros H. rewrite (find_app_new _ _ _ H).
  unfold Article.has_article_id. simpl. now rewrite String.eqb_refl.
Qed.

Definition status_is (r : res Response) (n : nat) : Prop :=
  exists b, r = Ok (send n b).

(** the documents of both collections are the same in [db] and [db'] *)
Definition unchanged (db db' : DB) : Prop :=
  comments db' = comments db /\ articles db' = articles db.

(** running [like] a second time changes no document, and is answered with
    the status [already] when the first run was answered with 200 *)
Definition second_like_refused (like : M Response) (already : nat) : Prop :=
  forall db,
    unchanged (fst (like db)) (fst (like (fst (like db))))
    /\ (status_is (snd (like db)) 200 ->
        status_is (snd (like (fst (like db)))) already).

Ltac db_simpl := cbn [fst snd comments articles calls log set_comments set_articles].

Lemma V1_comment_like_twice cid uid :
  second_like_refused (V1.post_comments_like cid uid) 406.
Proof.
  intros db. rewrite (V1_comment_like cid uid db).
  destruct (find _ (comments db)) as [c|] eqn:E;
    [destruct (includes (IComment.likes c) uid) eqn:I|];
    db_simpl; rewrite V1_comment_like; db_simpl.
  - rewrite E, I. split; [split; reflexivity|]. intros [b Hb]. discriminate.
  - erewrite find_liked by exact E. rewrite likes_liked, includes_last.
    split; [split; reflexivity|]. intros _. eexists. reflexivity.
  - rewrite E. split; [split; reflexivity|]. intros [b Hb]. discriminate.
Qed.

Lemma V2_comment_like_twice cid uid :
  second_like_refused (V2.post_comments_like cid uid) 409.
Proof.
  intros db.
  destruct (truthy_str cid && truthy_str uid) eqn:G.
  - apply andb_true_iff in G. destruct G as [G1 G2].
    rewrite V2_comment_like by assumption.
    destruct (find _ (comments db)) as [c|] eqn:E;
      [destruct (includes (IComment.likes c) uid) eqn:I|];
      db_simpl; rewrite V2_comment_like by assumption; db_simpl.
    + rewrite E, I. split; [split; reflexivity|]. intros [b Hb]. discriminate.
    + erewrite find_liked by exact E. rewrite likes_liked, includes_last.
      split; [split; reflexivity|]. intros _. eexists. reflexivity.
    + rewrite E. split; [split; reflexivity|]. intros [b Hb]. discriminate.
  - rewrite V2_comment_like_guard by assumption. db_simpl.
    rewrite V2_comment_like_guard by assumption. db_simpl.
    split; [split; reflexivity|]. intros [b Hb]. discriminate.
Qed.

Lemma V1_article_like_twice env aid uid :
  second_like_refused (V1.post_articles_like env aid uid) 406.
Proof.
  intros db. rewrite (V1_article_like env aid uid db).
  destruct (find _ (articles db)) as [a|] eqn:E;
    [destruct (includes (IArticle.likes a) uid) eqn:I|];
    db_simpl; rewrite V1_article_like; db_simpl.
  - rewrite E, I. split; [split; reflexivity|]. intros [b Hb]. discriminate.
  - erewrite find_liked_article by exact E.
    rewrite likes_liked_article, includes_last.
    split; [split; reflexivity|]. intros _. eexists. reflexivity.
  - rewrite find_first_like by exact E. change (IArticle.likes (first_like env aid uid)) with [uid].
    rewrite includes_single. db_simpl.
    split; [split; reflexivity|]. intros _. eexists. reflexivity.
Qed.

Lemma V2_article_like_twice env aid uid :
  second_like_refused (V2.post_articles_like env aid uid) 409.
Proof.
  intros db.
  destruct (truthy_str aid && truthy_str uid) eqn:G.
  - apply andb_true_iff in G. destruct G as [G1 G2].
    rewrite V2_article_like by assumption.
    destruct (find _ (articles db)) as [a|] eqn:E;
      [destruct (includes (IArticle.likes a) uid) eqn:I|];
      db_simpl; rewrite V2_article_like by assumption; db_simpl.
    + rewrite E, I. split; [split; reflexivity|]. intros [b Hb]. discriminate.
    + erewrite find_liked_article by exact E.
    rewrite likes_liked_article, includes_last.
      split; [split; reflexivity|]. intros _. eexists. reflexivity.
    + rewrite find_first_like by exact E. change (IArticle.likes (first_like env aid uid)) with [uid].
      rewrite includes_single. db_simpl.
      split; [split; reflexivity|]. intros _. eexists. reflexivity.
  - rewrite V2_article_like_guard by assumption. db_simpl.
    rewrite V2_article_like_guard by assumption. db_simpl.
    split; [split; reflexivity|]. intros [b Hb]. discriminate.
Qed.

(** C4. A like by a user whose id is already in the [likes] of the comment
    or article is refused (406 by the first form of the handlers, 409 by the
    second) and changes no document; in particular a second like in a row
    leaves every document as the first one left it. *)
Theorem already_liked_rejected env db uid :
  (forall cid c,
      find (Comment.has_id cid) (comments db) = Some c ->
      includes (IComment.likes c) uid = true ->
      V1.post_comments_like cid uid db
      = (log (Query CommentsColl) db,
         Ok (send 406 (Text "Can't like - user already liked comment")))
      /\ (truthy_str cid = true -> truthy_str uid = true ->
          V2.post_comments_like cid uid db
          = (log (Query CommentsColl) db,
             Ok (send 409 (Text "User has already liked this comment"))))
      /\ unchanged db (fst (V2.post_comments_like cid uid db)))
  /\ (forall aid a,
        find (Article.has_article_id aid) (articles db) = Some a ->
        includes (IArticle.likes a) uid = true ->
        V1.post_articles_like env aid uid db
        = (log (Query ArticlesColl) db,
           Ok (send 406 (Text "User already liked article")))
        /\ (truthy_str aid = true -> truthy_str uid = true ->
            V2.post_articles_like env aid uid db
            = (log (Query ArticlesColl) db,
               Ok (send 409 (Text "User already liked article"))))
        /\ unchanged db (fst (V2.post_articles_like env aid uid db)))
  /\ (forall cid,
        second_like_refused (V1.post_comments_like cid uid) 406
        /\ second_like_refused (V2.post_comments_like cid uid) 409)
  /\ (forall aid,
        second_like_refused (V1.post_articles_like env aid uid) 406
        /\ second_like_refused (V2.post_articles_like env aid uid) 409).
Proof.
  split; [|split; [|split]].
  - intros cid c Hc Ic.
    split; [rewrite V1_comment_like, Hc, Ic; reflexivity|].
    split; [intros G1 G2; rewrite V2_comment_like, Hc, Ic by assumption;
            reflexivity|].
    destruct (truthy_str cid && truthy_str uid) eqn:G.
    + apply andb_true_iff in G. destruct G as [G1 G2].
      rewrite V2_comment_like, Hc, Ic by assumption. split; reflexivity.
    + rewrite V2_comment_like_guard by assumption. split; reflexivity.
  - intros aid a Ha Ia.
    split; [rewrite V1_article_like, Ha, Ia; reflexivity|].
    split; [intros G1 G2; rewrite V2_article_like, Ha, Ia by assumption;
            reflexivity|].
    destruct (truthy_str aid && truthy_str uid) eqn:G.
    + apply andb_true_iff in G. destruct G as [G1 G2].
      rewrite V2_article_like, Ha, Ia by assumption. split; reflexivity.
    + rewrite V2_article_like_guard by assumption. split; reflexivity.
  - intros cid. split; [apply V1_comment_like_twice|apply V2_comment_like_twice].
  - intros aid. split; [apply V1_article_like_twice|apply V2_article_like_twice].
Qed.

Definition some_env : Env := mkEnv "c9" "x9" 900.

Lemma already_liked_rejected_witness :
  find (Comment.has_id "c4") (comments sample_db)
  = Some (IComment.mk "c4" "a1" "reply to the reply" (Some "c2") ["u7"] 1 0 400 ann)
  /\ includes ["u7"] "u7" = true
  /\ find (Article.has_article_id "a1") (articles sample_db)
     = Some (IArticle.mk "x1" "a1" ["u7"] 1 2 3)
  /\ V1.post_comments_like "c4" "u7" sample_db
     = (log (Query CommentsColl) sample_db,
        Ok (send 406 (Text "Can't like - user already liked comment")))
  /\ V1.post_articles_like some_env "a1" "u7" sample_db
     = (log (Query ArticlesColl) sample_db,
        Ok (send 406 (Text "User already liked article"))).
Proof.
  assert (H1 : find (Comment.has_id "c4") (comments sample_db)
               = Some (IComment.mk "c4" "a1" "reply to the reply" (Some "c2")
                         ["u7"] 1 0 400 ann)) by reflexivity.
  assert (H2 : includes ["u7"] "u7" = true) by reflexivity.
  assert (H3 : find (Article.has_article_id "a1") (articles sample_db)
               = Some (IArticle.mk "x1" "a1" ["u7"] 1 2 3)) by reflexivity.
  split; [exact H1|]. split; [exact H2|]. split; [exact H3|].
  destruct (already_liked_rejected some_env sample_db "u7") as (Rc & Ra & _).
  split.
  - exact (proj1 (Rc "c4" _ H1 H2)).
  - exact (proj1 (Ra "a1" _ H3 H2)).
Defined.

(** *** Like, then unlike *)

(** [like] answers 200 with [x'] and stores it, and [unlike] after it
    answers 200 with [x] and leaves both collections as they were in [db] *)
Definition round_trip {T} (like unlike : M Response) (db : DB)
    (stored : DB -> option T) (doc : T -> Body) (x x' : T) : Prop :=
  snd (like db) = Ok (send 200 (doc x'))
  /\ stored (fst (like db)) = Some x'
  /\ snd (unlike (fst (like db))) = Ok (send 200 (doc x))
  /\ unchanged db (fst (unlike (fst (like db)))).

Definition stored_comment (cid : string) (db : DB) : option IComment.t :=
  find (Comment.has_id cid) (comments db).

Definition stored_article (aid : string) (db : DB) : option IArticle.t :=
  find (Article.has_article_id aid) (articles db).

Lemma comments_back cid uid cs c :
  find (Comment.has_id cid) cs = Some c ->
  includes (IComment.likes c) uid = false ->
  update_first (Comment.has_id cid) (unliked uid)
    (update_first (Comment.has_id cid) (liked uid) cs) = cs.
Proof.
  intros Hf Hi. eapply update_first_back; [exact Hf| |].
  - now apply unliked_liked.
  - apply has_id_liked. now apply find_some in Hf.
Qed.

Lemma articles_back aid uid xs a :
  find (Article.has_article_id aid) xs = Some a ->
  includes (IArticle.likes a) uid = false ->
  update_first (Article.has_article_id aid) (unliked_article uid)
    (update_first (Article.has_article_id aid) (liked_article uid) xs) = xs.
Proof.
  intros Hf Hi. eapply update_first_back; [exact Hf| |].
  - now apply unliked_liked_article.
  - apply has_article_id_liked. now apply find_some in Hf.
Qed.

Lemma V1_comment_round_trip db cid uid c :
  find (Comment.has_id cid) (comments db) = Some c ->
  includes (IComment.likes c) uid = false ->
  round_trip (V1.post_comments_like cid uid) (V1.post_comments_unlike cid uid)
             db (stored_comment cid) CommentDoc c (liked uid c).
Proof.
  intros Hf Hi. unfold round_trip, stored_comment.
  rewrite V1_comment_like, Hf, Hi. db_simpl.
  rewrite V1_comment_unlike. db_simpl.
  erewrite find_liked by exact Hf. rewrite likes_liked, includes_last.
  db_simpl. rewrite unliked_liked by exact Hi.
  erewrite comments_back by eassumption.
  repeat split.
Qed.

Lemma V2_comment_round_trip db cid uid c :
  truthy_str cid = true -> truthy_str uid = true ->
  find (Comment.has_id cid) (comments db) = Some c ->
  includes (IComment.likes c) uid = false ->
  round_trip (V2.post_comments_like cid uid) (V2.post_comments_unlike cid uid)
             db (stored_comment cid) CommentDoc c (liked uid c).
Proof.
  intros G1 G2 Hf Hi. unfold round_trip, stored_comment.
  rewrite V2_comment_like, Hf, Hi by assumption. db_simpl.
  rewrite V2_comment_unlike by assumption. db_simpl.
  erewrite find_liked by exact Hf. rewrite likes_liked, includes_last.
  db_simpl. rewrite unliked_liked by exact Hi.
  erewrite comments_back by eassumption.
  repeat split.
Qed.

Lemma V1_article_round_trip env db aid uid a :
  find (Article.has_article_id aid) (articles db) = Some a ->
  includes (IArticle.likes a) uid = false ->
  round_trip (V1.post_articles_like env aid uid)
             (V1.post_articles_unlike aid uid)
             db (stored_article aid) ArticleDoc a (liked_article uid a).
Proof.
  intros Hf Hi. unfold round_trip, stored_article.
  rewrite V1_article_like, Hf, Hi. db_simpl.
  rewrite V1_article_unlike. db_simpl.
  erewrite find_liked_article by exact Hf.
  rewrite likes_liked_article, includes_last.
  db_simpl. rewrite unliked_liked_article by exact Hi.
  erewrite articles_back by eassumption.
  repeat split.
Qed.

Lemma V2_article_round_trip env db aid uid a :
  truthy_str aid = true -> truthy_str uid = true ->
  find (Article.has_article_id aid) (articles db) = Some a ->
  includes (IArticle.likes a) uid = false ->
  round_trip (V2.post_articles_like env aid uid)
             (V2.post_articles_unlike aid uid)
             db (stored_article aid) ArticleDoc a (liked_article uid a).
Proof.
  intros G1 G2 Hf Hi. unfold round_trip, stored_article.
  rewrite V2_article_like, Hf, Hi by assumption. db_simpl.
  rewrite V2_article_unlike by assumption. db_simpl.
  erewrite find_liked_article by exact Hf.
  rewrite likes_liked_article, includes_last.
  db_simpl. rewrite unliked_liked_article by exact Hi.
  erewrite articles_back by eassumption.
  repeat split.
Qed.

(** C5. For a comment or an article whose [likes] do not hold the user id,
    a like followed by an unlike with that id puts [likes] and [likes_count]
    (indeed every document of both collections) back to what they were
    before the like; in between, the document holds the id appended to
    [likes] and [likes_count] one higher. *)
Theorem like_then_unlike_restores env db uid :
  (forall cid c,
      find (Comment.has_id cid) (comments db) = Some c ->
      includes (IComment.likes c) uid = false ->
      IComment.likes (liked uid c) = IComment.likes c ++ [uid]
      /\ IComment.likes_count (liked uid c) = IComment.likes_count c + 1
      /\ round_trip (V1.post_comments_like cid uid)
           (V1.post_comments_unlike cid uid)
           db (stored_comment cid) CommentDoc c (liked uid c)
      /\ (truthy_str cid = true -> truthy_str uid = true ->
          round_trip (V2.post_comments_like cid uid)
            (V2.post_comments_unlike cid uid)
            db (stored_comment cid) CommentDoc c (liked uid c))
      /\ unchanged db
           (fst (V2.post_comments_unlike cid uid
                   (fst (V2.post_comments_like cid uid db)))))
  /\ (forall aid a,
        find (Article.has_article_id aid) (articles db) = Some a ->
        includes (IArticle.likes a) uid = false ->
        IArticle.likes (liked_article uid a) = IArticle.likes a ++ [uid]
        /\ IArticle.likes_count (liked_article uid a)
           = IArticle.likes_count a + 1
        /\ round_trip (V1.post_articles_like env aid uid)
             (V1.post_articles_unlike aid uid)
             db (stored_article aid) ArticleDoc a (liked_article uid a)
        /\ (truthy_str aid = true -> truthy_str uid = true ->
            round_trip (V2.post_articles_like env aid uid)
              (V2.post_articles_unlike aid uid)
              db (stored_article aid) ArticleDoc a (liked_article uid a))
        /\ unchanged db
             (fst (V2.post_articles_unlike aid uid
                     (fst (V2.post_articles_like env aid uid db))))).
Proof.
  split.
  - intros cid c Hc Ic.
    split; [now rewrite liked_fields|]. split; [now rewrite liked_fields|].
    split; [now apply V1_comment_round_trip|].
    split; [intros; now apply V2_comment_round_trip|].
    destruct (truthy_str cid && truthy_str uid) eqn:G.
    + apply andb_true_iff in G. destruct G as [G1 G2].
      apply (@V2_comment_round_trip db cid uid c G1 G2 Hc Ic).
    + rewrite !V2_comment_like_guard, !V2_comment_unlike_guard by assumption.
      split; reflexivity.
  - intros aid a Ha Ia.
    split; [now rewrite liked_article_fields|].
    split; [now rewrite liked_article_fields|].
    split; [now apply V1_article_round_trip|].
    split; [intros; now apply V2_article_round_trip|].
    destruct (truthy_str aid && truthy_str uid) eqn:G.
    + apply andb_true_iff in G. destruct G as [G1 G2].
      apply (@V2_article_round_trip env db aid uid a G1 G2 Ha Ia).
    + rewrite !V2_article_like_guard, !V2_article_unlike_guard by assumption.
      split; reflexivity.
Qed.

Lemma like_then_unlike_restores_witness :
  find (Comment.has_id "c2") (comments sample_db)
  = Some (IComment.mk "c2" "a1" "first reply" (Some "c1") [] 0 1 200 ann)
  /\ includes [] "u3" = false
  /\ find (Article.has_article_id "a1") (articles sample_db)
     = Some (IArticle.mk "x1" "a1" ["u7"] 1 2 3)
  /\ includes ["u7"] "u3" = false
  /\ unchanged sample_db
       (fst (V2.post_comments_unlike "c2" "u3"
               (fst (V2.post_comments_like "c2" "u3" sample_db))))
  /\ unchanged sample_db
       (fst (V2.post_articles_unlike "a1" "u3"
               (fst (V2.post_articles_like some_env "a1" "u3" sample_db)))).
Proof.
  assert (H1 : find (Comment.has_id "c2") (comments sample_db)
               = Some (IComment.mk "c2" "a1" "first reply" (Some "c1")
                         [] 0 1 200 ann)) by reflexivity.
  assert (H2 : includes [] "u3" = false) by reflexivity.
  assert (H3 : find (Article.has_article_id "a1") (articles sample_db)
               = Some (IArticle.mk "x1" "a1" ["u7"] 1 2 3)) by reflexivity.
  assert (H4 : includes ["u7"] "u3" = false) by reflexivity.
  split; [exact H1|]. split; [exact H2|]. split; [exact H3|]. split; [exact H4|].
  destruct (like_then_unlike_restores some_env sample_db "u3") as (Rc & Ra).
  split.
  - exact (proj2 (proj2 (proj2 (proj2 (Rc "c2" _ H1 H2))))).
  - exact (proj2 (proj2 (proj2 (proj2 (Ra "a1" _ H3 H4))))).
Defined.

Example sample_like_unlike :
  snd (V2.post_comments_like "c2" "u3" sample_db)
  = Ok (send 200 (CommentDoc
         (IComment.mk "c2" "a1" "first reply" (Some "c1") ["u3"] 1 1 200 ann)))
  /\ comments (fst (V2.post_comments_unlike "c2" "u3"
                      (fst (V2.post_comments_like "c2" "u3" sample_db))))
     = sample_comments.
Proof. split; reflexivity. Qed.

(** ** Pagination *)

(** a number with no fractional part *)
Definition whole (n : number) : Prop :=
  exists (q : Q) (z : Z), n = Finite q /\ Qeq q (inject_Z z).

Lemma Qred_inject_Z z : Qred (inject_Z z) = inject_Z z.
Proof.
  apply Qcanon.Qred_identity. simpl. apply Z.gcd_1_r.
Qed.

Lemma Qred_integer q z : Qeq q (inject_Z z) -> Qred q = inject_Z z.
Proof.
  intros H. rewrite <- Qred_inject_Z. now apply Qred_complete.
Qed.

Lemma Qtrunc_inject_Z z : Qtrunc (inject_Z z) = z.
Proof. unfold Qtrunc. simpl. apply Z.quot_1_r. Qed.

Lemma Qeqb_refl q : Qeqb q q = true.
Proof. apply Qeq_bool_iff. reflexivity. Qed.

Lemma of_Z_sub a b : num_sub (of_Z a) (of_Z b) = of_Z (a - b).
Proof.
  unfold num_sub, of_Z. f_equal. apply Qred_integer.
  unfold Qeq, Qminus, Qplus, Qopp, inject_Z. simpl. lia.
Qed.

Lemma of_Z_mul a b : num_mul (of_Z a) (of_Z b) = of_Z (a * b).
Proof.
  unfold num_mul, of_Z. f_equal. apply Qred_integer.
  unfold Qeq, Qmult, inject_Z. simpl. lia.
Qed.

Lemma of_Z_lt a b : num_lt (of_Z a) (of_Z b) = (a <? b).
Proof.
  unfold num_lt, of_Z, Qltb.
  destruct (Qlt_le_dec (inject_Z a) (inject_Z b)) as [H|H];
    unfold Qlt, Qle, inject_Z in H; simpl in H;
    destruct (Z.ltb_spec a b); auto; lia.
Qed.

Lemma of_Z_rem_1 a : num_rem (of_Z a) (of_Z 1) = of_Z 0.
Proof.
  unfold num_rem, of_Z.
  replace (Qeqb (inject_Z 1) 0%Q) with false by reflexivity.
  f_equal. apply Qred_integer.
  unfold Qtrunc, Qdiv, Qmult, Qinv, Qeq, Qminus, Qplus, Qopp, inject_Z. simpl.
  rewrite !Z.mul_1_r, Z.quot_1_r. destruct a; lia.
Qed.

Lemma as_count_of_Z z : 0 <= z -> as_count (of_Z z) = Some (Z.to_nat z).
Proof.
  intros H. unfold as_count, of_Z.
  rewrite Qtrunc_inject_Z, Qeqb_refl.
  destruct (Z.leb_spec 0 z); [reflexivity|lia].
Qed.

(** a page number that passes the [% 1] test is whole *)
Lemma rem_1_whole n :
  isNaN n = false ->
  num_neq (num_rem n (of_Z 1)) (of_Z 0) = false -> whole n.
Proof.
  destruct n as [| s | q]; cbn [isNaN num_rem of_Z num_neq];
    try discriminate.
  intros _ H. exists q, (Qtrunc (Qdiv q (inject_Z 1))). split; [reflexivity|].
  replace (Qeqb (inject_Z 1) 0%Q) with false in H by reflexivity.
  apply negb_false_iff in H. unfold Qeqb in H. apply Qeq_bool_iff in H.
  rewrite Qred_correct in H.
  set (z := inject_Z (Qtrunc (Qdiv q (inject_Z 1)))) in *.
  assert (E : Qeq (inject_Z 1 * z)%Q z) by apply Qmult_1_l.
  rewrite E in H. apply Qplus_inj_r with (z := (- z)%Q).
  rewrite Qplus_opp_r. exact H.
Qed.

Definition invalid_page_messages_V1 : list string :=
  [ "Invalid request: limit must be a number";
    "Invalid request: page must be a number";
    "Invalid request: page must be greater than 1";
    "Invalid request: page must be a whole number" ].

Definition invalid_page_messages_V2 : list string :=
  [ "Invalid request: limit must be a number";
    "Invalid request: page must be a number";
    "Invalid request: 'page' must be a whole number greater than 0" ].

(** C6. A listing whose page or limit is not a number, or whose page is
    below 1 or not whole, throws one of the invalid-request errors, which
    the handler answers with 500; the store is exactly as before, its list
    of calls included: no query was made. *)
Theorem invalid_pagination_rejected iu aid sort_by parent page limit db :
  isNaN (default page (of_Z 1)) = true
  \/ isNaN (default limit (of_Z 5)) = true
  \/ num_lt (default page (of_Z 1)) (of_Z 1) = true
  \/ ~ whole (default page (of_Z 1)) ->
  (exists msg,
      In msg invalid_page_messages_V1
      /\ V1.get_comments_try iu aid sort_by parent page limit db
         = (db, Throw msg)
      /\ V1.get_comments iu aid sort_by parent page limit db
         = (db, Ok (send 500 (ErrorMessage msg))))
  /\ (exists msg,
        In msg invalid_page_messages_V2
        /\ V2.get_comments_try iu aid sort_by parent page limit db
           = (db, Throw msg)
        /\ V2.get_comments iu aid sort_by parent page limit db
           = (db, Ok (send 500 (ErrorMessage "Server error")))).
Proof.
  intros H.
  unfold V1.get_comments, V2.get_comments, V1.get_comments_try,
    V2.get_comments_try, try_catch.
  set (p := default page (of_Z 1)) in *.
  set (l := default limit (of_Z 5)) in *.
  cbv zeta.
  destruct (isNaN l) eqn:Hl.
  { split; eexists; (split; [|split; reflexivity]); simpl; auto. }
  destruct (isNaN p) eqn:Hp.
  { split; eexists; (split; [|split; reflexivity]); simpl; auto. }
  destruct (num_lt p (of_Z 1)) eqn:Hlt.
  { split; eexists; (split; [|split; reflexivity]); simpl; auto. }
  destruct (num_neq (num_rem p (of_Z 1)) (of_Z 0)) eqn:Hrem.
  { split; eexists; (split; [|split; reflexivity]); simpl; auto. }
  exfalso. destruct H as [H|[H|[H|H]]]; try discriminate.
  apply H. now apply rem_1_whole.
Qed.

Lemma invalid_pagination_rejected_witness :
  num_lt (default (Some (of_Z 0)) (of_Z 1)) (of_Z 1) = true
  /\ (exists msg,
        In msg invalid_page_messages_V1
        /\ V1.get_comments_try false (Some "a1") (Some "newest") None
             (Some (of_Z 0)) None sample_db
           = (sample_db, Throw msg)
        /\ V1.get_comments false (Some "a1") (Some "newest") None
             (Some (of_Z 0)) None sample_db
           = (sample_db, Ok (send 500 (ErrorMessage msg))))
  /\ (exists msg,
        In msg invalid_page_messages_V2
        /\ V2.get_comments_try false (Some "a1") (Some "newest") None
             (Some (of_Z 0)) None sample_db
           = (sample_db, Throw msg)
        /\ V2.get_comments false (Some "a1") (Some "newest") None
             (Some (of_Z 0)) None sample_db
           = (sample_db, Ok (send 500 (ErrorMessage "Server error")))).
Proof.
  assert (H : num_lt (default (Some (of_Z 0)) (of_Z 1)) (of_Z 1) = true)
    by reflexivity.
  split; [exact H|].
  exact (@invalid_pagination_rejected false (Some "a1") (Some "newest") None
           (Some (of_Z 0)) None sample_db
           (or_intror (or_intror (or_introl H)))).
Defined.

(** page 0, page 1.5 and a limit that is not a number *)
Example invalid_pages :
  snd (V1.get_comments false (Some "a1") None None (Some (of_Z 0)) None sample_db)
  = Ok (send 500 (ErrorMessage "Invalid request: page must be greater than 1"))
  /\ snd (V1.get_comments false (Some "a1") None None
            (Some (Finite (3 # 2))) None sample_db)
     = Ok (send 500 (ErrorMessage "Invalid request: page must be a whole number"))
  /\ V1.get_comments false (Some "a1") None None None (Some NaN) sample_db
     = (sample_db,
        Ok (send 500 (ErrorMessage "Invalid request: limit must be a number")))
  /\ V2.get_comments false (Some "a1") None None
       (Some (Finite (3 # 2))) None sample_db
     = (sample_db, Ok (send 500 (ErrorMessage "Server error"))).
Proof. repeat split. Qed.

(** *** The store's sort *)

Section SortDocs.
Variable sort : list (Field * SortOrder).

Definition in_order (a b : IComment.t) : Prop := sort_le sort a b = true.

Lemma sort_le_total a b : sort_le sort a b = false -> sort_le sort b a = true.
Proof.
  induction sort as [|[f o] rest IH]; simpl; [discriminate|].
  rewrite (Z.eqb_sym (sort_key f b)).
  destruct (Z.eqb_spec (sort_key f a) (sort_key f b)); auto.
  destruct (0 <=? o);
    destruct (Z.ltb_spec (sort_key f a) (sort_key f b));
    destruct (Z.ltb_spec (sort_key f b) (sort_key f a));
    auto; try discriminate; lia.
Qed.

Lemma sort_le_trans a b c :
  sort_le sort a b = true -> sort_le sort b c = true -> sort_le sort a c = true.
Proof.
  induction sort as [|[f o] rest IH]; simpl; [reflexivity|].
  destruct (Z.eqb_spec (sort_key f a) (sort_key f b)) as [E1|E1];
    destruct (Z.eqb_spec (sort_key f b) (sort_key f c)) as [E2|E2];
    destruct (Z.eqb_spec (sort_key f a) (sort_key f c)) as [E3|E3];
    auto; try lia; destruct (0 <=? o);
    repeat match goal with
           | |- context [?x <? ?y] => destruct (Z.ltb_spec x y)
           end; auto; try discriminate; try lia.
Qed.

Lemma insert_sorted_perm x l :
  Permutation (insert_sorted sort x l) (x :: l).
Proof.
  induction l as [|y l IH]; simpl; [reflexivity|].
  destruct (sort_le sort x y); [reflexivity|].
  etransitivity; [apply perm_skip, IH|apply perm_swap].
Qed.

Lemma sort_docs_perm l : Permutation (sort_docs sort l) l.
Proof.
  induction l as [|x l IH]; simpl; [reflexivity|].
  etransitivity; [apply insert_sorted_perm|now apply perm_skip].
Qed.

Lemma insert_sorted_ordered x l :
  StronglySorted in_order l -> StronglySorted in_order (insert_sorted sort x l).
Proof.
  induction l as [|y l IH]; simpl; intros H.
  - repeat constructor.
  - apply StronglySorted_inv in H. destruct H as [Hl Hy].
    destruct (sort_le sort x y) eqn:E.
    + constructor; [constructor; assumption|].
      constructor; [exact E|].
      eapply Forall_impl; [|exact Hy]. intros z Hz.
      unfold in_order in *. eapply sort_le_trans; eauto.
    + constructor; [auto|].
      eapply Permutation_Forall; [symmetry; apply insert_sorted_perm|].
      constructor; [|exact Hy]. now apply sort_le_total.
Qed.

Lemma sort_docs_ordered l : StronglySorted in_order (sort_docs sort l).
Proof.
  induction l as [|x l IH]; simpl; [constructor|].
  now apply insert_sorted_ordered.
Qed.
End SortDocs.

Lemma sort_docs_unsorted l : sort_docs [] l = l.
Proof.
  induction l as [|x l IH]; simpl; [reflexivity|].
  rewrite IH. destruct l; reflexivity.
Qed.

(** The three orders of a listing. *)
Definition popular_order (a b : IComment.t) : Prop :=
  IComment.likes_count a > IComment.likes_count b
  \/ (IComment.likes_count a = IComment.likes_count b
      /\ IComment.created_at a >= IComment.created_at b).

Definition newest_order (a b : IComment.t) : Prop :=
  IComment.created_at a >= IComment.created_at b.

Definition oldest_order (a b : IComment.t) : Prop :=
  IComment.created_at a <= IComment.created_at b.

Lemma popular_in_order a b :
  in_order [(likes_count, -1); (created_at, -1)] a b -> popular_order a b.
Proof.
  unfold in_order, popular_order. simpl.
  destruct (Z.eqb_spec (IComment.likes_count a) (IComment.likes_count b));
    [destruct (Z.eqb_spec (IComment.created_at a) (IComment.created_at b))|];
    repeat match goal with
           | |- context [?x <? ?y] => destruct (Z.ltb_spec x y)
           end; intros; try discriminate; lia.
Qed.

Lemma newest_in_order a b :
  in_order [(created_at, -1)] a b -> newest_order a b.
Proof.
  unfold in_order, newest_order. simpl.
  destruct (Z.eqb_spec (IComment.created_at a) (IComment.created_at b));
    repeat match goal with
           | |- context [?x <? ?y] => destruct (Z.ltb_spec x y)
           end; intros; try discriminate; lia.
Qed.

Lemma oldest_in_order a b :
  in_order [(created_at, 1)] a b -> oldest_order a b.
Proof.
  unfold in_order, oldest_order. simpl.
  destruct (Z.eqb_spec (IComment.created_at a) (IComment.created_at b));
    repeat match goal with
           | |- context [?x <? ?y] => destruct (Z.ltb_spec x y)
           end; intros; try discriminate; lia.
Qed.

Lemma StronglySorted_impl {A} (R R' : A -> A -> Prop) (l : list A) :
  (forall a b, R a b -> R' a b) -> StronglySorted R l -> StronglySorted R' l.
Proof.
  intros H S. induction S as [|x l S IH F]; constructor; auto.
  eapply Forall_impl; [|exact F]. auto.
Qed.

(** the sort document the handlers build from [sort_by] *)
Definition sort_of (sort_by : option string) : list (Field * SortOrder) :=
  let sort : list (Field * SortOrder) := [] in
  let sort := if str_is sort_by "popular"
              then [(likes_count, -1); (created_at, -1)] else sort in
  let sort := if str_is sort_by "newest" then [(created_at, -1)] else sort in
  let sort := if str_is sort_by "oldest" then [(created_at, 1)] else sort in
  sort.

Lemma str_is_eq v s : str_is v s = true -> v = Some s.
Proof.
  destruct v as [x|]; simpl; [|discriminate].
  intros H. apply String.eqb_eq in H. now subst.
Qed.

(** the documents a listing selects, before they are sorted *)
Definition selected (iu : bool) (article_id parent : option string)
    (cs : list IComment.t) : list IComment.t :=
  filter (fun c => match_key iu article_id (Some (IComment.article_id c))
                   && match_key iu parent (IComment.parent c)) cs.

Definition page_of (p l : Z) (ranked : list IComment.t) : list IComment.t :=
  firstn (Z.to_nat l) (skipn (Z.to_nat ((p - 1) * l)) ranked).

Lemma take_limit_firstn {A} n (xs : list A) :
  n <> O -> take_limit n xs = firstn n xs.
Proof. destruct n; [contradiction|reflexivity]. Qed.

Lemma find_page_run iu aid parent (p l : Z) sort db :
  1 <= p -> 1 <= l ->
  Comment.find_page iu aid parent (of_Z l)
    (num_mul (num_sub (of_Z p) (of_Z 1)) (of_Z l)) sort db
  = (log (Query CommentsColl) db,
     Ok (page_of p l (sort_docs sort (selected iu aid parent (comments db))))).
Proof.
  intros Hp Hl. unfold Comment.find_page.
  rewrite of_Z_sub, of_Z_mul, !as_count_of_Z by nia.
  rewrite take_limit_firstn by lia. reflexivity.
Qed.

(** [Number.isSafeInteger]: the integers that doubles hold exactly *)
Definition safe_integer (z : Z) : Prop := - 2 ^ 53 < z < 2 ^ 53.

(** C7. A listing with a whole page number [p >= 1] and a whole limit
    [l >= 1], both and the skip count in the range where the arithmetic of
    doubles is exact, answers with the documents selected by the filter, put in the
    order [sort_by] asks for, without the first [(p - 1) * l] of them and
    cut after [l]: by [likes_count] then [created_at], both descending, for
    popular, by [created_at] descending for newest and ascending for oldest,
    and in store order for anything else. *)
Theorem list_comments_page iu aid sort_by parent page limit (p l : Z) db :
  1 <= p -> 1 <= l ->
  safe_integer p -> safe_integer l -> safe_integer ((p - 1) * l) ->
  default page (of_Z 1) = of_Z p ->
  default limit (of_Z 5) = of_Z l ->
  let chosen := selected iu aid parent (comments db) in
  let ranked := sort_docs (sort_of sort_by) chosen in
  V1.get_comments iu aid sort_by parent page limit db
  = (log (Query CommentsColl) db,
     Ok (send 200 (CommentDocs (page_of p l ranked))))
  /\ V2.get_comments iu aid sort_by parent page limit db
     = (log (Query CommentsColl) db,
        Ok (send 200 (CommentDocs (page_of p l ranked))))
  /\ (List.length (page_of p l ranked) <= Z.to_nat l)%nat
  /\ Permutation ranked chosen
  /\ (str_is sort_by "popular" = true -> StronglySorted popular_order ranked)
  /\ (str_is sort_by "newest" = true -> StronglySorted newest_order ranked)
  /\ (str_is sort_by "oldest" = true -> StronglySorted oldest_order ranked)
  /\ (str_is sort_by "popular" = false -> str_is sort_by "newest" = false ->
      str_is sort_by "oldest" = false -> ranked = chosen).
Proof.
  intros Hp Hl _ _ _ Ep El chosen ranked.
  assert (Hrun : forall h,
    try_catch
      (let page := default page (of_Z 1) in
       let limit := default limit (of_Z 5) in
       result <- Comment.find_page iu aid parent limit
                   (num_mul (num_sub page (of_Z 1)) limit) (sort_of sort_by) ;;
       ret (send 200 (CommentDocs result))) h db
    = (log (Query CommentsColl) db,
       Ok (send 200 (CommentDocs (page_of p l ranked))))).
  { intros h. cbv zeta. rewrite Ep, El. unfold try_catch, bind.
    rewrite find_page_run by assumption. reflexivity. }
  split; [|split].
  - rewrite <- (Hrun (fun msg => send 500 (ErrorMessage msg))).
    unfold V1.get_comments, V1.get_comments_try. cbv zeta.
    rewrite Ep, El, of_Z_rem_1, of_Z_lt.
    destruct (Z.ltb_spec p 1); [lia|]. reflexivity.
  - rewrite <- (Hrun V2.server_error).
    unfold V2.get_comments, V2.get_comments_try. cbv zeta.
    rewrite Ep, El, of_Z_rem_1, of_Z_lt.
    destruct (Z.ltb_spec p 1); [lia|]. reflexivity.
  - split; [unfold page_of; apply firstn_le_length|].
    split; [apply sort_docs_perm|].
    split; [|split; [|split]].
    + intros H. apply str_is_eq in H. subst sort_by.
      eapply StronglySorted_impl; [apply popular_in_order|].
      apply sort_docs_ordered.
    + intros H. apply str_is_eq in H. subst sort_by.
      eapply StronglySorted_impl; [apply newest_in_order|].
      apply sort_docs_ordered.
    + intros H. apply str_is_eq in H. subst sort_by.
      eapply StronglySorted_impl; [apply oldest_in_order|].
      apply sort_docs_ordered.
    + intros H1 H2 H3. unfold ranked, sort_of. rewrite H1, H2, H3.
      apply sort_docs_unsorted.
Qed.

(** Twelve root comments of one article, stored in no particular order;
    [kNN] was created at time [NN * 100]. *)
Definition twelve_db : DB :=
  mkDB (map (fun it : string * Z =>
               IComment.mk (fst it) "a2" "text" None [] 0 0 (snd it) ann)
            [ ("k07", 700); ("k03", 300); ("k11", 1100); ("k01", 100);
              ("k09", 900); ("k05", 500); ("k12", 1200); ("k02", 200);
              ("k08", 800); ("k04", 400); ("k10", 1000); ("k06", 600) ])
       [] [].

Lemma list_comments_page_witness :
  1 <= 2 /\ 1 <= 5
  /\ safe_integer 2 /\ safe_integer 5 /\ safe_integer ((2 - 1) * 5)
  /\ default (Some (of_Z 2)) (of_Z 1) = of_Z 2
  /\ default (Some (of_Z 5)) (of_Z 5) = of_Z 5
  /\ V1.get_comments false (Some "a2") (Some "newest") None
       (Some (of_Z 2)) (Some (of_Z 5)) twelve_db
     = (log (Query CommentsColl) twelve_db,
        Ok (send 200 (CommentDocs
              (page_of 2 5
                 (sort_docs (sort_of (Some "newest"))
                    (selected false (Some "a2") None (comments twelve_db))))))).
Proof.
  assert (H1 : 1 <= 2) by lia.
  assert (H2 : 1 <= 5) by lia.
  assert (H3 : default (Some (of_Z 2)) (of_Z 1) = of_Z 2) by reflexivity.
  assert (H4 : default (Some (of_Z 5)) (of_Z 5) = of_Z 5) by reflexivity.
  assert (S1 : safe_integer 2) by (unfold safe_integer; lia).
  assert (S2 : safe_integer 5) by (unfold safe_integer; lia).
  assert (S3 : safe_integer ((2 - 1) * 5)) by (unfold safe_integer; lia).
  split; [exact H1|]. split; [exact H2|].
  split; [exact S1|]. split; [exact S2|]. split; [exact S3|].
  split; [exact H3|]. split; [exact H4|].
  exact (proj1 (@list_comments_page false (Some "a2") (Some "newest") None
                  (Some (of_Z 2)) (Some (of_Z 5)) 2 5 twelve_db
                  H1 H2 S1 S2 S3 H3 H4)).
Defined.

(** Page 2 with limit 5 of the twelve comments, newest first: the sixth to
    the tenth newest. The same page is the default limit's. *)
Example newest_page_two :
  (exists docs,
      snd (V1.get_comments false (Some "a2") (Some "newest") None
             (Some (of_Z 2)) (Some (of_Z 5)) twelve_db)
      = Ok (send 200 (CommentDocs docs))
      /\ ids docs = ["k07"; "k06"; "k05"; "k04"; "k03"])
  /\ V2.get_comments false (Some "a2") (Some "newest") None
       (Some (of_Z 2)) None twelve_db
     = V1.get_comments false (Some "a2") (Some "newest") None
         (Some (of_Z 2)) (Some (of_Z 5)) twelve_db.
Proof.
  split; [eexists; split; [vm_compute; reflexivity|reflexivity]|].
  vm_compute. reflexivity.
Qed.

(** ** Creating a comment *)

Definition new_comment (env : Env) (aid text : string) (parent : option string)
    (author : Author.t) : IComment.t :=
  IComment.mk (comment_oid env) aid text parent [] 0 0 (now env) author.

(** the update of the parent's direct-reply counter *)
Definition parent_counted (parent : option string) (cs : list IComment.t)
    : list IComment.t :=
  match parent with
  | Some p =>
      if truthy_str p
      then update_first (Comment.has_id p)
             (apply_ops update_comment [Inc replies_count 1]) cs
      else cs
  | None => cs
  end.

(** what happens to the article collection *)
Definition article_counted (env : Env) (aid : string) (parent : option string)
    (xs : list IArticle.t) : list IArticle.t :=
  match find (Article.has_article_id aid) xs with
  | Some _ =>
      update_first (Article.has_article_id aid)
        (apply_ops update_article
           (if truthy parent then [Inc replies_count 1]
            else [Inc comments_count 1])) xs
  | None => xs ++ [IArticle.mk (article_oid env) aid [] 0 1 0]
  end.

Definition comment_posted (r : DB * res Response) (env : Env) (db : DB)
    (aid text : string) (parent : option string) (author : Author.t) : Prop :=
  comments (fst r)
  = parent_counted parent (comments db ++ [new_comment env aid text parent author])
  /\ articles (fst r) = article_counted env aid parent (articles db)
  /\ snd r = Ok (send 200 (CommentDoc (new_comment env aid text parent author))).

Lemma V1_post_comments_effect env db aid text parent author :
  comment_posted (V1.post_comments env aid text parent author db)
                 env db aid text parent author.
Proof.
  unfold comment_posted, V1.post_comments, parent_counted, article_counted,
    try_catch, bind, Comment.save, Comment.findByIdAndUpdate, Article.findOne,
    Article.findOneAndUpdate, Article.save, ret, truthy.
  fold (new_comment env aid text parent author).
  destruct parent as [p|]; [destruct (truthy_str p)|]; db_simpl;
    destruct (find _ (articles db)); db_simpl; repeat split.
Qed.

Lemma V2_post_comments_effect env db aid text parent author :
  truthy_str aid = true -> truthy_str text = true ->
  comment_posted (V2.post_comments env aid text parent (Some author) db)
                 env db aid text parent author.
Proof.
  intros G1 G2.
  unfold comment_posted, V2.post_comments, parent_counted, article_counted,
    try_catch, bind, Comment.save, Comment.findByIdAndUpdate, Article.findOne,
    Article.findOneAndUpdate, Article.save, ret, truthy.
  rewrite G1, G2. cbn [negb orb].
  fold (new_comment env aid text parent author).
  destruct parent as [p|]; [destruct (truthy_str p)|]; db_simpl;
    destruct (find _ (articles db)); db_simpl; repeat split.
Qed.

Lemma parent_counted_missing env aid text p author cs :
  find (Comment.has_id p) cs = None ->
  comment_oid env <> p ->
  parent_counted (Some p) (cs ++ [new_comment env aid text (Some p) author])
  = cs ++ [new_comment env aid text (Some p) author].
Proof.
  intros Hf Hne. unfold parent_counted.
  destruct (truthy_str p); [|reflexivity].
  apply find_none_update_first. rewrite find_app_new by exact Hf.
  unfold Comment.has_id. simpl.
  destruct (String.eqb_spec (comment_oid env) p); [contradiction|reflexivity].
Qed.

(** C9. A comment posted with a parent id that no stored comment has is
    stored and sent back all the same: the update of the parent's
    [replies_count] finds nothing to update and the collection is the old
    one with the new comment appended. *)
Theorem reply_to_missing_parent env db aid text p author :
  find (Comment.has_id p) (comments db) = None ->
  comment_oid env <> p ->
  let comment := new_comment env aid text (Some p) author in
  let r1 := V1.post_comments env aid text (Some p) author db in
  let r2 := V2.post_comments env aid text (Some p) (Some author) db in
  comments (fst r1) = comments db ++ [comment]
  /\ snd r1 = Ok (send 200 (CommentDoc comment))
  /\ (truthy_str aid = true -> truthy_str text = true ->
      comments (fst r2) = comments db ++ [comment]
      /\ snd r2 = Ok (send 200 (CommentDoc comment))).
Proof.
  intros Hf Hne comment r1 r2.
  destruct (V1_post_comments_effect env db aid text (Some p) author)
    as (C1 & _ & S1).
  split; [|split].
  - unfold r1. rewrite C1. now apply parent_counted_missing.
  - exact S1.
  - intros G1 G2.
    destruct (@V2_post_comments_effect env db aid text (Some p) author G1 G2)
      as (C2 & _ & S2).
    split; [|exact S2].
    unfold r2. rewrite C2. now apply parent_counted_missing.
Qed.

Lemma reply_to_missing_parent_witness :
  find (Comment.has_id "c0") (comments sample_db) = None
  /\ comment_oid some_env <> "c0"
  /\ comments (fst (V1.post_comments some_env "a1" "hello" (Some "c0") ann
                      sample_db))
     = comments sample_db
       ++ [new_comment some_env "a1" "hello" (Some "c0") ann]
  /\ snd (V1.post_comments some_env "a1" "hello" (Some "c0") ann sample_db)
     = Ok (send 200 (CommentDoc (new_comment some_env "a1" "hello" (Some "c0") ann))).
Proof.
  assert (H1 : find (Comment.has_id "c0") (comments sample_db) = None)
    by reflexivity.
  assert (H2 : comment_oid some_env <> "c0") by (simpl; discriminate).
  split; [exact H1|]. split; [exact H2|].
  destruct (@reply_to_missing_parent some_env sample_db "a1" "hello" "c0" ann
              H1 H2) as (R1 & R2 & _).
  split; [exact R1|exact R2].
Defined.

(** *** The article counters on creation *)

(** With the article in the store, a root comment adds one to its
    [comments_count] and a reply adds one to its [replies_count]. *)
Lemma post_comments_existing_article env aid parent xs a :
  find (Article.has_article_id aid) xs = Some a ->
  article_counted env aid parent xs
  = update_first (Article.has_article_id aid)
      (fun a =>
         IArticle.mk (IArticle._id a) (IArticle.article_id a) (IArticle.likes a)
           (IArticle.likes_count a)
           (IArticle.comments_count a + (if truthy parent then 0 else 1))
           (IArticle.replies_count a + (if truthy parent then 1 else 0)))
      xs.
Proof.
  intros H. unfold article_counted. rewrite H.
  apply update_first_ext. intros [i ai l lc cc rc].
  destruct (truthy parent); simpl; f_equal; lia.
Qed.

(** Without the article, the new one always starts at one comment and no
    reply, whether the comment has a parent or not. *)
Lemma post_comments_new_article env aid parent xs :
  find (Article.has_article_id aid) xs = None ->
  article_counted env aid parent xs
  = xs ++ [IArticle.mk (article_oid env) aid [] 0 1 0].
Proof. intros H. unfold article_counted. now rewrite H. Qed.

Definition empty_db : DB := mkDB [] [] [].

(** C3, at the input where the code departs from it: a reply (its parent
    is given) to an article that has no document yet. Both handlers create
    the article with [comments_count] 1 and [replies_count] 0, where the
    claim has [replies_count] 1 and [comments_count] 0. *)
Theorem reply_on_new_article_counts_as_comment :
  articles (fst (V1.post_comments some_env "a7" "hello" (Some "c1") ann empty_db))
  = [IArticle.mk "x9" "a7" [] 0 1 0]
  /\ articles (fst (V2.post_comments some_env "a7" "hello" (Some "c1")
                      (Some ann) empty_db))
     = [IArticle.mk "x9" "a7" [] 0 1 0]
  /\ map IComment.parent
       (comments (fst (V1.post_comments some_env "a7" "hello" (Some "c1") ann
                         empty_db)))
     = [Some "c1"].
Proof. repeat split. Qed.

(** ** Updating the body of a comment *)

Definition with_body (text : string) : IComment.t -> IComment.t :=
  apply_ops update_comment [SetStr body text].

Lemma with_body_fields text c :
  with_body text c =
  IComment.mk (IComment._id c) (IComment.article_id c) text
    (IComment.parent c) (IComment.likes c) (IComment.likes_count c)
    (IComment.replies_count c) (IComment.created_at c) (IComment.author c).
Proof. destruct c; reflexivity. Qed.

(** Both patch handlers replace the body of the stored comment and touch
    nothing else; the second sends the updated comment back. *)
Lemma patch_existing_comment db cid text c :
  find (Comment.has_id cid) (comments db) = Some c ->
  let r1 := V1.patch_comments text cid db in
  let r2 := V2.patch_comments text cid db in
  comments (fst r1)
  = update_first (Comment.has_id cid) (with_body text) (comments db)
  /\ articles (fst r1) = articles db
  /\ snd r1 = Ok (send 200 Empty)
  /\ (truthy_str text = true -> truthy_str cid = true ->
      comments (fst r2)
      = update_first (Comment.has_id cid) (with_body text) (comments db)
      /\ articles (fst r2) = articles db
      /\ snd r2 = Ok (send 200 (CommentDoc (with_body text c)))).
Proof.
  intros Hf r1 r2. split; [|split; [|split]]; try reflexivity.
  intros G1 G2. unfold r2, V2.patch_comments, try_catch, bind,
    Comment.findByIdAndUpdate, ret.
  rewrite G1, G2. cbn [negb orb]. rewrite Hf. repeat split.
Qed.

(** An id that no stored comment has: the second handler answers 404. *)
Lemma patch_missing_comment_V2 db cid text :
  find (Comment.has_id cid) (comments db) = None ->
  truthy_str text = true -> truthy_str cid = true ->
  unchanged db (fst (V2.patch_comments text cid db))
  /\ snd (V2.patch_comments text cid db)
     = Ok (send 404 (Text "Comment not found or update failed")).
Proof.
  intros Hf G1 G2. unfold V2.patch_comments, try_catch, bind,
    Comment.findByIdAndUpdate, ret, unchanged.
  rewrite G1, G2. cbn [negb orb]. rewrite Hf. db_simpl.
  rewrite find_none_update_first by exact Hf. repeat split.
Qed.

(** The first handler never looks at the result of the update: for an id
    that no stored comment has it changes nothing and still answers 200. *)
Lemma patch_missing_comment_V1 db cid text :
  find (Comment.has_id cid) (comments db) = None ->
  V1.patch_comments text cid db
  = (log (Update CommentsColl) db, Ok (send 200 Empty)).
Proof.
  intros Hf. unfold V1.patch_comments, try_catch, bind,
    Comment.findByIdAndUpdate, ret.
  rewrite find_none_update_first by exact Hf.
  destruct db; reflexivity.
Qed.

(** C8, at the input where the code departs from it: the id [c0] of no
    stored comment. The [/comments] handler answers 200 with an empty body
    instead of a not-found error; the [/replyke-comments] handler answers
    404. Neither changes a document. *)
Theorem patch_of_missing_comment_answers_200 :
  find (Comment.has_id "c0") (comments sample_db) = None
  /\ V1.patch_comments "new text" "c0" sample_db
     = (log (Update CommentsColl) sample_db, Ok (send 200 Empty))
  /\ V2.patch_comments "new text" "c0" sample_db
     = (log (Update CommentsColl) sample_db,
        Ok (send 404 (Text "Comment not found or update failed"))).
Proof. repeat split. Qed.

(** * More of the routers *)

(** ** Fetching an article (routers/articles.ts, both forms) *)

Module Fetch.

(** [Article.findOne({ article_id })] with a value that may be undefined *)
Definition findOne (ignoreUndefined : bool) (article_id : option string)
    : M (option IArticle.t) :=
  fun db =>
    (log (Query ArticlesColl) db,
     Ok (List.find
           (fun a => match_key ignoreUndefined article_id
                       (Some (IArticle.article_id a)))
           (articles db))).

(** [router.get("/replyke-articles")]: the id is a query value *)
Definition get_articles (ignoreUndefined : bool) (article_id : option string)
    : M Response :=
  try_catch
    (article <- findOne ignoreUndefined article_id ;;
     match article with
     | None => ret (send 204 Empty)
     | Some article => ret (send 200 (ArticleDoc article))
     end)
    (fun msg => send 500 (ErrorMessage msg)).

(** [router.get("/replyke-articles/:article_id")]: the id is a path
    parameter *)
Definition get_article (article_id : string) : M Response :=
  try_catch
    (article <- Article.findOne article_id ;;
     match article with
     | None => ret (send 404 Empty)
     | Some article => ret (send 200 (ArticleDoc article))
     end)
    V2.server_error.

End Fetch.

Lemma match_key_some iu s a :
  match_key iu (Some s) (Some (IArticle.article_id a))
  = Article.has_article_id s a.
Proof. reflexivity. Qed.

Lemma get_articles_run iu aid db :
  Fetch.get_articles iu (Some aid) db
  = (log (Query ArticlesColl) db,
     Ok (match find (Article.has_article_id aid) (articles db) with
         | Some a => send 200 (ArticleDoc a)
         | None => send 204 Empty
         end)).
Proof.
  unfold Fetch.get_articles, Fetch.findOne, try_catch, bind, ret.
  change (fun a => match_key iu (Some aid) (Some (IArticle.article_id a)))
    with (Article.has_article_id aid).
  destruct (find _ (articles db)); reflexivity.
Qed.

Lemma get_article_run aid db :
  Fetch.get_article aid db
  = (log (Query ArticlesColl) db,
     Ok (match find (Article.has_article_id aid) (articles db) with
         | Some a => send 200 (ArticleDoc a)
         | None => send 404 Empty
         end)).
Proof.
  unfold Fetch.get_article, Article.findOne, try_catch, bind, ret.
  destruct (find _ (articles db)); reflexivity.
Qed.

(** X1. The first like of an article that has no document yet: before it a
    fetch answers 204 (first form) or 404 (second form); the like stores a
    new article with the user as its only like, [likes_count] 1 and both
    comment counters 0, and answers 200 with it; a fetch afterwards answers
    200 with that article. No comment is touched. *)
Theorem first_like_creates_article env iu db aid uid :
  find (Article.has_article_id aid) (articles db) = None ->
  let created := IArticle.mk (article_oid env) aid [uid] 1 0 0 in
  let r1 := V1.post_articles_like env aid uid db in
  let r2 := V2.post_articles_like env aid uid db in
  snd (Fetch.get_articles iu (Some aid) db) = Ok (send 204 Empty)
  /\ snd (Fetch.get_article aid db) = Ok (send 404 Empty)
  /\ snd r1 = Ok (send 200 (ArticleDoc created))
  /\ articles (fst r1) = articles db ++ [created]
  /\ comments (fst r1) = comments db
  /\ snd (Fetch.get_articles iu (Some aid) (fst r1))
     = Ok (send 200 (ArticleDoc created))
  /\ (truthy_str aid = true -> truthy_str uid = true ->
      snd r2 = Ok (send 200 (ArticleDoc created))
      /\ articles (fst r2) = articles db ++ [created]
      /\ comments (fst r2) = comments db
      /\ snd (Fetch.get_article aid (fst r2))
         = Ok (send 200 (ArticleDoc created))).
Proof.
  intros Hf created r1 r2.
  assert (Hc : find (Article.has_article_id aid)
                 (articles db ++ [first_like env aid uid])
               = Some (first_like env aid uid)) by (now apply find_first_like).
  unfold r1, r2.
  rewrite get_articles_run, get_article_run, V1_article_like, Hf. db_simpl.
  rewrite get_articles_run. db_simpl. rewrite Hc.
  repeat (split; [reflexivity|]).
  intros G1 G2. rewrite V2_article_like, Hf by assumption. db_simpl.
  rewrite get_article_run. db_simpl. rewrite Hc.
  repeat split.
Qed.

Lemma first_like_creates_article_witness :
  find (Article.has_article_id "a9") (articles sample_db) = None
  /\ articles (fst (V1.post_articles_like some_env "a9" "u3" sample_db))
     = articles sample_db ++ [IArticle.mk "x9" "a9" ["u3"] 1 0 0]
  /\ snd (Fetch.get_articles false (Some "a9")
            (fst (V1.post_articles_like some_env "a9" "u3" sample_db)))
     = Ok (send 200 (ArticleDoc (IArticle.mk "x9" "a9" ["u3"] 1 0 0))).
Proof.
  assert (H : find (Article.has_article_id "a9") (articles sample_db) = None)
    by reflexivity.
  split; [exact H|].
  destruct (@first_like_creates_article some_env false sample_db "a9" "u3" H)
    as (_ & _ & _ & R1 & _ & R2 & _).
  split; [exact R1|exact R2].
Defined.

Lemma update_first_app_new {A} (p : A -> bool) (f : A -> A) (l : list A) x :
  find p l = None -> p x = true ->
  update_first p f (l ++ [x]) = l ++ [f x].
Proof.
  intros Hf Hx. induction l as [|y l IH]; simpl in *.
  - now rewrite Hx.
  - destruct (p y); [discriminate|]. now rewrite IH.
Qed.

(** X2. An article is never removed: a like that created the article
    followed by an unlike of the same user does not restore the store but
    leaves the article with no like and all three counters at 0. *)
Theorem unlike_keeps_created_article env db aid uid :
  find (Article.has_article_id aid) (articles db) = None ->
  let left := IArticle.mk (article_oid env) aid [] 0 0 0 in
  articles (fst (V1.post_articles_unlike aid uid
                   (fst (V1.post_articles_like env aid uid db))))
  = articles db ++ [left]
  /\ snd (V1.post_articles_unlike aid uid
            (fst (V1.post_articles_like env aid uid db)))
     = Ok (send 200 (ArticleDoc left))
  /\ (truthy_str aid = true -> truthy_str uid = true ->
      articles (fst (V2.post_articles_unlike aid uid
                       (fst (V2.post_articles_like env aid uid db))))
      = articles db ++ [left]
      /\ snd (V2.post_articles_unlike aid uid
                (fst (V2.post_articles_like env aid uid db)))
         = Ok (send 200 (ArticleDoc left))).
Proof.
  intros Hf left.
  assert (Hc : find (Article.has_article_id aid)
                 (articles db ++ [first_like env aid uid])
               = Some (first_like env aid uid)) by (now apply find_first_like).
  assert (Hl : unliked_article uid (first_like env aid uid) = left).
  { unfold unliked_article, first_like, left. simpl.
    now rewrite String.eqb_refl. }
  assert (Hu : update_first (Article.has_article_id aid) (unliked_article uid)
                 (articles db ++ [first_like env aid uid])
               = articles db ++ [left]).
  { rewrite update_first_app_new, Hl; auto.
    unfold Article.has_article_id. simpl. apply String.eqb_refl. }
  split; [|split].
  - rewrite V1_article_like, Hf. db_simpl. rewrite V1_article_unlike. db_simpl.
    rewrite Hc. change (IArticle.likes (first_like env aid uid)) with [uid].
    rewrite includes_single. db_simpl. exact Hu.
  - rewrite V1_article_like, Hf. db_simpl. rewrite V1_article_unlike. db_simpl.
    rewrite Hc. change (IArticle.likes (first_like env aid uid)) with [uid].
    rewrite includes_single. db_simpl. now rewrite Hl.
  - intros G1 G2.
    rewrite V2_article_like, Hf by assumption. db_simpl.
    rewrite V2_article_unlike by assumption. db_simpl.
    rewrite Hc. change (IArticle.likes (first_like env aid uid)) with [uid].
    rewrite includes_single. db_simpl. rewrite Hl. split; [exact Hu|reflexivity].
Qed.

Lemma unlike_keeps_created_article_witness :
  find (Article.has_article_id "a9") (articles sample_db) = None
  /\ articles (fst (V1.post_articles_unlike "a9" "u3"
                      (fst (V1.post_articles_like some_env "a9" "u3" sample_db))))
     = articles sample_db ++ [IArticle.mk "x9" "a9" [] 0 0 0].
Proof.
  assert (H : find (Article.has_article_id "a9") (articles sample_db) = None)
    by reflexivity.
  split; [exact H|].
  exact (proj1 (@unlike_keeps_created_article some_env sample_db "a9" "u3" H)).
Defined.

(** ** Refusals *)

(** X3. What the like and unlike handlers refuse besides a repeated like:
    an unlike of an article that has no document (404, and 409 in the second
    form), a like or unlike of a comment that is not stored (404), and an
    unlike by a user who is not in [likes] (406, and 409 in the second form).
    Each makes its one find query and changes no document. *)
Theorem unlike_refused db uid :
  (forall aid,
      find (Article.has_article_id aid) (articles db) = None ->
      V1.post_articles_unlike aid uid db
      = (log (Query ArticlesColl) db, Ok (send 404 (Text "Article not found")))
      /\ (truthy_str aid = true -> truthy_str uid = true ->
          V2.post_articles_unlike aid uid db
          = (log (Query ArticlesColl) db,
             Ok (send 409
                   (Text "Can't unlike, as user didn't like article or article not found")))))
  /\ (forall aid a,
        find (Article.has_article_id aid) (articles db) = Some a ->
        includes (IArticle.likes a) uid = false ->
        V1.post_articles_unlike aid uid db
        = (log (Query ArticlesColl) db,
           Ok (send 406 (Text "Can't unlike, as user didn't like article")))
        /\ (truthy_str aid = true -> truthy_str uid = true ->
            V2.post_articles_unlike aid uid db
            = (log (Query ArticlesColl) db,
               Ok (send 409
                     (Text "Can't unlike, as user didn't like article or article not found")))))
  /\ (forall cid,
        find (Comment.has_id cid) (comments db) = None ->
        V1.post_comments_like cid uid db
        = (log (Query CommentsColl) db, Ok (send 404 (Text "Comment not found")))
        /\ V1.post_comments_unlike cid uid db
           = (log (Query CommentsColl) db,
              Ok (send 404 (Text "Comment not found")))
        /\ (truthy_str cid = true -> truthy_str uid = true ->
            V2.post_comments_like cid uid db
            = (log (Query CommentsColl) db,
               Ok (send 404 (Text "Comment not found")))
            /\ V2.post_comments_unlike cid uid db
               = (log (Query CommentsColl) db,
                  Ok (send 404 (Text "Comment not found")))))
  /\ (forall cid c,
        find (Comment.has_id cid) (comments db) = Some c ->
        includes (IComment.likes c) uid = false ->
        V1.post_comments_unlike cid uid db
        = (log (Query CommentsColl) db,
           Ok (send 406 (Text "Can't unlike, as user didn't like comment")))
        /\ (truthy_str cid = true -> truthy_str uid = true ->
            V2.post_comments_unlike cid uid db
            = (log (Query CommentsColl) db,
               Ok (send 409 (Text "User hasn't liked this comment"))))).
Proof.
  split; [|split; [|split]].
  - intros aid Hf. split.
    + now rewrite V1_article_unlike, Hf.
    + intros G1 G2. now rewrite V2_article_unlike, Hf by assumption.
  - intros aid a Hf Hi. split.
    + now rewrite V1_article_unlike, Hf, Hi.
    + intros G1 G2. now rewrite V2_article_unlike, Hf, Hi by assumption.
  - intros cid Hf. split; [|split].
    + now rewrite V1_comment_like, Hf.
    + now rewrite V1_comment_unlike, Hf.
    + intros G1 G2. split.
      * now rewrite V2_comment_like, Hf by assumption.
      * now rewrite V2_comment_unlike, Hf by assumption.
  - intros cid c Hf Hi. split.
    + now rewrite V1_comment_unlike, Hf, Hi.
    + intros G1 G2. now rewrite V2_comment_unlike, Hf, Hi by assumption.
Qed.

Lemma unlike_refused_witness :
  find (Article.has_article_id "a9") (articles sample_db) = None
  /\ find (Comment.has_id "c2") (comments sample_db)
     = Some (IComment.mk "c2" "a1" "first reply" (Some "c1") [] 0 1 200 ann)
  /\ includes [] "u3" = false
  /\ V1.post_articles_unlike "a9" "u3" sample_db
     = (log (Query ArticlesColl) sample_db,
        Ok (send 404 (Text "Article not found")))
  /\ V1.post_comments_unlike "c2" "u3" sample_db
     = (log (Query CommentsColl) sample_db,
        Ok (send 406 (Text "Can't unlike, as user didn't like comment"))).
Proof.
  assert (H1 : find (Article.has_article_id "a9") (articles sample_db) = None)
    by reflexivity.
  assert (H2 : find (Comment.has_id "c2") (comments sample_db)
               = Some (IComment.mk "c2" "a1" "first reply" (Some "c1")
                         [] 0 1 200 ann)) by reflexivity.
  assert (H3 : includes [] "u3" = false) by reflexivity.
  split; [exact H1|]. split; [exact H2|]. split; [exact H3|].
  destruct (unlike_refused sample_db "u3") as (Ra & _ & _ & Rc).
  split.
  - exact (proj1 (Ra "a9" H1)).
  - exact (proj1 (Rc "c2" _ H2 H3)).
Defined.

(** X4. A delete of an id that no stored comment has: the [/comments]
    handler throws and answers 500 with "Comment not found", the
    [/replyke-comments] handler answers 404; both have made one find query
    and no document is changed, whatever the fuel. *)
Theorem delete_of_missing_comment fuel db cid :
  find (Comment.has_id cid) (comments db) = None ->
  V1.delete_comments fuel cid db
  = (log (Query CommentsColl) db,
     Ok (send 500 (ErrorMessage "Comment not found")))
  /\ (truthy_str cid = true ->
      V2.delete_comments fuel cid db
      = (log (Query CommentsColl) db, Ok (send 404 (Text "Comment not found")))).
Proof.
  intros Hf. split.
  - unfold V1.delete_comments, V1.delete_comments_try, try_catch, bind,
      Comment.findById. now rewrite Hf.
  - intros G. unfold V2.delete_comments, V2.delete_comments_try, try_catch,
      bind, Comment.findById. rewrite G. cbn [negb]. now rewrite Hf.
Qed.

Lemma delete_of_missing_comment_witness :
  find (Comment.has_id "c0") (comments sample_db) = None
  /\ V1.delete_comments 5 "c0" sample_db
     = (log (Query CommentsColl) sample_db,
        Ok (send 500 (ErrorMessage "Comment not found"))).
Proof.
  assert (H : find (Comment.has_id "c0") (comments sample_db) = None)
    by reflexivity.
  split; [exact H|].
  exact (proj1 (@delete_of_missing_comment 5 sample_db "c0" H)).
Defined.

(** X5. The validation of the second form of the handlers: a request that
    lacks a required field (an empty string, or no author) is answered 400
    and the store is left exactly as it was, its list of calls included:
    nothing was looked up or written. *)
Theorem missing_fields_rejected env fuel db :
  (forall aid text parent,
      V2.post_comments env aid text parent None db
      = (db, Ok (send 400 (Text "Missing required comment details"))))
  /\ (forall aid text parent author,
        truthy_str aid && truthy_str text = false ->
        V2.post_comments env aid text parent author db
        = (db, Ok (send 400 (Text "Missing required comment details"))))
  /\ V2.delete_comments fuel EmptyString db
     = (db, Ok (send 400 (Text "Comment ID is required")))
  /\ (forall text cid,
        truthy_str text && truthy_str cid = false ->
        V2.patch_comments text cid db
        = (db, Ok (send 400 (Text "Update content and comment ID are required"))))
  /\ (forall cid uid,
        truthy_str cid && truthy_str uid = false ->
        V2.post_comments_like cid uid db
        = (db, Ok (send 400 (Text "Comment ID and user ID are required")))
        /\ V2.post_comments_unlike cid uid db
           = (db, Ok (send 400 (Text "Comment ID and user ID are required"))))
  /\ (forall aid uid,
        truthy_str aid && truthy_str uid = false ->
        V2.post_articles_like env aid uid db
        = (db, Ok (send 400 (Text "Missing article_id or user_id in request body")))
        /\ V2.post_articles_unlike aid uid db
           = (db, Ok (send 400
                        (Text "Missing article_id or user_id in request body")))).
Proof.
  split; [reflexivity|].
  split.
  { intros aid text parent [author|] H; [|reflexivity].
    unfold V2.post_comments, try_catch, ret.
    destruct (truthy_str aid), (truthy_str text); try discriminate; reflexivity. }
  split; [reflexivity|].
  split.
  { intros text cid H. unfold V2.patch_comments, try_catch, ret.
    destruct (truthy_str text), (truthy_str cid); try discriminate; reflexivity. }
  split.
  { intros cid uid H. split.
    - now apply V2_comment_like_guard.
    - now apply V2_comment_unlike_guard. }
  intros aid uid H. split.
  - now apply V2_article_like_guard.
  - now apply V2_article_unlike_guard.
Qed.

Lemma missing_fields_rejected_witness :
  truthy_str "c2" && truthy_str EmptyString = false
  /\ V2.post_comments_like "c2" EmptyString sample_db
     = (sample_db, Ok (send 400 (Text "Comment ID and user ID are required")))
  /\ V2.patch_comments EmptyString "c2" sample_db
     = (sample_db,
        Ok (send 400 (Text "Update content and comment ID are required"))).
Proof.
  assert (H : truthy_str "c2" && truthy_str EmptyString = false) by reflexivity.
  split; [exact H|].
  destruct (missing_fields_rejected some_env 5 sample_db)
    as (_ & _ & _ & Rp & Rl & _).
  split.
  - exact (proj1 (Rl "c2" EmptyString H)).
  - exact (Rp EmptyString "c2" eq_refl).
Defined.

(** ** Updating a body, continued *)

Lemma update_first_twice {A} (p : A -> bool) (f g : A -> A) (l : list A) :
  (forall x, p x = true -> p (f x) = true) ->
  update_first p g (update_first p f l)
  = update_first p (fun x => g (f x)) l.
Proof.
  intros H. induction l as [|x l IH]; simpl; [reflexivity|].
  destruct (p x) eqn:E; simpl.
  - now rewrite (H x E).
  - now rewrite E, IH.
Qed.

Lemma has_id_with_body cid text c :
  Comment.has_id cid (with_body text c) = Comment.has_id cid c.
Proof. destruct c; reflexivity. Qed.

(** the comment [cid] of [db], stored as [c], has its body replaced by
    [text] in [db'] and no other document differs *)
Definition body_replaced (db db' : DB) (cid text : string) (c : IComment.t)
    : Prop :=
  find (Comment.has_id cid) (comments db')
  = Some (IComment.mk (IComment._id c) (IComment.article_id c) text
            (IComment.parent c) (IComment.likes c) (IComment.likes_count c)
            (IComment.replies_count c) (IComment.created_at c)
            (IComment.author c))
  /\ (forall other, other <> cid ->
        find (Comment.has_id other) (comments db')
        = find (Comment.has_id other) (comments db))
  /\ ids (comments db') = ids (comments db)
  /\ articles db' = articles db.

Lemma body_replaced_by_update db db' cid text c :
  find (Comment.has_id cid) (comments db) = Some c ->
  comments db' = update_first (Comment.has_id cid) (with_body text) (comments db) ->
  articles db' = articles db ->
  body_replaced db db' cid text c.
Proof.
  intros Hf Hc Ha. unfold body_replaced. rewrite Hc.
  split; [|split; [|split]]; auto.
  - rewrite <- with_body_fields. apply find_update_first; auto.
    rewrite has_id_with_body. now apply find_some in Hf.
  - intros other Hne. apply find_update_first_other.
    intros x Hx. rewrite has_id_with_body.
    unfold Comment.has_id in *. apply String.eqb_eq in Hx.
    assert (E : (IComment._id x =? other)%string = false)
      by (apply String.eqb_neq; congruence).
    auto.
  - apply update_first_map. intros []; reflexivity.
Qed.

(** X6. A patch of a stored comment replaces its [body] and nothing else:
    every other field of the comment, every other comment and every article
    is as before (no counter moves); the second form sends the updated
    comment back. A second patch overrides the first. *)
Theorem patch_replaces_body db cid text c :
  find (Comment.has_id cid) (comments db) = Some c ->
  body_replaced db (fst (V1.patch_comments text cid db)) cid text c
  /\ snd (V1.patch_comments text cid db) = Ok (send 200 Empty)
  /\ (truthy_str text = true -> truthy_str cid = true ->
      body_replaced db (fst (V2.patch_comments text cid db)) cid text c
      /\ snd (V2.patch_comments text cid db)
         = Ok (send 200 (CommentDoc (with_body text c))))
  /\ (forall text',
        comments (fst (V1.patch_comments text' cid
                         (fst (V1.patch_comments text cid db))))
        = comments (fst (V1.patch_comments text' cid db))).
Proof.
  intros Hf.
  destruct (@patch_existing_comment db cid text c Hf) as (C1 & A1 & S1 & R2).
  split; [now apply body_replaced_by_update|].
  split; [exact S1|].
  split.
  - intros G1 G2. destruct (R2 G1 G2) as (C2 & A2 & S2).
    split; [now apply body_replaced_by_update|exact S2].
  - intros text'.
    unfold V1.patch_comments, try_catch, bind, Comment.findByIdAndUpdate, ret.
    db_simpl. rewrite update_first_twice.
    + apply update_first_ext. intros []; reflexivity.
    + intros x Hx. change (apply_ops update_comment [SetStr body text] x)
        with (with_body text x). now rewrite has_id_with_body.
Qed.

Lemma patch_replaces_body_witness :
  find (Comment.has_id "c2") (comments sample_db)
  = Some (IComment.mk "c2" "a1" "first reply" (Some "c1") [] 0 1 200 ann)
  /\ body_replaced sample_db (fst (V1.patch_comments "edited" "c2" sample_db))
       "c2" "edited"
       (IComment.mk "c2" "a1" "first reply" (Some "c1") [] 0 1 200 ann).
Proof.
  assert (H : find (Comment.has_id "c2") (comments sample_db)
              = Some (IComment.mk "c2" "a1" "first reply" (Some "c1")
                        [] 0 1 200 ann)) by reflexivity.
  split; [exact H|].
  exact (proj1 (@patch_replaces_body sample_db "c2" "edited" _ H)).
Defined.

(** ** The likes invariant *)

(** [likes] holds no user twice and [likes_count] is its length *)
Definition likes_ok (l : list string) (n : Z) : Prop :=
  NoDup l /\ n = Z.of_nat (List.length l).

Definition comment_likes_ok (c : IComment.t) : Prop :=
  likes_ok (IComment.likes c) (IComment.likes_count c).

Definition article_likes_ok (a : IArticle.t) : Prop :=
  likes_ok (IArticle.likes a) (IArticle.likes_count a).

Definition likes_consistent (db : DB) : Prop :=
  Forall comment_likes_ok (comments db) /\ Forall article_likes_ok (articles db).

Lemma includes_In l u : includes l u = true <-> In u l.
Proof.
  unfold includes. rewrite existsb_exists. split.
  - intros (x & Hx & E). apply String.eqb_eq in E. now subst.
  - intros H. exists u. split; [exact H|apply String.eqb_refl].
Qed.

Lemma likes_ok_push l n u :
  likes_ok l n -> includes l u = false -> likes_ok (l ++ [u]) (n + 1).
Proof.
  intros [Hnd Hn] Hi. split.
  - apply NoDup_app; auto.
    + repeat constructor. intros [].
    + intros a Ha [<-|[]]. apply includes_In in Ha. congruence.
  - rewrite length_app. simpl. lia.
Qed.

Lemma pull_length l u :
  NoDup l -> In u l -> S (List.length (pull u l)) = List.length l.
Proof.
  unfold pull. induction l as [|x l IH]; simpl; [tauto|].
  intros Hnd Hin. inversion Hnd as [|? ? Hx Hl]; subst.
  destruct (String.eqb_spec x u) as [->|Hne]; simpl.
  - f_equal. clear IH Hnd Hin Hl.
    induction l as [|y l IH]; simpl; [reflexivity|].
    destruct (String.eqb_spec y u) as [->|Hy]; simpl.
    + exfalso. apply Hx. now left.
    + f_equal. apply IH. intros H. apply Hx. now right.
  - f_equal. apply IH; auto. destruct Hin; [contradiction|assumption].
Qed.

Lemma likes_ok_pull l n u :
  likes_ok l n -> includes l u = true -> likes_ok (pull u l) (n - 1).
Proof.
  intros [Hnd Hn] Hi. apply includes_In in Hi. split.
  - now apply NoDup_filter.
  - pose proof (@pull_length l u Hnd Hi). lia.
Qed.

Lemma Forall_update_found {A} (P : A -> Prop) (p : A -> bool) (f : A -> A)
    (l : list A) (x : A) :
  find p l = Some x -> P (f x) -> Forall P l -> Forall P (update_first p f l).
Proof.
  induction l as [|y l IH]; simpl; [discriminate|].
  intros Hf Hx Hl. inversion Hl; subst.
  destruct (p y); [injection Hf as ->|]; constructor; auto.
Qed.

Lemma Forall_update_all {A} (P : A -> Prop) (p : A -> bool) (f : A -> A)
    (l : list A) :
  (forall x, P x -> P (f x)) -> Forall P l -> Forall P (update_first p f l).
Proof.
  intros H. induction l as [|y l IH]; simpl; intros Hl; [constructor|].
  inversion Hl; subst. destruct (p y); constructor; auto.
Qed.

Lemma comment_liked_ok u c :
  comment_likes_ok c -> includes (IComment.likes c) u = false ->
  comment_likes_ok (liked u c).
Proof.
  unfold comment_likes_ok. rewrite liked_fields. simpl. apply likes_ok_push.
Qed.

Lemma comment_unliked_ok u c :
  comment_likes_ok c -> includes (IComment.likes c) u = true ->
  comment_likes_ok (unliked u c).
Proof.
  unfold comment_likes_ok. rewrite unliked_fields. simpl. apply likes_ok_pull.
Qed.

Lemma article_liked_ok u a :
  article_likes_ok a -> includes (IArticle.likes a) u = false ->
  article_likes_ok (liked_article u a).
Proof.
  unfold article_likes_ok. rewrite liked_article_fields. simpl.
  apply likes_ok_push.
Qed.

Lemma article_unliked_ok u a :
  article_likes_ok a -> includes (IArticle.likes a) u = true ->
  article_likes_ok (unliked_article u a).
Proof.
  unfold article_likes_ok. rewrite unliked_article_fields. simpl.
  apply likes_ok_pull.
Qed.

Lemma first_like_ok env aid uid : article_likes_ok (first_like env aid uid).
Proof.
  split; simpl; [|reflexivity]. repeat constructor. intros [].
Qed.

Lemma found_ok {A} (P : A -> Prop) (p : A -> bool) (l : list A) (x : A) :
  find p l = Some x -> Forall P l -> P x.
Proof.
  intros Hf Hl. apply find_some in Hf. rewrite Forall_forall in Hl.
  apply Hl, Hf.
Qed.

Ltac likes_cases :=
  repeat match goal with
         | |- context [find ?p ?l] =>
             let E := fresh "E" in destruct (find p l) eqn:E
         | |- context [includes ?l ?u] =>
             let I := fresh "I" in destruct (includes l u) eqn:I
         end.

(** X7. The like and unlike handlers keep the likes invariant: if in every
    comment and article [likes] holds no user twice and [likes_count] is the
    length of [likes], the same holds after any of the eight handlers, with
    whatever ids they are called. *)
Theorem likes_invariant_kept env db cid aid uid :
  likes_consistent db ->
  likes_consistent (fst (V1.post_comments_like cid uid db))
  /\ likes_consistent (fst (V1.post_comments_unlike cid uid db))
  /\ likes_consistent (fst (V2.post_comments_like cid uid db))
  /\ likes_consistent (fst (V2.post_comments_unlike cid uid db))
  /\ likes_consistent (fst (V1.post_articles_like env aid uid db))
  /\ likes_consistent (fst (V1.post_articles_unlike aid uid db))
  /\ likes_consistent (fst (V2.post_articles_like env aid uid db))
  /\ likes_consistent (fst (V2.post_articles_unlike aid uid db)).
Proof.
  intros [Hc Ha].
  assert (C1 : likes_consistent (fst (V1.post_comments_like cid uid db))).
  { rewrite V1_comment_like. likes_cases; db_simpl; split; auto.
    eapply Forall_update_found; eauto.
    apply comment_liked_ok; auto. eapply found_ok; eauto. }
  assert (C2 : likes_consistent (fst (V1.post_comments_unlike cid uid db))).
  { rewrite V1_comment_unlike. likes_cases; db_simpl; split; auto.
    eapply Forall_update_found; eauto.
    apply comment_unliked_ok; auto. eapply found_ok; eauto. }
  assert (A1 : likes_consistent (fst (V1.post_articles_like env aid uid db))).
  { rewrite V1_article_like. likes_cases; db_simpl; split; auto.
    - eapply Forall_update_found; eauto.
      apply article_liked_ok; auto. eapply found_ok; eauto.
    - apply Forall_app. split; auto.
      constructor; [apply first_like_ok|constructor]. }
  assert (A2 : likes_consistent (fst (V1.post_articles_unlike aid uid db))).
  { rewrite V1_article_unlike. likes_cases; db_simpl; split; auto.
    eapply Forall_update_found; eauto.
    apply article_unliked_ok; auto. eapply found_ok; eauto. }
  split; [exact C1|]. split; [exact C2|].
  split.
  { destruct (truthy_str cid && truthy_str uid) eqn:G.
    - apply andb_true_iff in G. destruct G as [G1 G2].
      rewrite V2_comment_like by assumption.
      rewrite V1_comment_like in C1. revert C1.
      likes_cases; db_simpl; auto.
    - rewrite V2_comment_like_guard by assumption. split; auto. }
  split.
  { destruct (truthy_str cid && truthy_str uid) eqn:G.
    - apply andb_true_iff in G. destruct G as [G1 G2].
      rewrite V2_comment_unlike by assumption.
      rewrite V1_comment_unlike in C2. revert C2.
      likes_cases; db_simpl; auto.
    - rewrite V2_comment_unlike_guard by assumption. split; auto. }
  split; [exact A1|]. split; [exact A2|].
  split.
  { destruct (truthy_str aid && truthy_str uid) eqn:G.
    - apply andb_true_iff in G. destruct G as [G1 G2].
      rewrite V2_article_like by assumption.
      rewrite V1_article_like in A1. revert A1.
      likes_cases; db_simpl; auto.
    - rewrite V2_article_like_guard by assumption. split; auto. }
  destruct (truthy_str aid && truthy_str uid) eqn:G.
  - apply andb_true_iff in G. destruct G as [G1 G2].
    rewrite V2_article_unlike by assumption.
    rewrite V1_article_unlike in A2. revert A2.
    likes_cases; db_simpl; auto.
  - rewrite V2_article_unlike_guard by assumption. split; auto.
Qed.

Ltac likes_concrete :=
  split; repeat constructor; simpl; intuition discriminate.

Lemma likes_invariant_kept_witness :
  likes_consistent sample_db
  /\ likes_consistent (fst (V1.post_comments_like "c2" "u3" sample_db))
  /\ likes_consistent (fst (V2.post_articles_unlike "a1" "u7" sample_db)).
Proof.
  assert (H : likes_consistent sample_db) by likes_concrete.
  split; [exact H|].
  destruct (@likes_invariant_kept some_env sample_db "c2" "a1" "u3" H)
    as (R1 & _).
  destruct (@likes_invariant_kept some_env sample_db "c2" "a1" "u7" H)
    as (_ & _ & _ & _ & _ & _ & _ & R2).
  split; [exact R1|exact R2].
Defined.

(** ** The documents a deletion leaves *)

(** [cs] without the documents whose id is in [R], in the order of [cs] *)
Definition without (R : list string) (cs : list IComment.t) : list IComment.t :=
  filter (fun c => negb (includes R (IComment._id c))) cs.

Lemma without_nil cs : without [] cs = cs.
Proof.
  unfold without. apply forallb_filter_id, forallb_forall. reflexivity.
Qed.

Lemma includes_app R1 R2 u : includes (R1 ++ R2) u = includes R1 u || includes R2 u.
Proof. unfold includes. apply existsb_app. Qed.

Lemma without_app R1 R2 cs : without R2 (without R1 cs) = without (R1 ++ R2) cs.
Proof.
  unfold without. induction cs as [|c cs IH]; cbn [filter]; [reflexivity|].
  rewrite includes_app.
  destruct (includes R1 (IComment._id c)); cbn [negb orb filter]; [exact IH|].
  destruct (includes R2 (IComment._id c)); cbn [negb]; now rewrite IH.
Qed.

Lemma remove_first_without cid cs :
  NoDup (ids cs) -> remove_first (Comment.has_id cid) cs = without [cid] cs.
Proof.
  unfold without, ids. induction cs as [|c cs IH]; simpl; [reflexivity|].
  intros H. inversion H as [|? ? Hn Hd]; subst.
  unfold Comment.has_id at 1. rewrite orb_false_r.
  destruct (String.eqb_spec (IComment._id c) cid) as [E|E]; simpl.
  - symmetry. apply forallb_filter_id. apply forallb_forall. intros x Hx.
    rewrite orb_false_r. apply negb_true_iff, String.eqb_neq.
    intros E'. apply Hn. rewrite E, <- E'. now apply in_map.
  - now rewrite IH.
Qed.

(** a computation that only takes comments away, keeping the others in
    order, and leaves the articles alone *)
Definition keeps_rest {A} (m : M A) : Prop :=
  forall db, NoDup (ids (comments db)) ->
    exists R, comments (fst (m db)) = without R (comments db)
              /\ articles (fst (m db)) = articles db.

Lemma without_NoDup R cs : NoDup (ids cs) -> NoDup (ids (without R cs)).
Proof. apply ids_filter_NoDup. Qed.

Lemma keeps_rest_bind {A B} (m : M A) (k : A -> M B) :
  keeps_rest m -> (forall a, keeps_rest (k a)) -> keeps_rest (bind m k).
Proof.
  intros Hm Hk db Hnd. destruct (Hm db Hnd) as (R1 & C1 & A1).
  unfold bind. destruct (m db) as [db1 [a|msg|]]; simpl in *.
  - assert (Hnd1 : NoDup (ids (comments db1)))
      by (rewrite C1; now apply without_NoDup).
    destruct (Hk a db1 Hnd1) as (R2 & C2 & A2).
    exists (R1 ++ R2). rewrite C2, C1, A2, A1. split; [apply without_app|auto].
  - exists R1. auto.
  - exists R1. auto.
Qed.

Lemma keeps_rest_same {A} (r : DB -> res A) (calls' : DB -> DB) :
  (forall db, comments (calls' db) = comments db
              /\ articles (calls' db) = articles db) ->
  keeps_rest (fun db => (calls' db, r db)).
Proof.
  intros H db _. exists []. simpl. rewrite without_nil. apply H.
Qed.

Lemma keeps_rest_for_of {A B} (f : A -> B -> M B) (xs : list A) :
  (forall x b, keeps_rest (f x b)) -> forall b, keeps_rest (for_of_acc xs f b).
Proof.
  intros H. induction xs as [|x xs IH]; intros b; simpl.
  - apply (keeps_rest_same (fun _ => Ok b) (fun db => db)). auto.
  - apply keeps_rest_bind; auto.
Qed.

Lemma keeps_rest_delete_tree msg fuel :
  forall cid cnt, keeps_rest (delete_tree msg fuel cid cnt).
Proof.
  induction fuel as [|fuel IH]; intros cid cnt.
  - apply (keeps_rest_same (fun _ => OutOfFuel) (fun db => db)). auto.
  - cbn [delete_tree]. apply keeps_rest_bind.
    + intros db Hnd. exists [cid]. simpl.
      split; [now apply remove_first_without|reflexivity].
    + intros [comment|].
      * apply keeps_rest_bind.
        -- apply (keeps_rest_same
                    (fun db => Ok (filter (Comment.has_parent (IComment._id comment))
                                          (comments db)))
                    (log (Query CommentsColl))). auto.
        -- intros L. apply keeps_rest_for_of. intros x b. apply IH.
      * apply (keeps_rest_same (fun _ => Throw msg) (fun db => db)). auto.
Qed.

Lemma find_unique cs q :
  NoDup (ids cs) -> In q cs -> find (Comment.has_id (IComment._id q)) cs = Some q.
Proof.
  intros Hnd Hq.
  destruct (@find_by_id cs (IComment._id q)) as (n & Hf & Hid & Hn).
  { now apply in_map. }
  rewrite Hf. f_equal.
  exact (@same_id_same_comment cs n q Hnd Hn Hq Hid).
Qed.

Lemma delete_tree_docs msg fuel db cid target :
  NoDup (ids (comments db)) ->
  find (Comment.has_id cid) (comments db) = Some target ->
  (List.length (comments db) <= fuel)%nat ->
  exists D cnt db1 R,
    delete_tree msg fuel cid (mkCounters 0 0) db = (db1, Ok cnt)
    /\ removed db (target :: D) (mkCounters 0 0) db1 cnt
    /\ (forall c, In c D -> descendant (comments db) cid (IComment._id c))
    /\ (forall c, In c D -> IComment._id c <> cid)
    /\ comments db1 = without R (comments db).
Proof.
  intros Hnd Hf Hlen.
  destruct (find_by_id_inv _ _ Hf) as [Hid Hin].
  destruct (@delete_tree_ok msg fuel db cid (mkCounters 0 0))
    as (db1 & cnt & n & D & E & Hf' & R & Hd & Hne); auto.
  { rewrite <- Hid. now apply in_map. }
  rewrite Hf in Hf'. injection Hf' as <-.
  destruct (@keeps_rest_delete_tree msg fuel cid (mkCounters 0 0) db Hnd)
    as (Rs & HC & _).
  rewrite E in HC. exists D, cnt, db1, Rs. auto.
Qed.

Lemma V1_delete_after fuel db cid target db1 cnt :
  find (Comment.has_id cid) (comments db) = Some target ->
  delete_tree "Comment not found" fuel cid (mkCounters 0 0)
    (log (Query CommentsColl) db) = (db1, Ok cnt) ->
  V1.delete_comments fuel cid db
  = (finished target cnt db1,
     Ok (match find (Article.has_article_id (IComment.article_id target))
                    (articles db1) with
         | Some a => send 200 (ArticleDoc (decremented cnt a))
         | None => send 500 (ErrorMessage "No article found")
         end)).
Proof.
  intros Hf E.
  unfold V1.delete_comments, V1.delete_comments_try, try_catch.
  unfold bind at 1, Comment.findById.
  rewrite Hf. unfold bind at 1. rewrite V1_delete_tree, E.
  rewrite <- finished_eq.
  destruct (IComment.parent target) as [p|]; [destruct (truthy_str p)|];
    unfold bind, ret, throw, Comment.findByIdAndUpdate,
      Article.findOneAndUpdate; simpl;
    fold (article_fixed target cnt (articles db1));
    destruct (find _ (articles db1)); simpl; reflexivity.
Qed.

Lemma V2_delete_after fuel db cid target db1 cnt :
  truthy_str cid = true ->
  find (Comment.has_id cid) (comments db) = Some target ->
  delete_tree "Comment deletion failed" fuel cid (mkCounters 0 0)
    (log (Query CommentsColl) db) = (db1, Ok cnt) ->
  V2.delete_comments fuel cid db
  = (finished target cnt db1,
     Ok (match find (Article.has_article_id (IComment.article_id target))
                    (articles db1) with
         | Some a => send 200 (ArticleDoc (decremented cnt a))
         | None => send 500 (ErrorMessage "Server error")
         end)).
Proof.
  intros Hcid Hf E.
  unfold V2.delete_comments, V2.delete_comments_try, try_catch.
  rewrite Hcid. cbn [negb].
  unfold bind at 1, Comment.findById.
  rewrite Hf. unfold bind at 1. rewrite V2_delete_tree, E.
  rewrite <- finished_eq.
  destruct (IComment.parent target) as [p|]; [destruct (truthy_str p)|];
    unfold bind, ret, throw, Comment.findByIdAndUpdate,
      Article.findOneAndUpdate; cbn [fst snd option_map log set_comments
        set_articles comments articles calls];
    fold (counters_update cnt);
    fold (article_fixed target cnt (articles db1));
    destruct (find _ (articles db1)); cbn [option_map];
    rewrite ?apply_counters_update; reflexivity.
Qed.

(** What both delete handlers do to the store, in one statement: the
    comments that stay are those the deleted list [D] does not hold, in
    store order, with the parent's counter fixed; the article of the target
    has the two counters of [D] taken off. *)
Record deleted (fuel : nat) (db : DB) (cid : string) (target : IComment.t)
    (D : list IComment.t) (keep : IComment.t -> bool) : Prop := {
  del_nodup : NoDup D;
  del_target : In target D;
  del_subtree : forall c, In c D <->
      In c (comments db) /\ descendant (comments db) cid (IComment._id c);
  del_keep : forall c, In c (comments db) -> (keep c = true <-> ~ In c D);
  del_replies : forall c, In c D -> c <> target -> is_reply c = true;
  del_perm : Permutation (comments db) (D ++ filter keep (comments db));
  del_comments_V1 :
    comments (fst (V1.delete_comments fuel cid db))
    = parent_fixed target (filter keep (comments db));
  del_comments_V2 :
    comments (fst (V2.delete_comments fuel cid db))
    = parent_fixed target (filter keep (comments db));
  del_articles_V1 :
    articles (fst (V1.delete_comments fuel cid db))
    = update_first (Article.has_article_id (IComment.article_id target))
        (decremented (mkCounters (count is_first_level D) (count is_reply D)))
        (articles db);
  del_articles_V2 :
    articles (fst (V2.delete_comments fuel cid db))
    = update_first (Article.has_article_id (IComment.article_id target))
        (decremented (mkCounters (count is_first_level D) (count is_reply D)))
        (articles db);
  del_sent_V1 :
    snd (V1.delete_comments fuel cid db)
    = Ok (match find (Article.has_article_id (IComment.article_id target))
                     (articles db) with
          | Some a =>
              send 200 (ArticleDoc
                (decremented
                   (mkCounters (count is_first_level D) (count is_reply D)) a))
          | None => send 500 (ErrorMessage "No article found")
          end);
  del_sent_V2 :
    snd (V2.delete_comments fuel cid db)
    = Ok (match find (Article.has_article_id (IComment.article_id target))
                     (articles db) with
          | Some a =>
              send 200 (ArticleDoc
                (decremented
                   (mkCounters (count is_first_level D) (count is_reply D)) a))
          | None => send 500 (ErrorMessage "Server error")
          end)
}.

Lemma delete_effect fuel db cid target :
  wf_comments (comments db) ->
  find (Comment.has_id cid) (comments db) = Some target ->
  (List.length (comments db) <= fuel)%nat ->
  exists D keep, deleted fuel db cid target D keep.
Proof.
  intros Hwf Hf Hlen.
  destruct (find_by_id_inv _ _ Hf) as [Hid Hin].
  pose proof (@wf_truthy_id _ _ Hwf Hin) as Hcid. rewrite Hid in Hcid.
  destruct (@delete_tree_docs "Comment not found" fuel
              (log (Query CommentsColl) db) cid target (proj1 Hwf) Hf Hlen)
    as (D & cnt & db1 & R & E & Rm & Hd & Hne & HC).
  pose proof (@delete_tree_message _ "Comment deletion failed" _ _ _ _ _ _ E)
    as E2.
  destruct (@deleted_docs (log (Query CommentsColl) db) cid target D cnt db1
              (proj1 Hwf) Hf Rm Hd) as (N & M & C).
  pose proof (@first_level_only_target (log (Query CommentsColl) db) cid target
                D cnt db1 Hwf Hf Rm Hd Hne) as F.
  simpl comments in *.
  assert (P : Permutation (comments db) ((target :: D) ++ comments db1))
    by apply (rm_perm Rm).
  assert (Hnd' : NoDup (ids ((target :: D) ++ comments db1))).
  { eapply Permutation_NoDup; [apply Permutation_map, P|apply Hwf]. }
  assert (HW : filter (fun c => negb (includes R (IComment._id c))) (comments db)
               = comments db1) by (symmetry; exact HC).
  exists (target :: D), (fun c => negb (includes R (IComment._id c))).
  constructor.
  - exact N.
  - now left.
  - exact M.
  - intros c Hc. split.
    + intros Hk H2.
      assert (H1 : In c (comments db1)).
      { rewrite <- HW. apply filter_In. auto. }
      unfold ids in Hnd'. rewrite map_app in Hnd'.
      eapply NoDup_app_disjoint; [exact Hnd'| |]; apply in_map; eauto.
    + intros H.
      pose proof (Permutation_in _ P Hc) as Hc'.
      apply in_app_or in Hc'. destruct Hc' as [Hc'|Hc']; [contradiction|].
      rewrite <- HW in Hc'. apply filter_In in Hc'. apply Hc'.
  - intros c [<-|Hc] Hne'; [contradiction|auto].
  - rewrite HW. exact P.
  - rewrite HW, (@V1_delete_after fuel db cid target db1 cnt Hf E). reflexivity.
  - rewrite HW, (@V2_delete_after fuel db cid target db1 cnt Hcid Hf E2).
    reflexivity.
  - rewrite (@V1_delete_after fuel db cid target db1 cnt Hf E).
    cbn [fst finished articles].
    rewrite (rm_articles Rm), article_fixed_decremented, C. reflexivity.
  - rewrite (@V2_delete_after fuel db cid target db1 cnt Hcid Hf E2).
    cbn [fst finished articles].
    rewrite (rm_articles Rm), article_fixed_decremented, C. reflexivity.
  - rewrite (@V1_delete_after fuel db cid target db1 cnt Hf E). cbn [snd].
    rewrite (rm_articles Rm), C. reflexivity.
  - rewrite (@V2_delete_after fuel db cid target db1 cnt Hcid Hf E2). cbn [snd].
    rewrite (rm_articles Rm), C. reflexivity.
Qed.

Lemma In_update_first_other {A} (p : A -> bool) (f : A -> A) (l : list A) x :
  In x l -> p x = false -> In x (update_first p f l).
Proof.
  induction l as [|y l IH]; simpl; [tauto|].
  intros [->|H] Hp.
  - rewrite Hp. now left.
  - destruct (p y); right; auto.
Qed.

Lemma deleted_keep_descendant fuel db cid target D keep :
  deleted fuel db cid target D keep ->
  forall c, In c (comments db) ->
    (keep c = true <-> ~ descendant (comments db) cid (IComment._id c)).
Proof.
  intros H c Hc. rewrite (del_keep H c Hc), (del_subtree H c). tauto.
Qed.

Definition one_reply_less (q : IComment.t) : IComment.t :=
  IComment.mk (IComment._id q) (IComment.article_id q) (IComment.body q)
    (IComment.parent q) (IComment.likes q) (IComment.likes_count q)
    (IComment.replies_count q - 1) (IComment.created_at q) (IComment.author q).

Lemma dec_replies_fields q :
  apply_ops update_comment [Inc replies_count (-1)] q = one_reply_less q.
Proof. destruct q; reflexivity. Qed.

(** X8. After a delete of a stored comment the collection is the old one,
    in the same order, without the documents of the subtree; the documents
    that stay are untouched, except that the comment the target names as its
    parent, when it is stored outside the subtree, has [replies_count] one
    lower. No ancestor further up is touched. *)
Theorem delete_leaves_rest fuel db cid target :
  wf_comments (comments db) ->
  find (Comment.has_id cid) (comments db) = Some target ->
  (List.length (comments db) <= fuel)%nat ->
  exists keep,
    (forall c, In c (comments db) ->
       (keep c = true <-> ~ descendant (comments db) cid (IComment._id c)))
    /\ comments (fst (V1.delete_comments fuel cid db))
       = parent_fixed target (filter keep (comments db))
    /\ comments (fst (V2.delete_comments fuel cid db))
       = parent_fixed target (filter keep (comments db))
    /\ (forall c, In c (comments db) -> keep c = true ->
          IComment.parent target <> Some (IComment._id c) ->
          In c (parent_fixed target (filter keep (comments db))))
    /\ (forall p q,
          IComment.parent target = Some p ->
          find (Comment.has_id p) (comments db) = Some q ->
          keep q = true ->
          find (Comment.has_id p)
               (parent_fixed target (filter keep (comments db)))
          = Some (one_reply_less q)).
Proof.
  intros Hwf Hf Hlen.
  destruct (@delete_effect fuel db cid target Hwf Hf Hlen) as (D & keep & H).
  exists keep.
  split; [exact (deleted_keep_descendant H)|].
  split; [exact (del_comments_V1 H)|].
  split; [exact (del_comments_V2 H)|].
  split.
  - intros c Hc Hk Hp.
    assert (Hin : In c (filter keep (comments db))) by (apply filter_In; auto).
    unfold parent_fixed.
    destruct (truthy (IComment.parent target)); [|exact Hin].
    destruct (IComment.parent target) as [p|]; [|exact Hin].
    apply In_update_first_other; [exact Hin|].
    unfold Comment.has_id. apply String.eqb_neq. congruence.
  - intros p q Hp Hq Hk.
    destruct (find_by_id_inv _ _ Hq) as [Hid Hin].
    assert (Hpt : truthy_str p = true).
    { rewrite <- Hid. eapply wf_truthy_id; eauto. }
    unfold parent_fixed. rewrite Hp. cbn [truthy]. rewrite Hpt.
    rewrite <- dec_replies_fields. apply find_update_first.
    + rewrite <- Hid. apply find_unique.
      * apply ids_filter_NoDup, Hwf.
      * apply filter_In. auto.
    + rewrite dec_replies_fields. unfold Comment.has_id. simpl.
      rewrite Hid. apply String.eqb_refl.
Qed.

Lemma delete_leaves_rest_witness :
  wf_comments (comments sample_db)
  /\ find (Comment.has_id "c2") (comments sample_db)
     = Some (IComment.mk "c2" "a1" "first reply" (Some "c1") [] 0 1 200 ann)
  /\ (List.length (comments sample_db) <= 5)%nat
  /\ exists keep,
       comments (fst (V1.delete_comments 5 "c2" sample_db))
       = parent_fixed
           (IComment.mk "c2" "a1" "first reply" (Some "c1") [] 0 1 200 ann)
           (filter keep (comments sample_db)).
Proof.
  assert (H1 : wf_comments (comments sample_db)) by wf_concrete.
  assert (H2 : find (Comment.has_id "c2") (comments sample_db)
               = Some (IComment.mk "c2" "a1" "first reply" (Some "c1")
                         [] 0 1 200 ann)) by reflexivity.
  assert (H3 : (List.length (comments sample_db) <= 5)%nat) by (simpl; lia).
  split; [exact H1|]. split; [exact H2|]. split; [exact H3|].
  destruct (@delete_leaves_rest 5 sample_db "c2" _ H1 H2 H3)
    as (keep & _ & R & _).
  exists keep. exact R.
Defined.

(** ** The article counters as an invariant *)

(** the number of comments of article [aid] that are replies
    ([reply = true]) or first level comments ([reply = false]) *)
Definition tally (aid : string) (reply : bool) (cs : list IComment.t) : Z :=
  count (fun c => String.eqb (IComment.article_id c) aid
                  && Bool.eqb (is_reply c) reply) cs.

Definition article_counts_ok (cs : list IComment.t) (a : IArticle.t) : Prop :=
  IArticle.comments_count a = tally (IArticle.article_id a) false cs
  /\ IArticle.replies_count a = tally (IArticle.article_id a) true cs.

(** one document per article id, a document for the article of every
    comment, and in each the two counters equal to the numbers of first
    level comments and of replies of the article *)
Definition counters_consistent (db : DB) : Prop :=
  NoDup (map IArticle.article_id (articles db))
  /\ (forall c, In c (comments db) ->
        In (IComment.article_id c) (map IArticle.article_id (articles db)))
  /\ Forall (article_counts_ok (comments db)) (articles db).

(** a comment and the comment it names as its parent are on one article *)
Definition one_article (cs : list IComment.t) : Prop :=
  forall c c', In c cs -> In c' cs ->
    IComment.parent c = Some (IComment._id c') ->
    IComment.article_id c = IComment.article_id c'.

Definition kinds (cs : list IComment.t) : list (string * option string) :=
  map (fun c => (IComment.article_id c, IComment.parent c)) cs.

Lemma tally_kinds aid r cs cs' :
  kinds cs = kinds cs' -> tally aid r cs = tally aid r cs'.
Proof.
  unfold tally, count, kinds. revert cs'.
  induction cs as [|c cs IH]; intros [|c' cs'] H; try discriminate;
    [reflexivity|].
  simpl in H. injection H as Ha Hp Hr. cbn [filter].
  assert (E : String.eqb (IComment.article_id c) aid
                && Bool.eqb (is_reply c) r
              = String.eqb (IComment.article_id c') aid
                && Bool.eqb (is_reply c') r)
    by (unfold is_reply; now rewrite Ha, Hp).
  rewrite E. pose proof (IH cs' Hr) as IH'.
  destruct (String.eqb (IComment.article_id c') aid
            && Bool.eqb (is_reply c') r);
    cbn [List.length]; rewrite ?Nat2Z.inj_succ; lia.
Qed.

Lemma kinds_parent_fixed target cs : kinds (parent_fixed target cs) = kinds cs.
Proof.
  unfold parent_fixed, kinds.
  destruct (truthy (IComment.parent target)); [|reflexivity].
  destruct (IComment.parent target); [|reflexivity].
  apply update_first_map. intros []; reflexivity.
Qed.

Lemma count_perm p (l l' : list IComment.t) :
  Permutation l l' -> count p l = count p l'.
Proof.
  intros H. unfold count. f_equal. apply Permutation_length.
  induction H; simpl.
  - constructor.
  - destruct (p x); auto.
  - destruct (p x), (p y); auto. apply perm_swap.
  - etransitivity; eauto.
Qed.

Lemma tally_split aid r cs D rest :
  Permutation cs (D ++ rest) -> tally aid r cs = tally aid r D + tally aid r rest.
Proof.
  intros H. unfold tally. rewrite (count_perm _ H). apply count_app.
Qed.

Lemma count_ext_in p q (l : list IComment.t) :
  (forall c, In c l -> p c = q c) -> count p l = count q l.
Proof.
  intros H. unfold count. f_equal. f_equal. now apply filter_ext_in.
Qed.

Lemma tally_own aid D :
  (forall c, In c D -> IComment.article_id c = aid) ->
  tally aid false D = count is_first_level D
  /\ tally aid true D = count is_reply D.
Proof.
  intros H. unfold tally. split; apply count_ext_in; intros c Hc;
    rewrite (H c Hc), String.eqb_refl; unfold is_first_level;
    destruct (is_reply c); reflexivity.
Qed.

Lemma tally_other aid aid' r D :
  (forall c, In c D -> IComment.article_id c = aid) -> aid' <> aid ->
  tally aid' r D = 0.
Proof.
  intros H Hne. unfold tally. apply count_none. intros c Hc.
  rewrite (H c Hc).
  destruct (String.eqb_spec aid aid'); [congruence|reflexivity].
Qed.

Lemma descendant_same_article cs cid target :
  NoDup (ids cs) -> one_article cs ->
  In target cs -> IComment._id target = cid ->
  forall i, descendant cs cid i ->
    forall c, In c cs -> IComment._id c = i ->
      IComment.article_id c = IComment.article_id target.
Proof.
  intros Hnd Hone Ht Hid i H.
  induction H as [|c0 p Hp IH Hc0 Hpar]; intros c Hc Hi.
  - f_equal. apply (@same_id_same_comment cs c target Hnd Hc Ht). congruence.
  - assert (c = c0)
      by exact (@same_id_same_comment cs c c0 Hnd Hc Hc0 Hi).
    subst c0.
    assert (Hpin : In p (ids cs)).
    { eapply descendant_in_store; [|exact Hp].
      rewrite <- Hid. now apply in_map. }
    unfold ids in Hpin. apply in_map_iff in Hpin.
    destruct Hpin as (c' & Hc'id & Hc').
    rewrite <- (IH c' Hc' Hc'id).
    apply Hone; auto. now rewrite Hc'id.
Qed.

Lemma Forall_update_unique {A K} (key : A -> K) (p : A -> bool) (f : A -> A)
    (Q : A -> Prop) (xs : list A) :
  NoDup (map key xs) ->
  (forall a b, p a = true -> p b = true -> key a = key b) ->
  (forall a, In a xs -> if p a then Q (f a) else Q a) ->
  Forall Q (update_first p f xs).
Proof.
  intros Hnd Hkey. induction xs as [|x xs IH]; simpl; intros H; [constructor|].
  inversion Hnd as [|? ? Hn Hd]; subst.
  pose proof (H x (or_introl eq_refl)) as Hx.
  destruct (p x) eqn:E.
  - constructor; [exact Hx|]. apply Forall_forall. intros b Hb.
    pose proof (H b (or_intror Hb)) as Hq.
    destruct (p b) eqn:Eb; [|exact Hq].
    exfalso. apply Hn. rewrite (Hkey x b E Eb). now apply in_map.
  - constructor; [exact Hx|]. apply IH; auto.
    intros a Ha. apply H. now right.
Qed.

Lemma counters_after_delete cs cs' xs target D :
  NoDup (map IArticle.article_id xs) ->
  Forall (article_counts_ok cs) xs ->
  (forall c, In c D -> IComment.article_id c = IComment.article_id target) ->
  (forall aid r, tally aid r cs = tally aid r D + tally aid r cs') ->
  Forall (article_counts_ok cs')
    (update_first (Article.has_article_id (IComment.article_id target))
       (decremented (mkCounters (count is_first_level D) (count is_reply D)))
       xs).
Proof.
  intros Hnd Hok HD Hsplit.
  apply (Forall_update_unique IArticle.article_id); auto.
  - intros a b Ha Hb. unfold Article.has_article_id in *.
    apply String.eqb_eq in Ha, Hb. congruence.
  - intros a Ha. rewrite Forall_forall in Hok. destruct (Hok a Ha) as [Hc Hr].
    unfold Article.has_article_id.
    destruct (String.eqb_spec (IArticle.article_id a)
                              (IComment.article_id target)) as [E|E].
    + destruct (@tally_own (IComment.article_id target) D HD) as [T1 T2].
      unfold article_counts_ok, decremented. simpl.
      rewrite Hc, Hr, E, !Hsplit, T1, T2. split; lia.
    + unfold article_counts_ok. rewrite Hc, Hr, !Hsplit.
      rewrite !(@tally_other _ _ _ D HD E). split; lia.
Qed.

Definition shape (c : IComment.t) : string * string * option string :=
  (IComment._id c, IComment.article_id c, IComment.parent c).

Lemma shapes_parent_fixed target cs :
  map shape (parent_fixed target cs) = map shape cs.
Proof.
  unfold parent_fixed.
  destruct (truthy (IComment.parent target)); [|reflexivity].
  destruct (IComment.parent target); [|reflexivity].
  apply update_first_map. intros []; reflexivity.
Qed.

(** every document of [cs'] has the id, article and parent of a document
    of [cs] *)
Definition shaped_like (cs' cs : list IComment.t) : Prop :=
  forall c, In c cs' -> exists c0, In c0 cs /\ shape c0 = shape c.

Lemma shaped_like_fixed target keep cs :
  shaped_like (parent_fixed target (filter keep cs)) cs.
Proof.
  intros c Hc. apply (in_map shape) in Hc. rewrite shapes_parent_fixed in Hc.
  apply in_map_iff in Hc. destruct Hc as (c0 & E & Hc0).
  apply filter_In in Hc0. exists c0. tauto.
Qed.

Lemma shaped_like_wf cs' cs :
  NoDup (ids cs') -> shaped_like cs' cs -> wf_comments cs -> wf_comments cs'.
Proof.
  intros Hnd Hs Hwf. split; [exact Hnd|].
  apply Forall_forall. intros c Hc. destruct (Hs c Hc) as (c0 & Hc0 & E).
  injection E as E _ _. rewrite <- E. eapply wf_truthy_id; eauto.
Qed.

Lemma shaped_like_one_article cs' cs :
  shaped_like cs' cs -> one_article cs -> one_article cs'.
Proof.
  intros Hs Hone c c' Hc Hc' Hp.
  destruct (Hs c Hc) as (c0 & Hc0 & E). destruct (Hs c' Hc') as (c0' & Hc0' & E').
  injection E as Ei Ea Ep. injection E' as Ei' Ea' Ep'.
  rewrite <- Ea, <- Ea'. apply Hone; auto. congruence.
Qed.

(** the parent a comment names is a stored comment *)
Definition parents_resolve (cs : list IComment.t) : Prop :=
  forall c p, In c cs -> IComment.parent c = Some p -> In p (ids cs).

Definition store_ok (db : DB) : Prop :=
  wf_comments (comments db) /\ parents_resolve (comments db)
  /\ one_article (comments db) /\ counters_consistent db.

Lemma store_ok_after_delete fuel db cid target D keep db' :
  store_ok db ->
  find (Comment.has_id cid) (comments db) = Some target ->
  deleted fuel db cid target D keep ->
  comments db' = parent_fixed target (filter keep (comments db)) ->
  articles db'
  = update_first (Article.has_article_id (IComment.article_id target))
      (decremented (mkCounters (count is_first_level D) (count is_reply D)))
      (articles db) ->
  store_ok db'.
Proof.
  intros (Hwf & Hres & Hone & Hnd & Hart & Hok) Hf H HC HA.
  destruct (find_by_id_inv _ _ Hf) as [Hid Hin].
  pose proof (shaped_like_fixed target keep (comments db)) as Hs.
  rewrite <- HC in Hs.
  assert (Hids : map IArticle.article_id (articles db')
                 = map IArticle.article_id (articles db)).
  { rewrite HA. apply update_first_map. intros []; reflexivity. }
  split; [|split; [|split; [|split; [|split]]]].
  - apply (shaped_like_wf (cs := comments db)); auto.
    rewrite HC, <- links_ids, links_parent_fixed, links_ids.
    apply ids_filter_NoDup, Hwf.
  - intros c p Hc Hp. destruct (Hs c Hc) as (c0 & Hc0 & E).
    injection E as Ei Ea Ep.
    assert (Hk0 : In c0 (filter keep (comments db))).
    { apply (in_map shape) in Hc. rewrite HC, shapes_parent_fixed in Hc.
      apply in_map_iff in Hc. destruct Hc as (c1 & E1 & Hc1).
      assert (c1 = c0); [|now subst].
      apply filter_In in Hc1.
      apply (@same_id_same_comment (comments db) c1 c0 (proj1 Hwf));
        try tauto.
      injection E1 as E1 _ _. congruence. }
    apply filter_In in Hk0. destruct Hk0 as [_ Hk0].
    assert (Hp0 : IComment.parent c0 = Some p) by congruence.
    pose proof (Hres c0 p Hc0 Hp0) as Hpin.
    unfold ids in Hpin. apply in_map_iff in Hpin.
    destruct Hpin as (q & Hq & Hqin).
    assert (Hkq : keep q = true).
    { apply (del_keep H q Hqin). intros HqD.
      apply (del_keep H c0 Hc0); [exact Hk0|].
      apply (del_subtree H). split; [exact Hc0|].
      apply (del_subtree H) in HqD. destruct HqD as [_ HqD].
      eapply desc_child; eauto. congruence. }
    rewrite HC, <- links_ids, links_parent_fixed, links_ids.
    rewrite <- Hq. apply in_map, filter_In. auto.
  - now apply (shaped_like_one_article (cs := comments db)).
  - now rewrite Hids.
  - intros c Hc. rewrite Hids. destruct (Hs c Hc) as (c0 & Hc0 & E).
    injection E as _ Ea _. rewrite <- Ea. auto.
  - rewrite HA. apply (counters_after_delete (cs := comments db)); auto.
    + intros c Hc. apply (del_subtree H) in Hc. destruct Hc as [Hc Hd].
      eapply descendant_same_article; eauto. apply Hwf.
    + intros aid r. rewrite (@tally_split aid r _ _ _ (del_perm H)). f_equal.
      apply tally_kinds. rewrite HC. symmetry. apply kinds_parent_fixed.
Qed.

(** X9. Deleting a stored comment keeps the store consistent. If ids are
    unique and non-empty, every parent that a comment names is a stored
    comment on the same article,
    every article id has one document, every comment's article has a
    document and each article's [comments_count] and [replies_count] are the
    numbers of its first level comments and of its replies, then all of
    this holds again after either delete handler. *)
Theorem delete_keeps_store_ok fuel db cid target :
  store_ok db ->
  find (Comment.has_id cid) (comments db) = Some target ->
  (List.length (comments db) <= fuel)%nat ->
  store_ok (fst (V1.delete_comments fuel cid db))
  /\ store_ok (fst (V2.delete_comments fuel cid db)).
Proof.
  intros Hok Hf Hlen.
  destruct (@delete_effect fuel db cid target (proj1 Hok) Hf Hlen)
    as (D & keep & H).
  split.
  - eapply store_ok_after_delete; eauto;
      [apply (del_comments_V1 H)|apply (del_articles_V1 H)].
  - eapply store_ok_after_delete; eauto;
      [apply (del_comments_V2 H)|apply (del_articles_V2 H)].
Qed.

Ltac store_ok_concrete :=
  split; [wf_concrete|];
  split; [intros c p Hc Hp; simpl in Hc;
          repeat (destruct Hc as [<-|Hc]; [|]); try contradiction;
          simpl in Hp; try discriminate; injection Hp as <-; simpl; tauto|];
  split; [intros c c' Hc Hc' Hp; simpl in Hc, Hc';
          repeat (destruct Hc as [<-|Hc]; [|]); try contradiction;
          repeat (destruct Hc' as [<-|Hc']; [|]); try contradiction;
          reflexivity || discriminate|];
  split; [repeat constructor; simpl; intuition discriminate|];
  split; [intros c Hc; simpl in Hc |- *; intuition (subst; simpl; auto)|];
  repeat constructor.

Lemma sample_store_ok : store_ok sample_db.
Proof. store_ok_concrete. Qed.

Lemma delete_keeps_store_ok_witness :
  store_ok sample_db
  /\ find (Comment.has_id "c2") (comments sample_db)
     = Some (IComment.mk "c2" "a1" "first reply" (Some "c1") [] 0 1 200 ann)
  /\ (List.length (comments sample_db) <= 5)%nat
  /\ store_ok (fst (V1.delete_comments 5 "c2" sample_db))
  /\ store_ok (fst (V2.delete_comments 5 "c2" sample_db)).
Proof.
  assert (H1 : store_ok sample_db) by store_ok_concrete.
  assert (H2 : find (Comment.has_id "c2") (comments sample_db)
               = Some (IComment.mk "c2" "a1" "first reply" (Some "c1")
                         [] 0 1 200 ann)) by reflexivity.
  assert (H3 : (List.length (comments sample_db) <= 5)%nat) by (simpl; lia).
  split; [exact H1|]. split; [exact H2|]. split; [exact H3|].
  exact (@delete_keeps_store_ok 5 sample_db "c2" _ H1 H2 H3).
Defined.

(** ** Creating a comment keeps the store consistent *)

Lemma shapes_parent_counted parent cs :
  map shape (parent_counted parent cs) = map shape cs.
Proof.
  unfold parent_counted. destruct parent as [p|]; [|reflexivity].
  destruct (truthy_str p); [|reflexivity].
  apply update_first_map. intros []; reflexivity.
Qed.

Lemma shapes_ids cs : map (fun s => fst (fst s)) (map shape cs) = ids cs.
Proof. unfold ids. rewrite map_map. reflexivity. Qed.

Lemma shapes_kinds cs :
  map (fun s => (snd (fst s), snd s)) (map shape cs) = kinds cs.
Proof. unfold kinds. rewrite map_map. reflexivity. Qed.

Lemma same_shapes_like cs' cs :
  map shape cs' = map shape cs -> shaped_like cs' cs.
Proof.
  intros E c Hc. apply (in_map shape) in Hc. rewrite E in Hc.
  apply in_map_iff in Hc. destruct Hc as (c0 & E0 & Hc0). eauto.
Qed.

Lemma same_shapes_resolve cs' cs :
  map shape cs' = map shape cs -> parents_resolve cs -> parents_resolve cs'.
Proof.
  intros E Hres c p Hc Hp.
  destruct (@same_shapes_like _ _ E c Hc) as (c0 & Hc0 & E0).
  injection E0 as _ _ Ep.
  rewrite <- shapes_ids, E, shapes_ids. apply (Hres c0); congruence.
Qed.

Lemma tally_app_one aid r cs c :
  tally aid r (cs ++ [c])
  = tally aid r cs
    + (if String.eqb (IComment.article_id c) aid && Bool.eqb (is_reply c) r
       then 1 else 0).
Proof.
  unfold tally. rewrite count_app. f_equal. unfold count. cbn [filter].
  destruct (_ && _); reflexivity.
Qed.

(** what a request to create a comment must bring for the store to stay
    consistent: a new, non-empty id, and no parent or a stored parent on the
    same article *)
Definition valid_new (env : Env) (db : DB) (aid : string)
    (parent : option string) : Prop :=
  truthy_str (comment_oid env) = true
  /\ ~ In (comment_oid env) (ids (comments db))
  /\ match parent with
     | None => True
     | Some p => exists q, find (Comment.has_id p) (comments db) = Some q
                           /\ IComment.article_id q = aid
     end.

Lemma is_reply_new env db aid text parent author :
  wf_comments (comments db) -> valid_new env db aid parent ->
  is_reply (new_comment env aid text parent author)
  = match parent with Some _ => true | None => false end.
Proof.
  intros Hwf (_ & _ & Hp). unfold is_reply. simpl.
  destruct parent as [p|]; [|reflexivity]. simpl.
  destruct Hp as (q & Hq & _). apply find_by_id_inv in Hq.
  destruct Hq as [<- Hq]. eapply wf_truthy_id; eauto.
Qed.

Lemma store_ok_after_create env db aid text parent author db' :
  store_ok db -> valid_new env db aid parent ->
  comments db'
  = parent_counted parent
      (comments db ++ [new_comment env aid text parent author]) ->
  articles db' = article_counted env aid parent (articles db) ->
  store_ok db'.
Proof.
  intros (Hwf & Hres & Hone & Hnd & Hart & Hok) Hv HC HA.
  pose proof (@is_reply_new env db aid text parent author Hwf Hv) as Hrep.
  destruct Hv as (Hnid & Hfresh & Hpar).
  set (new := new_comment env aid text parent author) in *.
  set (cs1 := comments db ++ [new]) in *.
  assert (Hsh : map shape (comments db') = map shape cs1)
    by (rewrite HC; apply shapes_parent_counted).
  assert (Hids1 : ids cs1 = ids (comments db) ++ [comment_oid env])
    by (unfold cs1, ids; now rewrite map_app).
  assert (Hwf1 : wf_comments cs1).
  { split.
    - rewrite Hids1. apply NoDup_app; [apply Hwf|repeat constructor; tauto|].
      intros a Ha [<-|[]]. contradiction.
    - apply Forall_app. split; [apply Hwf|]. repeat constructor. exact Hnid. }
  assert (Hres1 : parents_resolve cs1).
  { intros c p Hc Hp. rewrite Hids1. apply in_or_app. left.
    apply in_app_or in Hc. destruct Hc as [Hc|[<-|[]]].
    - eapply Hres; eauto.
    - simpl in Hp. subst parent. destruct Hpar as (q & Hq & _).
      apply find_by_id_inv in Hq. destruct Hq as [<- Hq]. now apply in_map. }
  assert (Hone1 : one_article cs1).
  { intros c c' Hc Hc' Hp.
    apply in_app_or in Hc. apply in_app_or in Hc'.
    destruct Hc as [Hc|[<-|[]]], Hc' as [Hc'|[<-|[]]].
    - now apply Hone.
    - exfalso. apply Hfresh. eapply Hres; eauto.
    - simpl in Hp. subst parent. destruct Hpar as (q & Hq & Ha).
      rewrite (@find_unique _ _ (proj1 Hwf) Hc') in Hq. injection Hq as <-.
      simpl. now rewrite Ha.
    - reflexivity. }
  assert (Htally : forall aid' r,
             tally aid' r (comments db')
             = tally aid' r (comments db)
               + (if String.eqb aid aid' && Bool.eqb (is_reply new) r
                  then 1 else 0)).
  { intros aid' r. transitivity (tally aid' r cs1).
    - apply tally_kinds. now rewrite <- !shapes_kinds, Hsh.
    - unfold cs1. rewrite tally_app_one. reflexivity. }
  split; [|split; [|split]].
  - apply (shaped_like_wf (cs := cs1)); auto.
    + rewrite <- shapes_ids, Hsh, shapes_ids. apply Hwf1.
    + now apply same_shapes_like.
  - now apply (@same_shapes_resolve _ cs1).
  - apply (shaped_like_one_article (cs := cs1)); auto.
    now apply same_shapes_like.
  - unfold article_counted in HA.
    destruct (find (Article.has_article_id aid) (articles db)) as [a|] eqn:Ef.
    + assert (Hk : map IArticle.article_id (articles db')
                   = map IArticle.article_id (articles db)).
      { rewrite HA. apply update_first_map.
        intros []. destruct (truthy parent); reflexivity. }
      split; [now rewrite Hk|]. split.
      * intros c Hc. rewrite Hk.
        destruct (@same_shapes_like _ _ Hsh c Hc) as (c0 & Hc0 & E0).
        injection E0 as _ Ea _. rewrite <- Ea.
        apply in_app_or in Hc0. destruct Hc0 as [Hc0|[<-|[]]]; auto.
        apply find_some in Ef. destruct Ef as [Ha1 Ha2].
        unfold Article.has_article_id in Ha2. apply String.eqb_eq in Ha2.
        simpl. rewrite <- Ha2. now apply in_map.
      * rewrite HA. apply (Forall_update_unique IArticle.article_id); auto.
        -- intros x y Hx Hy. unfold Article.has_article_id in *.
           apply String.eqb_eq in Hx, Hy. congruence.
        -- intros x Hx. rewrite Forall_forall in Hok.
           destruct (Hok x Hx) as [Hc Hr].
           assert (Ht : truthy parent
                        = match parent with Some _ => true | None => false end).
           { rewrite <- Hrep. reflexivity. }
           unfold Article.has_article_id, article_counts_ok in *.
           destruct x as [i ai l lc cc rc]. simpl in Hc, Hr.
           cbn [IArticle.article_id].
           destruct (String.eqb_spec ai aid) as [E|E].
           ++ subst ai. rewrite Ht.
              destruct parent;
                cbn [apply_ops fold_left update_article IArticle.article_id
                     IArticle.comments_count IArticle.replies_count];
                rewrite !Htally, Hrep, String.eqb_refl; cbn [andb Bool.eqb];
                split; lia.
           ++ cbn [IArticle.article_id IArticle.comments_count
                   IArticle.replies_count].
              rewrite !Htally.
              assert (En : String.eqb aid ai = false)
                by (apply String.eqb_neq; congruence).
              rewrite En. cbn [andb]. split; lia.
    + assert (Hno : ~ In aid (map IArticle.article_id (articles db))).
      { intros Hin. apply in_map_iff in Hin. destruct Hin as (x & Hx & Hxin).
        eapply find_none in Ef; [|exact Hxin].
        unfold Article.has_article_id in Ef. rewrite Hx, String.eqb_refl in Ef.
        discriminate. }
      assert (Hroot : parent = None).
      { destruct parent as [p|]; [|reflexivity]. exfalso.
        destruct Hpar as (q & Hq & Ha). apply find_by_id_inv in Hq.
        apply Hno. rewrite <- Ha. apply Hart, Hq. }
      assert (Hzero : forall r, tally aid r (comments db) = 0).
      { intros r. unfold tally. apply count_none. intros c Hc.
        destruct (String.eqb_spec (IComment.article_id c) aid) as [E|E];
          [|reflexivity].
        exfalso. apply Hno. rewrite <- E. now apply Hart. }
      assert (Hk : map IArticle.article_id (articles db')
                   = map IArticle.article_id (articles db) ++ [aid])
        by (rewrite HA, map_app; reflexivity).
      split; [|split].
      * rewrite Hk. apply NoDup_app; auto; [repeat constructor; tauto|].
        intros x Hx [<-|[]]. contradiction.
      * intros c Hc. rewrite Hk. apply in_or_app.
        destruct (@same_shapes_like _ _ Hsh c Hc) as (c0 & Hc0 & E0).
        injection E0 as _ Ea _. rewrite <- Ea.
        apply in_app_or in Hc0. destruct Hc0 as [Hc0|[<-|[]]]; auto.
        right. now left.
      * rewrite HA. apply Forall_app. split.
        -- rewrite Forall_forall in *. intros x Hx.
           destruct (Hok x Hx) as [Hc Hr]. unfold article_counts_ok.
           rewrite !Htally.
           destruct (String.eqb_spec aid (IArticle.article_id x)) as [E|E].
           ++ exfalso. apply Hno. rewrite E. now apply in_map.
           ++ simpl. split; lia.
        -- constructor; [|constructor]. unfold article_counts_ok. simpl.
           rewrite !Htally, !Hzero, String.eqb_refl, Hrep, Hroot.
           simpl. split; reflexivity.
Qed.

(** X10. Creating a comment keeps the store consistent, provided the new
    id is non-empty and not yet used and the request names no parent or a
    stored comment of the same article as parent: the parents still resolve
    within one article and every article counter still equals the number of
    first level comments, or of replies, of its article. *)
Theorem create_keeps_store_ok env db aid text parent author :
  store_ok db -> valid_new env db aid parent ->
  store_ok (fst (V1.post_comments env aid text parent author db))
  /\ (truthy_str aid = true -> truthy_str text = true ->
      store_ok (fst (V2.post_comments env aid text parent (Some author) db))).
Proof.
  intros Hok Hv. split.
  - destruct (V1_post_comments_effect env db aid text parent author)
      as (C & A & _).
    eapply store_ok_after_create; eauto.
  - intros G1 G2.
    destruct (@V2_post_comments_effect env db aid text parent author G1 G2)
      as (C & A & _).
    eapply store_ok_after_create; eauto.
Qed.

Lemma create_keeps_store_ok_witness :
  store_ok sample_db
  /\ valid_new some_env sample_db "a1" (Some "c3")
  /\ store_ok (fst (V1.post_comments some_env "a1" "hello" (Some "c3") ann
                      sample_db)).
Proof.
  assert (H1 : store_ok sample_db) by store_ok_concrete.
  assert (H2 : valid_new some_env sample_db "a1" (Some "c3")).
  { split; [reflexivity|]. split.
    - simpl. intuition discriminate.
    - eexists. split; reflexivity. }
  split; [exact H1|]. split; [exact H2|].
  exact (proj1 (@create_keeps_store_ok some_env sample_db "a1" "hello"
                  (Some "c3") ann H1 H2)).
Defined.

(** ** The direct-reply counter as an invariant *)

(** [replies_count] of every comment is the number of comments that name it
    as their parent *)
Definition replies_consistent (cs : list IComment.t) : Prop :=
  forall c, In c cs ->
    IComment.replies_count c = count (Comment.has_parent (IComment._id c)) cs.

Lemma children_shapes i cs cs' :
  map shape cs = map shape cs' ->
  count (Comment.has_parent i) cs = count (Comment.has_parent i) cs'.
Proof.
  unfold count. revert cs'.
  induction cs as [|c cs IH]; intros [|c' cs'] H; try discriminate;
    [reflexivity|].
  simpl in H. injection H as _ _ Hp Hr. cbn [filter].
  assert (E : Comment.has_parent i c = Comment.has_parent i c')
    by (unfold Comment.has_parent; now rewrite Hp).
  rewrite E. pose proof (IH cs' Hr) as IH'.
  destruct (Comment.has_parent i c'); cbn [List.length];
    rewrite ?Nat2Z.inj_succ; lia.
Qed.

Lemma count_only p (D : list IComment.t) t :
  NoDup D -> In t D -> (forall c, In c D -> c <> t -> p c = false) ->
  count p D = if p t then 1 else 0.
Proof.
  intros Hnd Ht H.
  destruct (in_split _ _ Ht) as (l1 & l2 & ->).
  apply NoDup_remove_2 in Hnd.
  change (t :: l2) with ([t] ++ l2). rewrite !count_app.
  rewrite (@count_none p l1), (@count_none p l2).
  - unfold count. cbn [filter]. destruct (p t); reflexivity.
  - intros c Hc. apply H; [apply in_or_app; right; now right|].
    intros ->. apply Hnd, in_or_app. now right.
  - intros c Hc. apply H; [apply in_or_app; now left|].
    intros ->. apply Hnd, in_or_app. now left.
Qed.

Lemma In_update_first_id p f cs c' :
  NoDup (ids cs) -> (forall x, IComment._id (f x) = IComment._id x) ->
  In c' (update_first (Comment.has_id p) f cs) ->
  (In c' cs /\ IComment._id c' <> p)
  \/ (exists q, In q cs /\ IComment._id q = p /\ c' = f q).
Proof.
  intros Hnd Hf. unfold ids in Hnd.
  induction cs as [|x cs IH]; simpl; [tauto|].
  inversion Hnd as [|? ? Hn Hd]; subst.
  unfold Comment.has_id at 1.
  destruct (String.eqb_spec (IComment._id x) p) as [E|E]; simpl.
  - intros [<-|H].
    + right. exists x. auto.
    + left. split; [now right|]. intros E'. apply Hn. rewrite E, <- E'.
      now apply in_map.
  - intros [<-|H].
    + left. auto.
    + destruct (IH Hd H) as [[H1 H2]|(q & H1 & H2 & H3)].
      * left. auto.
      * right. exists q. auto.
Qed.

(** a kept comment has no child among the deleted documents but, possibly,
    the target *)
Lemma kept_children fuel db cid target D keep c0 :
  NoDup (ids (comments db)) ->
  find (Comment.has_id cid) (comments db) = Some target ->
  deleted fuel db cid target D keep ->
  In c0 (comments db) -> keep c0 = true ->
  count (Comment.has_parent (IComment._id c0)) D
  = if Comment.has_parent (IComment._id c0) target then 1 else 0.
Proof.
  intros Hnd Hf H Hc0 Hk.
  destruct (find_by_id_inv _ _ Hf) as [Hid Hin].
  apply count_only; [apply (del_nodup H)|apply (del_target H)|].
  intros c Hc Hne.
  destruct (Comment.has_parent (IComment._id c0) c) eqn:Hp; [|reflexivity].
  exfalso. apply has_parent_spec in Hp.
  apply (del_subtree H) in Hc. destruct Hc as [Hc Hd].
  apply descendant_inv in Hd. destruct Hd as [Hd|(c2 & p2 & Hc2 & Hi2 & Hp2 & Hd2)].
  - apply Hne. apply (@same_id_same_comment (comments db) c target Hnd Hc Hin).
    congruence.
  - assert (c2 = c)
      by exact (@same_id_same_comment (comments db) c2 c Hnd Hc2 Hc Hi2).
    subst c2.
    assert (p2 = IComment._id c0) by congruence. subst p2.
    apply (del_keep H c0 Hc0); [exact Hk|].
    apply (del_subtree H). auto.
Qed.

Lemma replies_after_delete fuel db cid target D keep :
  wf_comments (comments db) ->
  replies_consistent (comments db) ->
  find (Comment.has_id cid) (comments db) = Some target ->
  deleted fuel db cid target D keep ->
  replies_consistent (parent_fixed target (filter keep (comments db))).
Proof.
  intros Hwf Hrc Hf H.
  set (K := filter keep (comments db)).
  assert (Hcount : forall i,
             count (Comment.has_parent i) (comments db)
             = count (Comment.has_parent i) D
               + count (Comment.has_parent i) (parent_fixed target K)).
  { intros i. rewrite (count_perm _ (del_perm H)), count_app. f_equal.
    apply children_shapes. symmetry. apply shapes_parent_fixed. }
  assert (Hkept : forall c, In c K ->
             IComment.replies_count c
             = (if Comment.has_parent (IComment._id c) target then 1 else 0)
               + count (Comment.has_parent (IComment._id c))
                   (parent_fixed target K)).
  { intros c Hc. apply filter_In in Hc. destruct Hc as [Hc Hk].
    rewrite (Hrc c Hc), Hcount.
    now rewrite (@kept_children fuel db cid target D keep c (proj1 Hwf) Hf H Hc Hk). }
  intros c' Hc'. unfold parent_fixed in Hc'.
  destruct (truthy (IComment.parent target)) eqn:Ht.
  - destruct (IComment.parent target) as [p|] eqn:Hp; [|discriminate].
    apply In_update_first_id in Hc';
      [|apply ids_filter_NoDup, Hwf|intros []; reflexivity].
    destruct Hc' as [[Hc' Hne]|(q & Hq & Hqid & ->)].
    + rewrite (Hkept c' Hc').
      replace (Comment.has_parent (IComment._id c') target) with false; [lia|].
      symmetry. unfold Comment.has_parent. rewrite Hp.
      apply String.eqb_neq. congruence.
    + rewrite dec_replies_fields. unfold one_reply_less at 1 2.
      cbn [IComment.replies_count IComment._id].
      rewrite (Hkept q Hq).
      replace (Comment.has_parent (IComment._id q) target) with true; [lia|].
      symmetry. unfold Comment.has_parent. rewrite Hp, Hqid.
      apply String.eqb_refl.
  - rewrite (Hkept c' Hc').
    replace (Comment.has_parent (IComment._id c') target) with false; [lia|].
    symmetry. unfold Comment.has_parent.
    destruct (IComment.parent target) as [p|] eqn:Hp; [|reflexivity].
    apply String.eqb_neq. intros ->.
    apply filter_In in Hc'. destruct Hc' as [Hc' _].
    pose proof (@wf_truthy_id _ _ Hwf Hc') as Hid.
    simpl in Ht. congruence.
Qed.

(** X11. Deleting a stored comment keeps the direct-reply counters right:
    if ids are unique and non-empty and the [replies_count] of every comment
    is the number of comments naming it as parent, the same holds for the
    comments left by either delete handler. *)
Theorem delete_keeps_replies_count fuel db cid target :
  wf_comments (comments db) ->
  replies_consistent (comments db) ->
  find (Comment.has_id cid) (comments db) = Some target ->
  (List.length (comments db) <= fuel)%nat ->
  replies_consistent (comments (fst (V1.delete_comments fuel cid db)))
  /\ replies_consistent (comments (fst (V2.delete_comments fuel cid db))).
Proof.
  intros Hwf Hrc Hf Hlen.
  destruct (@delete_effect fuel db cid target Hwf Hf Hlen) as (D & keep & H).
  rewrite (del_comments_V1 H), (del_comments_V2 H).
  split; eapply replies_after_delete; eauto.
Qed.

Ltac replies_concrete :=
  intros c Hc; simpl in Hc;
  repeat (destruct Hc as [<-|Hc]; [reflexivity|]); contradiction.

Lemma delete_keeps_replies_count_witness :
  wf_comments (comments sample_db)
  /\ replies_consistent (comments sample_db)
  /\ find (Comment.has_id "c2") (comments sample_db)
     = Some (IComment.mk "c2" "a1" "first reply" (Some "c1") [] 0 1 200 ann)
  /\ (List.length (comments sample_db) <= 5)%nat
  /\ replies_consistent (comments (fst (V1.delete_comments 5 "c2" sample_db)))
  /\ replies_consistent (comments (fst (V2.delete_comments 5 "c2" sample_db))).
Proof.
  assert (H1 : wf_comments (comments sample_db)) by wf_concrete.
  assert (H0 : replies_consistent (comments sample_db)) by replies_concrete.
  assert (H2 : find (Comment.has_id "c2") (comments sample_db)
               = Some (IComment.mk "c2" "a1" "first reply" (Some "c1")
                         [] 0 1 200 ann)) by reflexivity.
  assert (H3 : (List.length (comments sample_db) <= 5)%nat) by (simpl; lia).
  split; [exact H1|]. split; [exact H0|]. split; [exact H2|]. split; [exact H3|].
  exact (@delete_keeps_replies_count 5 sample_db "c2" _ H1 H0 H2 H3).
Defined.



(** the id of the new comment is not yet named as a parent: no stored
    comment is a reply to a comment that is still to come *)
Definition not_yet_named (env : Env) (db : DB) : Prop :=
  forall c, In c (comments db) -> IComment.parent c <> Some (comment_oid env).

Lemma resolved_not_yet_named env db :
  parents_resolve (comments db) ->
  ~ In (comment_oid env) (ids (comments db)) ->
  not_yet_named env db.
Proof.
  intros Hres Hfresh c Hc Hp. apply Hfresh. eapply Hres; eauto.
Qed.




(** A store in which a reply has outlived its parent: [d3] names [zz],
    which is not stored. *)
Definition orphan_db : DB :=
  mkDB [ IComment.mk "d1" "a1" "root" None [] 0 1 100 ann;
         IComment.mk "d2" "a1" "reply" (Some "d1") [] 0 0 200 ann;
         IComment.mk "d3" "a1" "orphan" (Some "zz") [] 0 0 300 ann ]
       [IArticle.mk "x1" "a1" [] 0 1 2] [].

Ltac not_named_concrete :=
  let c := fresh "c" in
  let Hc := fresh "Hc" in
  intros c Hc; simpl in Hc;
  repeat (destruct Hc as [<-|Hc]; [discriminate|]); destruct Hc.


(** The reply to [d2] in the store with the orphan: [d2] now counts one
    reply, the new comment [c9] none. *)
Example reply_counted_beside_orphan :
  map (fun c => (IComment._id c, IComment.replies_count c))
      (comments (fst (V1.post_comments some_env "a1" "hello" (Some "d2") ann
                        orphan_db)))
  = [("d1", 1); ("d2", 1); ("d3", 0); ("c9", 0)].
Proof. vm_compute. reflexivity. Qed.

(** ** Creating a comment and deleting it again *)

Lemma update_first_app_found {A} (p : A -> bool) (f : A -> A) (l l' : list A) x :
  find p l = Some x -> update_first p f (l ++ l') = update_first p f l ++ l'.
Proof.
  induction l as [|y l IH]; simpl; [discriminate|].
  destruct (p y); [reflexivity|]. intros H. now rewrite IH.
Qed.

Lemma find_fresh_id cs i :
  ~ In i (ids cs) -> find (Comment.has_id i) cs = None.
Proof.
  intros H. destruct (find (Comment.has_id i) cs) as [c|] eqn:E; [|reflexivity].
  exfalso. apply H. apply find_by_id_inv in E. destruct E as [<- E].
  now apply in_map.
Qed.

Lemma ids_parent_counted parent cs : ids (parent_counted parent cs) = ids cs.
Proof. now rewrite <- !shapes_ids, shapes_parent_counted. Qed.

Lemma descendant_leaf cs root i :
  (forall c, In c cs -> IComment.parent c <> Some root) ->
  descendant cs root i -> i = root.
Proof.
  intros Hleaf H. induction H as [|c p _ IH Hc Hp]; [reflexivity|].
  subst p. now apply Hleaf in Hc.
Qed.

Lemma only_element {A} (l : list A) (x : A) :
  NoDup l -> In x l -> (forall y, In y l -> y = x) -> l = [x].
Proof.
  intros Hnd Hx Hall. destruct l as [|y l]; [destruct Hx|].
  rewrite (Hall y (or_introl eq_refl)). f_equal.
  destruct l as [|z l]; [reflexivity|]. exfalso.
  inversion Hnd as [|? ? Hn _]; subst. apply Hn. left.
  rewrite (Hall z (or_intror (or_introl eq_refl))).
  symmetry. apply Hall. now left.
Qed.

Lemma filter_all {A} (p : A -> bool) (l : list A) :
  (forall x, In x l -> p x = true) -> filter p l = l.
Proof.
  induction l as [|y l IH]; simpl; [reflexivity|]. intros H.
  rewrite (H y (or_introl eq_refl)). f_equal. apply IH. auto.
Qed.

Lemma uncount_parent env db aid text parent author :
  wf_comments (comments db) -> valid_new env db aid parent ->
  parent_fixed (new_comment env aid text parent author)
               (parent_counted parent (comments db)) = comments db.
Proof.
  intros Hwf (_ & _ & Hpar). unfold parent_fixed, parent_counted.
  cbn [new_comment IComment.parent]. destruct parent as [p|]; [|reflexivity].
  destruct Hpar as (q & Hq & _).
  destruct (find_by_id_inv _ _ Hq) as [Hqid Hqin].
  assert (Hpt : truthy_str p = true).
  { rewrite <- Hqid. eapply wf_truthy_id; eauto. }
  cbn [truthy]. rewrite Hpt.
  apply update_first_back with (x := q); [exact Hq| |].
  - destruct q. simpl. f_equal. lia.
  - destruct q. exact (proj2 (find_some _ _ Hq)).
Qed.

Lemma uncount_article env aid parent (xs : list IArticle.t) a cnt :
  find (Article.has_article_id aid) xs = Some a ->
  cnt = (if truthy parent then mkCounters 0 1 else mkCounters 1 0) ->
  let xs1 := article_counted env aid parent xs in
  update_first (Article.has_article_id aid) (decremented cnt) xs1 = xs
  /\ exists a1, find (Article.has_article_id aid) xs1 = Some a1
                /\ decremented cnt a1 = a.
Proof.
  intros Ha -> xs1. unfold xs1, article_counted. rewrite Ha.
  pose proof (proj2 (find_some _ _ Ha)) as Hp.
  set (f := apply_ops update_article
              (if truthy parent then [Inc replies_count 1]
               else [Inc comments_count 1])).
  assert (Hback : decremented
            (if truthy parent then mkCounters 0 1 else mkCounters 1 0) (f a) = a).
  { unfold f. destruct a, (truthy parent); unfold decremented; simpl;
      f_equal; lia. }
  assert (Hpf : Article.has_article_id aid (f a) = true).
  { unfold f. destruct a, (truthy parent); exact Hp. }
  split.
  - apply update_first_back with (x := a); assumption.
  - exists (f a). split; [|exact Hback]. now apply find_update_first.
Qed.

Record restored (r : DB * res Response) (db : DB) (a : IArticle.t) : Prop := {
  same_comments : comments (fst r) = comments db;
  same_articles : articles (fst r) = articles db;
  article_sent : snd r = Ok (send 200 (ArticleDoc a))
}.

Lemma delete_of_created env fuel db db1 aid text parent author a :
  wf_comments (comments db) -> not_yet_named env db ->
  valid_new env db aid parent ->
  find (Article.has_article_id aid) (articles db) = Some a ->
  (List.length (comments db) < fuel)%nat ->
  comments db1
  = parent_counted parent
      (comments db ++ [new_comment env aid text parent author]) ->
  articles db1 = article_counted env aid parent (articles db) ->
  restored (V1.delete_comments fuel (comment_oid env) db1) db a
  /\ restored (V2.delete_comments fuel (comment_oid env) db1) db a.
Proof.
  intros Hwf Hres Hv Ha Hfuel Hc1 Ha1.
  pose proof Hv as (Hnid & Hfresh & Hpar).
  set (new := new_comment env aid text parent author) in *.
  assert (Happ : comments db1 = parent_counted parent (comments db) ++ [new]).
  { rewrite Hc1. unfold parent_counted. destruct parent as [p|]; [|reflexivity].
    destruct (truthy_str p); [|reflexivity].
    destruct Hpar as (q & Hq & _). eapply update_first_app_found; eauto. }
  assert (Hwf0 : wf_comments (parent_counted parent (comments db))).
  { apply shaped_like_wf with (cs := comments db); [|
      apply same_shapes_like, shapes_parent_counted | exact Hwf].
    rewrite ids_parent_counted. apply Hwf. }
  assert (Hold : forall c, In c (parent_counted parent (comments db)) ->
                   IComment._id c <> comment_oid env).
  { intros c Hc E. apply Hfresh. rewrite <- (ids_parent_counted parent), <- E.
    now apply in_map. }
  assert (Hwf1 : wf_comments (comments db1)).
  { rewrite Happ. split.
    - unfold ids. rewrite map_app. apply NoDup_app; [apply Hwf0| |].
      + repeat constructor. intros [].
      + intros i Hi [<-|[]]. apply in_map_iff in Hi.
        destruct Hi as (c & E & Hc). exact (Hold c Hc E).
    - apply Forall_app. split; [apply Hwf0|]. repeat constructor. exact Hnid. }
  assert (Hfind : find (Comment.has_id (comment_oid env)) (comments db1)
                  = Some new).
  { rewrite Happ, find_app_new.
    - unfold Comment.has_id, new. simpl. now rewrite String.eqb_refl.
    - apply find_fresh_id. now rewrite ids_parent_counted. }
  assert (Hlen : (List.length (comments db1) <= fuel)%nat).
  { rewrite <- (length_map shape), Hc1, shapes_parent_counted, length_map,
      length_app. simpl. lia. }
  destruct (@delete_effect fuel db1 (comment_oid env) new Hwf1 Hfind Hlen)
    as (D & keep & R).
  assert (Hleaf : forall c, In c (comments db1) ->
                    IComment.parent c <> Some (comment_oid env)).
  { intros c Hc Hp. rewrite Happ in Hc. apply in_app_or in Hc.
    destruct Hc as [Hc|[<-|[]]].
    - destruct (@same_shapes_like _ _ (shapes_parent_counted parent (comments db))
                  c Hc) as (c0 & Hc0 & E).
      injection E as _ _ Ep. apply (Hres c0 Hc0). congruence.
    - unfold new in Hp. simpl in Hp. subst parent.
      destruct Hpar as (q & Hq & _). apply Hfresh.
      apply find_by_id_inv in Hq. destruct Hq as [<- Hq]. now apply in_map. }
  assert (HD : D = [new]).
  { apply only_element; [apply (del_nodup R)|apply (del_target R)|].
    intros c Hc. apply (del_subtree R) in Hc. destruct Hc as [Hc Hd].
    apply (descendant_leaf Hleaf) in Hd.
    apply same_id_same_comment with (cs := comments db1);
      [apply Hwf1|exact Hc| |exact Hd].
    exact (proj2 (find_by_id_inv _ _ Hfind)). }
  assert (Hkeep : filter keep (comments db1)
                  = parent_counted parent (comments db)).
  { rewrite Happ, filter_app. cbn [filter].
    assert (Hin : In new (comments db1)) by (rewrite Happ; apply in_elt).
    destruct (keep new) eqn:K.
    - exfalso. apply (del_keep R new Hin) in K. apply K. rewrite HD. now left.
    - rewrite app_nil_r. apply filter_all. intros c Hc.
      apply (del_keep R c); [rewrite Happ; apply in_or_app; now left|].
      rewrite HD. intros [<-|[]]. now apply (Hold _ Hc). }
  assert (Hcnt : mkCounters (count is_first_level D) (count is_reply D)
                 = if truthy parent then mkCounters 0 1 else mkCounters 1 0).
  { rewrite HD. unfold count, is_first_level, is_reply. cbn [filter].
    change (IComment.parent new) with parent.
    destruct (truthy parent); reflexivity. }
  destruct (@uncount_article env aid parent (articles db) a _ Ha Hcnt)
    as (Hxs & a1 & Hf1 & Hb1).
  change (IComment.article_id new) with aid in *.
  split; constructor.
  - rewrite (del_comments_V1 R), Hkeep. now apply uncount_parent.
  - rewrite (del_articles_V1 R), Ha1. exact Hxs.
  - rewrite (del_sent_V1 R). change (IComment.article_id new) with aid.
    rewrite Ha1, Hf1, Hb1. reflexivity.
  - rewrite (del_comments_V2 R), Hkeep. now apply uncount_parent.
  - rewrite (del_articles_V2 R), Ha1. exact Hxs.
  - rewrite (del_sent_V2 R). change (IComment.article_id new) with aid.
    rewrite Ha1, Hf1, Hb1. reflexivity.
Qed.

(** X13. Creating a comment and then deleting it gives back the store. The
    conditions: ids are unique and non-empty, the article already has a
    document, the new id is non-empty and new to the store (no stored
    comment has it as its id, and none names it as its parent), the parent
    of the request, if any, is a stored comment of the same article, and
    the recursion has fuel for every comment. Then a delete of the comment
    just created answers 200 with the article as it was before the
    creation, and the comment and article collections are again exactly the
    ones before the creation (the parent's [replies_count] and the article's
    counters are back at their old values). Parents of stored comments need
    not be stored themselves. *)
Theorem create_then_delete_restores env fuel db aid text parent author a :
  wf_comments (comments db) -> not_yet_named env db ->
  valid_new env db aid parent ->
  find (Article.has_article_id aid) (articles db) = Some a ->
  (List.length (comments db) < fuel)%nat ->
  restored
    (V1.delete_comments fuel (comment_oid env)
       (fst (V1.post_comments env aid text parent author db))) db a
  /\ (truthy_str aid = true -> truthy_str text = true ->
      restored
        (V2.delete_comments fuel (comment_oid env)
           (fst (V2.post_comments env aid text parent (Some author) db))) db a).
Proof.
  intros Hwf Hres Hv Ha Hfuel. split.
  - destruct (V1_post_comments_effect env db aid text parent author)
      as (C & X & _).
    exact (proj1 (@delete_of_created env fuel db _ aid text parent author a
                    Hwf Hres Hv Ha Hfuel C X)).
  - intros G1 G2.
    destruct (@V2_post_comments_effect env db aid text parent author G1 G2)
      as (C & X & _).
    exact (proj2 (@delete_of_created env fuel db _ aid text parent author a
                    Hwf Hres Hv Ha Hfuel C X)).
Qed.

Lemma create_then_delete_restores_witness :
  wf_comments (comments orphan_db)
  /\ not_yet_named some_env orphan_db
  /\ valid_new some_env orphan_db "a1" (Some "d2")
  /\ (exists a, find (Article.has_article_id "a1") (articles orphan_db) = Some a
       /\ (List.length (comments orphan_db) < 4)%nat
       /\ restored
            (V1.delete_comments 4 (comment_oid some_env)
               (fst (V1.post_comments some_env "a1" "hello" (Some "d2") ann
                       orphan_db))) orphan_db a).
Proof.
  assert (H1 : wf_comments (comments orphan_db)) by wf_concrete.
  assert (H2 : not_yet_named some_env orphan_db) by not_named_concrete.
  assert (H3 : valid_new some_env orphan_db "a1" (Some "d2")).
  { split; [reflexivity|]. split.
    - simpl. intuition discriminate.
    - eexists. split; reflexivity. }
  split; [exact H1|]. split; [exact H2|]. split; [exact H3|].
  eexists. split; [reflexivity|].
  assert (H5 : (List.length (comments orphan_db) < 4)%nat) by (simpl; lia).
  split; [exact H5|].
  exact (proj1 (@create_then_delete_restores some_env 4 orphan_db "a1" "hello"
                  (Some "d2") ann _ H1 H2 H3 eq_refl H5)).
Defined.

(** Why the new id must not be named yet: in a store where [d3] is a reply
    to the id that the next comment gets, the delete of that comment takes
    [d3] with it, and the store is not the one before the creation. *)
Example named_before_created :
  let db := mkDB [ IComment.mk "d1" "a1" "root" None [] 0 0 100 ann;
                   IComment.mk "d3" "a1" "early" (Some "c9") [] 0 0 300 ann ]
                 [IArticle.mk "x1" "a1" [] 0 1 1] [] in
  let r := V1.delete_comments 4 "c9"
             (fst (V1.post_comments some_env "a1" "hello" None ann db)) in
  ids (comments (fst r)) = ["d1"]
  /\ articles (fst r) = [IArticle.mk "x1" "a1" [] 0 1 0].
Proof. split; vm_compute; reflexivity. Qed.

(** ** Reading never writes, and pages follow one another *)

(** X14. The four reading handlers change no document, whatever the request:
    after a listing of comments (first and second form, valid or not) and
    after a fetch of an article (by query value or by path parameter) the
    comment and article collections are the ones before. *)
Theorem reading_changes_no_document iu aid sort_by parent page limit s db :
  unchanged db (fst (V1.get_comments iu aid sort_by parent page limit db))
  /\ unchanged db (fst (V2.get_comments iu aid sort_by parent page limit db))
  /\ unchanged db (fst (Fetch.get_articles iu aid db))
  /\ unchanged db (fst (Fetch.get_article s db)).
Proof.
  unfold unchanged.
  unfold V1.get_comments, V1.get_comments_try, V2.get_comments,
    V2.get_comments_try, Fetch.get_articles, Fetch.get_article, Fetch.findOne,
    Article.findOne, Comment.find_page, try_catch, bind, throw, ret.
  cbv zeta.
  repeat split;
    repeat match goal with
           | |- context [if ?b then _ else _] => destruct b; cbn [fst snd]
           | |- context [match as_count ?n with _ => _ end] =>
               destruct (as_count n); cbn [fst snd]
           | |- context [match find ?f ?l with _ => _ end] =>
               destruct (find f l); cbn [fst snd]
           end;
    reflexivity.
Qed.

Lemma get_comments_run iu aid sort_by parent (p l : Z) db :
  1 <= p -> 1 <= l ->
  let ranked :=
    sort_docs (sort_of sort_by) (selected iu aid parent (comments db)) in
  V1.get_comments iu aid sort_by parent (Some (of_Z p)) (Some (of_Z l)) db
  = (log (Query CommentsColl) db,
     Ok (send 200 (CommentDocs (page_of p l ranked))))
  /\ V2.get_comments iu aid sort_by parent (Some (of_Z p)) (Some (of_Z l)) db
     = (log (Query CommentsColl) db,
        Ok (send 200 (CommentDocs (page_of p l ranked)))).
Proof.
  intros Hp Hl ranked.
  unfold V1.get_comments, V1.get_comments_try, V2.get_comments,
    V2.get_comments_try, default. cbv zeta.
  rewrite of_Z_rem_1, of_Z_lt. destruct (Z.ltb_spec p 1); [lia|].
  change (isNaN (of_Z l)) with false. change (isNaN (of_Z p)) with false.
  cbn [orb]. change (num_neq (of_Z 0) (of_Z 0)) with false. cbv iota.
  fold (sort_of sort_by). unfold try_catch, bind.
  rewrite find_page_run by assumption. split; reflexivity.
Qed.

Lemma slices_join {A} (n m : nat) (M : list A) :
  firstn n M ++ firstn m (skipn n M) = firstn (n + m) M.
Proof.
  revert M. induction n as [|n IH]; intros M; [reflexivity|].
  destruct M as [|x M]; cbn [firstn skipn Nat.add app].
  - now rewrite firstn_nil.
  - f_equal. apply IH.
Qed.

Lemma two_slices {A} (n a : nat) (L : list A) :
  firstn n (skipn a L) ++ firstn n (skipn (a + n) L)
  = firstn (n + n) (skipn a L).
Proof.
  rewrite (Nat.add_comm a n), <- skipn_skipn. apply slices_join.
Qed.

(** X15. Pages follow one another on an unchanged store: for a whole page
    [p >= 1] and a whole limit [l >= 1], listing page [p] and then page
    [p + 1] (on the store the first listing leaves) answers 200 twice, and
    the two pages put together are the [2 * l] ranked documents that follow
    the first [(p - 1) * l]; a page that starts past the end of the ranking
    is empty, and so is the page after a page that is not full. *)
Theorem consecutive_pages iu aid sort_by parent (p l : Z) db :
  1 <= p -> 1 <= l ->
  safe_integer (p + 1) -> safe_integer l -> safe_integer (p * l) ->
  let ranked :=
    sort_docs (sort_of sort_by) (selected iu aid parent (comments db)) in
  let first := page_of p l ranked in
  let second := page_of (p + 1) l ranked in
  let r1 := V1.get_comments iu aid sort_by parent
              (Some (of_Z p)) (Some (of_Z l)) db in
  let r2 := V1.get_comments iu aid sort_by parent
              (Some (of_Z (p + 1))) (Some (of_Z l)) (fst r1) in
  let s1 := V2.get_comments iu aid sort_by parent
              (Some (of_Z p)) (Some (of_Z l)) db in
  let s2 := V2.get_comments iu aid sort_by parent
              (Some (of_Z (p + 1))) (Some (of_Z l)) (fst s1) in
  snd r1 = Ok (send 200 (CommentDocs first))
  /\ snd r2 = Ok (send 200 (CommentDocs second))
  /\ snd s1 = Ok (send 200 (CommentDocs first))
  /\ snd s2 = Ok (send 200 (CommentDocs second))
  /\ first ++ second
     = firstn (Z.to_nat (2 * l)) (skipn (Z.to_nat ((p - 1) * l)) ranked)
  /\ (Z.of_nat (List.length ranked) <= (p - 1) * l -> first = [])
  /\ (Z.of_nat (List.length first) < l -> second = []).
Proof.
  intros Hp Hl _ _ _ ranked first second r1 r2 s1 s2.
  destruct (@get_comments_run iu aid sort_by parent p l db Hp Hl) as [E1 F1].
  assert (Hp' : 1 <= p + 1) by lia.
  assert (Eskip : Z.to_nat ((p + 1 - 1) * l)
                  = (Z.to_nat ((p - 1) * l) + Z.to_nat l)%nat).
  { rewrite <- Z2Nat.inj_add by nia. f_equal. lia. }
  split; [unfold r1; now rewrite E1|].
  split.
  { unfold r2, r1. rewrite E1. cbn [fst].
    now rewrite (proj1 (@get_comments_run iu aid sort_by parent (p + 1) l
                          (log (Query CommentsColl) db) Hp' Hl)). }
  split; [unfold s1; now rewrite F1|].
  split.
  { unfold s2, s1. rewrite F1. cbn [fst].
    now rewrite (proj2 (@get_comments_run iu aid sort_by parent (p + 1) l
                          (log (Query CommentsColl) db) Hp' Hl)). }
  unfold first, second, page_of. rewrite Eskip.
  split; [|split].
  - rewrite two_slices. f_equal. rewrite <- Z2Nat.inj_add by lia. f_equal. lia.
  - intros Hend. rewrite skipn_all2 by lia. apply firstn_nil.
  - intros Hshort. rewrite Nat.add_comm, <- skipn_skipn.
    set (M := skipn (Z.to_nat ((p - 1) * l)) ranked) in *.
    assert (HM : (List.length M < Z.to_nat l)%nat).
    { destruct (Nat.lt_ge_cases (List.length M) (Z.to_nat l)) as [H|H];
        [exact H|].
      rewrite firstn_length_le in Hshort by exact H. lia. }
    rewrite skipn_all2 by lia. apply firstn_nil.
Qed.

Lemma consecutive_pages_witness :
  1 <= 1 /\ 1 <= 5
  /\ safe_integer (1 + 1) /\ safe_integer 5 /\ safe_integer (1 * 5)
  /\ exists first second,
       snd (V1.get_comments false (Some "a2") (Some "newest") None
              (Some (of_Z 1)) (Some (of_Z 5)) twelve_db)
       = Ok (send 200 (CommentDocs first))
       /\ snd (V1.get_comments false (Some "a2") (Some "newest") None
                 (Some (of_Z (1 + 1))) (Some (of_Z 5))
                 (fst (V1.get_comments false (Some "a2") (Some "newest") None
                         (Some (of_Z 1)) (Some (of_Z 5)) twelve_db)))
          = Ok (send 200 (CommentDocs second))
       /\ ids first = ["k12"; "k11"; "k10"; "k09"; "k08"]
       /\ ids second = ["k07"; "k06"; "k05"; "k04"; "k03"]
       /\ first ++ second
          = firstn (Z.to_nat (2 * 5))
              (skipn (Z.to_nat ((1 - 1) * 5))
                 (sort_docs (sort_of (Some "newest"))
                    (selected false (Some "a2") None (comments twelve_db)))).
Proof.
  assert (H1 : 1 <= 1) by lia. assert (H2 : 1 <= 5) by lia.
  assert (H3 : safe_integer (1 + 1)) by (unfold safe_integer; lia).
  assert (H4 : safe_integer 5) by (unfold safe_integer; lia).
  assert (H5 : safe_integer (1 * 5)) by (unfold safe_integer; lia).
  split; [exact H1|]. split; [exact H2|]. split; [exact H3|].
  split; [exact H4|]. split; [exact H5|].
  destruct (@consecutive_pages false (Some "a2") (Some "newest") None
              1 5 twelve_db H1 H2 H3 H4 H5)
    as (R1 & R2 & _ & _ & Join & _).
  eexists. eexists.
  split; [exact R1|]. split; [exact R2|].
  split; [vm_compute; reflexivity|]. split; [vm_compute; reflexivity|].
  exact Join.
Defined.

(** The twelve comments with limit 5: the third page holds the two oldest
    and is not full, the fourth page is empty. *)
Example last_pages :
  (exists docs,
      snd (V2.get_comments false (Some "a2") (Some "newest") None
             (Some (of_Z 3)) (Some (of_Z 5)) twelve_db)
      = Ok (send 200 (CommentDocs docs))
      /\ ids docs = ["k02"; "k01"])
  /\ snd (V2.get_comments false (Some "a2") (Some "newest") None
            (Some (of_Z 4)) (Some (of_Z 5)) twelve_db)
     = Ok (send 200 (CommentDocs [])).
Proof.
  split; [eexists; split; [vm_compute; reflexivity|reflexivity]|].
  vm_compute. reflexivity.
Qed.

(** ** The likes invariant under the other writing handlers *)

Definition keeps_likes (f : IComment.t -> IComment.t) : Prop :=
  forall c, IComment.likes (f c) = IComment.likes c
            /\ IComment.likes_count (f c) = IComment.likes_count c.

Lemma keeps_likes_ok f c : keeps_likes f -> comment_likes_ok c -> comment_likes_ok (f c).
Proof.
  intros H. unfold comment_likes_ok. destruct (H c) as [-> ->]. auto.
Qed.

Lemma likes_after_create env aid text parent author cs xs :
  Forall comment_likes_ok cs -> Forall article_likes_ok xs ->
  Forall comment_likes_ok
    (parent_counted parent (cs ++ [new_comment env aid text parent author]))
  /\ Forall article_likes_ok (article_counted env aid parent xs).
Proof.
  intros Hc Ha. split.
  - assert (H : Forall comment_likes_ok
                  (cs ++ [new_comment env aid text parent author])).
    { apply Forall_app. split; [exact Hc|].
      constructor; [|constructor]. split; [constructor|reflexivity]. }
    unfold parent_counted. destruct parent as [p|]; [|exact H].
    destruct (truthy_str p); [|exact H].
    apply Forall_update_all; [|exact H].
    intros c. apply keeps_likes_ok. intros []; split; reflexivity.
  - unfold article_counted. destruct (find _ xs).
    + apply Forall_update_all; [|exact Ha].
      intros [] Hx. destruct (truthy parent); exact Hx.
    + apply Forall_app. split; [exact Ha|].
      constructor; [|constructor]. split; [constructor|reflexivity].
Qed.

Lemma likes_after_delete target keep cnt cs xs :
  Forall comment_likes_ok cs -> Forall article_likes_ok xs ->
  Forall comment_likes_ok (parent_fixed target (filter keep cs))
  /\ Forall article_likes_ok
       (update_first (Article.has_article_id (IComment.article_id target))
          (decremented cnt) xs).
Proof.
  intros Hc Ha. split.
  - assert (H : Forall comment_likes_ok (filter keep cs)).
    { rewrite Forall_forall in *. intros c Hin. apply filter_In in Hin.
      apply Hc, Hin. }
    unfold parent_fixed. destruct (truthy (IComment.parent target)); [|exact H].
    destruct (IComment.parent target); [|exact H].
    apply Forall_update_all; [|exact H].
    intros c. apply keeps_likes_ok. intros []; split; reflexivity.
  - apply Forall_update_all; [|exact Ha]. intros [] Hx. exact Hx.
Qed.

(** X16. Creating, deleting and patching comments keep the likes
    invariant, whatever the request: in every comment and article [likes] still
    holds no user twice and [likes_count] is still the length of [likes]
    (a new comment and a new article start with no likes and count 0). For
    the delete handlers the ids are unique and non-empty and the recursion
    has fuel for every stored comment. *)
Theorem writes_keep_likes_invariant env fuel db aid text parent author
    maybe_author cid :
  wf_comments (comments db) ->
  (List.length (comments db) <= fuel)%nat ->
  likes_consistent db ->
  likes_consistent (fst (V1.post_comments env aid text parent author db))
  /\ likes_consistent
       (fst (V2.post_comments env aid text parent maybe_author db))
  /\ likes_consistent (fst (V1.delete_comments fuel cid db))
  /\ likes_consistent (fst (V2.delete_comments fuel cid db))
  /\ likes_consistent (fst (V1.patch_comments text cid db))
  /\ likes_consistent (fst (V2.patch_comments text cid db)).
Proof.
  intros Hwf Hfuel [Hc Ha].
  assert (Hbody : Forall comment_likes_ok
            (update_first (Comment.has_id cid) (with_body text) (comments db))).
  { apply Forall_update_all; [|exact Hc].
    intros c. apply keeps_likes_ok. intros []; split; reflexivity. }
  split; [|split; [|split; [|split; [|split]]]].
  - destruct (V1_post_comments_effect env db aid text parent author)
      as (C & X & _).
    unfold likes_consistent. rewrite C, X. now apply likes_after_create.
  - destruct maybe_author as [who|]; [|split; assumption].
    destruct (truthy_str aid) eqn:G1; [destruct (truthy_str text) eqn:G2|].
    + destruct (@V2_post_comments_effect env db aid text parent who G1 G2)
        as (C & X & _).
      unfold likes_consistent. rewrite C, X. now apply likes_after_create.
    + unfold V2.post_comments, try_catch. rewrite G1, G2. split; assumption.
    + unfold V2.post_comments, try_catch. rewrite G1. split; assumption.
  - destruct (find (Comment.has_id cid) (comments db)) as [target|] eqn:Hf.
    + destruct (@delete_effect fuel db cid target Hwf Hf Hfuel)
        as (D & keep & R).
      unfold likes_consistent.
      rewrite (del_comments_V1 R), (del_articles_V1 R).
      now apply likes_after_delete.
    + unfold V1.delete_comments, V1.delete_comments_try, try_catch, bind,
        Comment.findById. rewrite Hf. split; assumption.
  - destruct (find (Comment.has_id cid) (comments db)) as [target|] eqn:Hf.
    + destruct (@delete_effect fuel db cid target Hwf Hf Hfuel)
        as (D & keep & R).
      unfold likes_consistent.
      rewrite (del_comments_V2 R), (del_articles_V2 R).
      now apply likes_after_delete.
    + unfold V2.delete_comments, V2.delete_comments_try, try_catch, bind,
        Comment.findById.
      destruct (truthy_str cid); cbn [negb]; [rewrite Hf|]; split; assumption.
  - split; [exact Hbody|exact Ha].
  - unfold V2.patch_comments, try_catch, bind, Comment.findByIdAndUpdate, ret.
    destruct (negb (truthy_str text) || negb (truthy_str cid));
      [split; assumption|].
    destruct (find (Comment.has_id cid) (comments db)); split;
      solve [exact Hbody | exact Ha | assumption].
Qed.

Lemma writes_keep_likes_invariant_witness :
  wf_comments (comments sample_db)
  /\ (List.length (comments sample_db) <= 5)%nat
  /\ likes_consistent sample_db
  /\ likes_consistent (fst (V1.delete_comments 5 "c2" sample_db)).
Proof.
  assert (H1 : wf_comments (comments sample_db)) by wf_concrete.
  assert (H2 : (List.length (comments sample_db) <= 5)%nat) by (simpl; lia).
  assert (H3 : likes_consistent sample_db) by likes_concrete.
  split; [exact H1|]. split; [exact H2|]. split; [exact H3|].
  exact (proj1 (proj2 (proj2
    (@writes_keep_likes_invariant some_env 5 sample_db "a1" "hello" None ann
       None "c2" H1 H2 H3)))).
Defined.

(** ** After a delete *)

Lemma ids_parent_fixed target cs : ids (parent_fixed target cs) = ids cs.
Proof. now rewrite <- !shapes_ids, shapes_parent_fixed. Qed.

Lemma subtree_gone fuel db cid target D keep i :
  wf_comments (comments db) ->
  deleted fuel db cid target D keep ->
  descendant (comments db) cid i ->
  find (Comment.has_id i) (parent_fixed target (filter keep (comments db)))
  = None.
Proof.
  intros Hwf R Hd. apply find_fresh_id. rewrite ids_parent_fixed.
  intros Hin. apply in_map_iff in Hin. destruct Hin as (c & <- & Hc).
  apply filter_In in Hc. destruct Hc as [Hc Hk].
  apply (del_keep R c Hc) in Hk. apply Hk. apply (del_subtree R). auto.
Qed.

Lemma descendant_truthy cs cid target i :
  wf_comments cs -> find (Comment.has_id cid) cs = Some target ->
  descendant cs cid i -> truthy_str i = true.
Proof.
  intros Hwf Hf Hd. destruct (find_by_id_inv _ _ Hf) as [Hid Hin].
  assert (Hi : In i (ids cs)).
  { eapply descendant_in_store; [|exact Hd]. rewrite <- Hid. now apply in_map. }
  apply in_map_iff in Hi. destruct Hi as (c & <- & Hc).
  eapply wf_truthy_id; eauto.
Qed.

(** X17. A deleted comment and its replies are gone for every handler: after
    a delete of a stored comment, for the id [i] of the comment or of any
    comment below it, a like or an unlike answers 404, another delete answers
    500 with [Comment not found] (404 in the second form) and a patch in the
    second form answers 404. *)
Theorem deleted_comments_are_gone fuel fuel' db cid target i uid text :
  wf_comments (comments db) ->
  find (Comment.has_id cid) (comments db) = Some target ->
  (List.length (comments db) <= fuel)%nat ->
  descendant (comments db) cid i ->
  truthy_str uid = true -> truthy_str text = true ->
  let db1 := fst (V1.delete_comments fuel cid db) in
  let db2 := fst (V2.delete_comments fuel cid db) in
  snd (V1.post_comments_like i uid db1)
  = Ok (send 404 (Text "Comment not found"))
  /\ snd (V1.post_comments_unlike i uid db1)
     = Ok (send 404 (Text "Comment not found"))
  /\ snd (V1.delete_comments fuel' i db1)
     = Ok (send 500 (ErrorMessage "Comment not found"))
  /\ snd (V2.post_comments_like i uid db2)
     = Ok (send 404 (Text "Comment not found"))
  /\ snd (V2.post_comments_unlike i uid db2)
     = Ok (send 404 (Text "Comment not found"))
  /\ snd (V2.delete_comments fuel' i db2)
     = Ok (send 404 (Text "Comment not found"))
  /\ snd (V2.patch_comments text i db2)
     = Ok (send 404 (Text "Comment not found or update failed")).
Proof.
  intros Hwf Hf Hfuel Hd Gu Gt db1 db2.
  destruct (@delete_effect fuel db cid target Hwf Hf Hfuel) as (D & keep & R).
  pose proof (@subtree_gone fuel db cid target D keep i Hwf R Hd) as Hgone.
  pose proof (@descendant_truthy _ cid target i Hwf Hf Hd) as Gi.
  assert (H1 : find (Comment.has_id i) (comments db1) = None)
    by (unfold db1; now rewrite (del_comments_V1 R)).
  assert (H2 : find (Comment.has_id i) (comments db2) = None)
    by (unfold db2; now rewrite (del_comments_V2 R)).
  split; [now rewrite V1_comment_like, H1|].
  split; [now rewrite V1_comment_unlike, H1|].
  split.
  { unfold V1.delete_comments, V1.delete_comments_try, try_catch, bind,
      Comment.findById. now rewrite H1. }
  split; [now rewrite V2_comment_like, H2 by assumption|].
  split; [now rewrite V2_comment_unlike, H2 by assumption|].
  split.
  { unfold V2.delete_comments, V2.delete_comments_try, try_catch, bind,
      Comment.findById. rewrite Gi. cbn [negb]. now rewrite H2. }
  exact (proj2 (@patch_missing_comment_V2 db2 i text H2 Gt Gi)).
Qed.

Lemma deleted_comments_are_gone_witness :
  wf_comments (comments sample_db)
  /\ (exists target,
        find (Comment.has_id "c1") (comments sample_db) = Some target)
  /\ (List.length (comments sample_db) <= 5)%nat
  /\ descendant (comments sample_db) "c1" "c4"
  /\ snd (V1.post_comments_like "c4" "u1"
            (fst (V1.delete_comments 5 "c1" sample_db)))
     = Ok (send 404 (Text "Comment not found")).
Proof.
  assert (H1 : wf_comments (comments sample_db)) by wf_concrete.
  assert (H3 : (List.length (comments sample_db) <= 5)%nat) by (simpl; lia).
  assert (H4 : descendant (comments sample_db) "c1" "c4").
  { apply (@desc_child (comments sample_db) "c1"
             (IComment.mk "c4" "a1" "reply to the reply" (Some "c2") ["u7"] 1 0 400 ann) "c2").
    - apply (@desc_child (comments sample_db) "c1"
               (IComment.mk "c2" "a1" "first reply" (Some "c1") [] 0 1 200 ann) "c1").
      + constructor.
      + simpl. tauto.
      + reflexivity.
    - simpl. tauto.
    - reflexivity. }
  split; [exact H1|]. split; [eexists; reflexivity|]. split; [exact H3|].
  split; [exact H4|].
  exact (proj1 (@deleted_comments_are_gone 5 5 sample_db "c1" _ "c4" "u1" "t"
                  H1 eq_refl H3 H4 eq_refl eq_refl)).
Defined.

(** ** Likes and patches leave the structure alone *)

(** what the consistency of the store looks at: in a comment its id, its
    article, its parent and its direct-reply counter; in an article its id
    and its two comment counters *)
Definition frame (c : IComment.t) : (string * string * option string) * Z :=
  (shape c, IComment.replies_count c).

Definition counts (a : IArticle.t) : string * Z * Z :=
  (IArticle.article_id a, IArticle.comments_count a, IArticle.replies_count a).

(** [db'] has the comments and articles of [db] up to the fields outside
    [frame] and [counts], and at most one new article, for an article id
    that had no document, with both counters at 0 *)
Definition structure_kept (db db' : DB) : Prop :=
  map frame (comments db') = map frame (comments db)
  /\ (map counts (articles db') = map counts (articles db)
      \/ exists a,
           articles db' = articles db ++ [a]
           /\ find (Article.has_article_id (IArticle.article_id a))
                   (articles db) = None
           /\ IArticle.comments_count a = 0
           /\ IArticle.replies_count a = 0).

Lemma frames_shapes cs' cs :
  map frame cs' = map frame cs -> map shape cs' = map shape cs.
Proof.
  intros H. apply (f_equal (map fst)) in H. now rewrite !map_map in H.
Qed.

Lemma structure_kept_comment db db' p f :
  (forall c, frame (f c) = frame c) ->
  comments db' = update_first p f (comments db) ->
  articles db' = articles db ->
  structure_kept db db'.
Proof.
  intros Hf Hc Ha. split.
  - rewrite Hc. now apply update_first_map.
  - left. now rewrite Ha.
Qed.

Lemma structure_kept_article db db' p f :
  (forall a, counts (f a) = counts a) ->
  comments db' = comments db ->
  articles db' = update_first p f (articles db) ->
  structure_kept db db'.
Proof.
  intros Hf Hc Ha. split.
  - now rewrite Hc.
  - left. rewrite Ha. now apply update_first_map.
Qed.

Lemma structure_kept_same db db' :
  comments db' = comments db -> articles db' = articles db ->
  structure_kept db db'.
Proof. intros Hc Ha. split; [now rewrite Hc|left; now rewrite Ha]. Qed.

Lemma structure_kept_first_like env db db' aid uid :
  find (Article.has_article_id aid) (articles db) = None ->
  comments db' = comments db ->
  articles db' = articles db ++ [first_like env aid uid] ->
  structure_kept db db'.
Proof.
  intros Hf Hc Ha. split; [now rewrite Hc|].
  right. exists (first_like env aid uid). auto.
Qed.

Lemma no_document_no_comment db aid r :
  counters_consistent db ->
  find (Article.has_article_id aid) (articles db) = None ->
  tally aid r (comments db) = 0.
Proof.
  intros (_ & Hart & _) Hf. apply count_none. intros c Hc.
  destruct (String.eqb (IComment.article_id c) aid) eqn:E; [|reflexivity].
  exfalso. apply String.eqb_eq in E. specialize (Hart c Hc).
  apply in_map_iff in Hart. destruct Hart as (a & Ea & Hin).
  apply (find_none _ _ Hf) in Hin. unfold Article.has_article_id in Hin.
  apply String.eqb_neq in Hin. congruence.
Qed.

Lemma store_ok_structure db db' :
  store_ok db -> structure_kept db db' -> store_ok db'.
Proof.
  intros (Hwf & Hres & Hone & Hcc) [Hfr Hxs].
  pose proof (frames_shapes _ _ Hfr) as Hsh.
  assert (Hk : kinds (comments db') = kinds (comments db))
    by now rewrite <- !shapes_kinds, Hsh.
  assert (Hty : forall aid r,
             tally aid r (comments db') = tally aid r (comments db))
    by (intros; now apply tally_kinds).
  assert (Hok : forall a a', counts a = counts a' ->
             article_counts_ok (comments db) a ->
             article_counts_ok (comments db') a').
  { intros a a' E. injection E as Ei Ec Er. unfold article_counts_ok.
    rewrite !Hty, <- Ei, <- Ec, <- Er. auto. }
  split; [|split; [|split]].
  - apply shaped_like_wf with (cs := comments db);
      [|now apply same_shapes_like|exact Hwf].
    rewrite <- shapes_ids, Hsh, shapes_ids. apply Hwf.
  - eapply same_shapes_resolve; eauto.
  - eapply shaped_like_one_article; [apply same_shapes_like|]; eauto.
  - pose proof Hcc as (Hnd & Hart & Hcnt).
    assert (Hart' : forall c, In c (comments db') ->
               In (IComment.article_id c) (map IArticle.article_id (articles db))).
    { intros c Hc. destruct (@same_shapes_like _ _ Hsh c Hc) as (c0 & Hc0 & E).
      injection E as _ Ea _. rewrite <- Ea. now apply Hart. }
    unfold counters_consistent.
    destruct Hxs as [Hxs|(a & Hxs & Hf & Hc0 & Hr0)].
    + assert (Hids : map IArticle.article_id (articles db')
                     = map IArticle.article_id (articles db)).
      { apply (f_equal (map (fun t => fst (fst t)))) in Hxs.
        now rewrite !map_map in Hxs. }
      split; [now rewrite Hids|]. split; [now rewrite Hids|].
      apply Forall_forall. intros a' Ha'.
      apply (in_map counts) in Ha'. rewrite Hxs in Ha'.
      apply in_map_iff in Ha'. destruct Ha' as (a & E & Ha).
      apply (Hok a a' E). rewrite Forall_forall in Hcnt. now apply Hcnt.
    + rewrite Hxs, map_app. split; [|split].
      * apply NoDup_app; [exact Hnd|repeat constructor; intros []|].
        intros i Hi [<-|[]]. apply in_map_iff in Hi.
        destruct Hi as (x & E & Hx). apply (find_none _ _ Hf) in Hx.
        unfold Article.has_article_id in Hx. apply String.eqb_neq in Hx.
        congruence.
      * intros c Hc. apply in_or_app. left. now apply Hart'.
      * apply Forall_app. split.
        -- apply Forall_forall. intros x Hx. apply (Hok x x eq_refl).
           rewrite Forall_forall in Hcnt. now apply Hcnt.
        -- constructor; [|constructor]. unfold article_counts_ok.
           rewrite !Hty, !(@no_document_no_comment db _ _ Hcc Hf). auto.
Qed.

Lemma replies_structure db db' :
  replies_consistent (comments db) -> structure_kept db db' ->
  replies_consistent (comments db').
Proof.
  intros Hrc [Hfr _] c' Hc'.
  pose proof (frames_shapes _ _ Hfr) as Hsh.
  apply (in_map frame) in Hc'. rewrite Hfr in Hc'.
  apply in_map_iff in Hc'. destruct Hc' as (c & E & Hc).
  injection E as Ei _ _ Er.
  rewrite <- Er, <- Ei, (Hrc c Hc). symmetry. now apply children_shapes.
Qed.

Ltac structure_cases :=
  likes_cases; db_simpl;
  first
    [ apply structure_kept_same; reflexivity
    | eapply structure_kept_comment; [|reflexivity|reflexivity];
        intros []; reflexivity
    | eapply structure_kept_article; [|reflexivity|reflexivity];
        intros []; reflexivity
    | eapply structure_kept_first_like; [eassumption|reflexivity|reflexivity] ].

Lemma likes_keep_structure env db cid aid uid :
  structure_kept db (fst (V1.post_comments_like cid uid db))
  /\ structure_kept db (fst (V1.post_comments_unlike cid uid db))
  /\ structure_kept db (fst (V2.post_comments_like cid uid db))
  /\ structure_kept db (fst (V2.post_comments_unlike cid uid db))
  /\ structure_kept db (fst (V1.post_articles_like env aid uid db))
  /\ structure_kept db (fst (V1.post_articles_unlike aid uid db))
  /\ structure_kept db (fst (V2.post_articles_like env aid uid db))
  /\ structure_kept db (fst (V2.post_articles_unlike aid uid db)).
Proof.
  split; [rewrite V1_comment_like; structure_cases|].
  split; [rewrite V1_comment_unlike; structure_cases|].
  split.
  { destruct (truthy_str cid && truthy_str uid) eqn:G.
    - apply andb_true_iff in G. destruct G as [G1 G2].
      rewrite V2_comment_like by assumption. structure_cases.
    - rewrite V2_comment_like_guard by assumption.
      now apply structure_kept_same. }
  split.
  { destruct (truthy_str cid && truthy_str uid) eqn:G.
    - apply andb_true_iff in G. destruct G as [G1 G2].
      rewrite V2_comment_unlike by assumption. structure_cases.
    - rewrite V2_comment_unlike_guard by assumption.
      now apply structure_kept_same. }
  split; [rewrite V1_article_like; structure_cases|].
  split; [rewrite V1_article_unlike; structure_cases|].
  split.
  { destruct (truthy_str aid && truthy_str uid) eqn:G.
    - apply andb_true_iff in G. destruct G as [G1 G2].
      rewrite V2_article_like by assumption. structure_cases.
    - rewrite V2_article_like_guard by assumption.
      now apply structure_kept_same. }
  destruct (truthy_str aid && truthy_str uid) eqn:G.
  - apply andb_true_iff in G. destruct G as [G1 G2].
    rewrite V2_article_unlike by assumption. structure_cases.
  - rewrite V2_article_unlike_guard by assumption.
    now apply structure_kept_same.
Qed.

Lemma patches_keep_structure db cid text :
  structure_kept db (fst (V1.patch_comments text cid db))
  /\ structure_kept db (fst (V2.patch_comments text cid db)).
Proof.
  split.
  - eapply structure_kept_comment; [|reflexivity|reflexivity].
    intros []; reflexivity.
  - unfold V2.patch_comments, try_catch, bind, Comment.findByIdAndUpdate, ret.
    destruct (negb (truthy_str text) || negb (truthy_str cid));
      [now apply structure_kept_same|].
    destruct (find (Comment.has_id cid) (comments db)); db_simpl;
      (eapply structure_kept_comment; [|reflexivity|reflexivity]);
      intros []; reflexivity.
Qed.

Definition consistent (db : DB) : Prop :=
  store_ok db /\ replies_consistent (comments db).

(** X18. Likes, unlikes and patches keep the store consistent, whatever the
    request: if ids are unique and non-empty, parents are stored comments of
    the same article, every comment's article has one document whose
    [comments_count] and [replies_count] are the numbers of its first level
    comments and replies, and every [replies_count] of a comment is the
    number of its direct replies, then the same holds after each of the
    eight like and unlike handlers and the two patch handlers. In
    particular the article that a first like creates, with both counters 0,
    is an article without comments. *)
Theorem likes_and_patches_keep_consistent env db cid aid uid text :
  consistent db ->
  consistent (fst (V1.post_comments_like cid uid db))
  /\ consistent (fst (V1.post_comments_unlike cid uid db))
  /\ consistent (fst (V2.post_comments_like cid uid db))
  /\ consistent (fst (V2.post_comments_unlike cid uid db))
  /\ consistent (fst (V1.post_articles_like env aid uid db))
  /\ consistent (fst (V1.post_articles_unlike aid uid db))
  /\ consistent (fst (V2.post_articles_like env aid uid db))
  /\ consistent (fst (V2.post_articles_unlike aid uid db))
  /\ consistent (fst (V1.patch_comments text cid db))
  /\ consistent (fst (V2.patch_comments text cid db)).
Proof.
  intros [Hok Hrc].
  assert (H : forall db', structure_kept db db' -> consistent db').
  { intros db' Hs. split.
    - eapply store_ok_structure; eauto.
    - eapply replies_structure; eauto. }
  destruct (likes_keep_structure env db cid aid uid)
    as (L1 & L2 & L3 & L4 & L5 & L6 & L7 & L8).
  destruct (patches_keep_structure db cid text) as (P1 & P2).
  repeat (split; [apply H; assumption|]). apply H. exact P2.
Qed.

Lemma likes_and_patches_keep_consistent_witness :
  consistent sample_db
  /\ consistent (fst (V1.post_articles_like some_env "a2" "u1" sample_db)).
Proof.
  assert (H : consistent sample_db).
  { split; [store_ok_concrete|replies_concrete]. }
  split; [exact H|].
  destruct (@likes_and_patches_keep_consistent some_env sample_db "c2" "a2" "u1"
              "t" H) as (_ & _ & _ & _ & R & _).
  exact R.
Defined.
